(** * restsuite: OAuth 1.0a request signing and SuiteQL pagination

    A shallow embedding of the signing engine ([NetsuiteOAuth], file
    [restsuite/auth.py]), of the SuiteQL paginator ([NetSuiteQL], file
    [suitepy/suiteql.py]) and of the verb wrappers ([Rest], file
    [suitepy/base_rest.py]), followed by the properties established for
    them; the one-time passwords of the signer ([generateHOTP],
    [generateTOTP]) are embedded as well.  The package [suitepy] imports [NetsuiteOAuth] from its own
    [auth] module; the class is the one of [restsuite/auth.py], which is
    the signer embedded here for both packages.

    Conventions of the embedding:
    - a Python [str] is the list of its code points, a [bytes] object the
      list of its octets, both as [list N];
    - a method that mutates [self] is a function from the instance to an
      outcome and the instance afterwards; a raised exception is an
      outcome, and the instance keeps the writes made before the raise;
    - what the interpreter's libraries do ([urllib.parse], [hashlib],
      [hmac], [base64], [uuid], [time], [requests]) is written out from
      their documented behaviour where the program depends on it, and
      taken as an input (random identifiers, the clock, the server's
      replies, the lines the standard output refuses) where it is not
      determined by the program. *)

From Stdlib Require Import NArith ZArith List String Ascii Bool Lia.
From Stdlib Require Import DecimalString DecimalPos DecimalZ.
From stdpp Require Import base decidable list sorting.
Import ListNotations.

Local Open Scope N_scope.

(** ** Python strings and bytes *)

Module Py.

Abbreviation pystr := (list N).
Abbreviation pybytes := (list N).

(** A literal of the development: an ASCII Rocq string read as a [str]. *)
Definition str (s : string) : pystr :=
  List.map N_of_ascii (list_ascii_of_string s).

(** Exceptions the modelled code can raise. The last two are what [print]
    raises on a closed standard output and on a write that fails. *)
Inductive exn : Set :=
| UnicodeEncodeError
| TypeError
| AttributeError
| KeyError
| IndexError
| JSONDecodeError
| ValueError
| OSError.

Inductive result (A : Type) : Type :=
| Ok (a : A)
| Raise (e : exn).
Arguments Ok {A} a.
Arguments Raise {A} e.

Definition bind {A B} (r : result A) (k : A -> result B) : result B :=
  match r with
  | Ok a => k a
  | Raise e => Raise e
  end.

(** A value that is a [str] or [None] (the constructor's defaults). *)
Inductive value : Type :=
| VNone
| VStr (s : pystr).

(** [str.format] with a [{}] field: [None] prints as its name. *)
Definition format_value (v : value) : pystr :=
  match v with
  | VNone => str "None"
  | VStr s => s
  end.

(** [a + b] where the left operand is a [str]: a [TypeError] unless the
    right operand is a [str] too. *)
Definition concat_value (a : pystr) (v : value) : result pystr :=
  match v with
  | VNone => Raise TypeError
  | VStr s => Ok (a ++ s)
  end.

(** The objects that [json.loads] builds, which are also the objects a
    caller can hand over where a [str] is expected. A float is kept as its
    IEEE 754 binary64 bit pattern; a [dict] as its items in insertion order. *)
#[warnings="-register-all"]
Inductive pyobj : Type :=
| PNone
| PBool (b : bool)
| PInt (z : Z)
| PFloat (bits : N)
| PStr (s : pystr)
| PList (l : list pyobj)
| PDict (d : list (pystr * pyobj)).

(** Truth value of an object, as [if] and [while] test it. *)
Definition truthy (v : pyobj) : bool :=
  match v with
  | PNone => false
  | PBool b => b
  | PInt z => negb (z =? 0)%Z
  | PFloat bits => negb (bits mod 0x8000000000000000 =? 0)
  | PStr s => match s with [] => false | _ => true end
  | PList l => match l with [] => false | _ => true end
  | PDict d => match d with [] => false | _ => true end
  end.

(** [c in s] for a one-character [c]. *)
Definition contains (c : N) (s : pystr) : bool := existsb (N.eqb c) s.

(** [s.replace(a, b)] for one-character [a] and [b]. *)
Definition replace_char (a b : N) (s : pystr) : pystr :=
  List.map (fun c => if c =? a then b else c) s.

(** [s.split(sep)] for a one-character separator: never the empty list. *)
Fixpoint split (sep : N) (s : pystr) : list pystr :=
  match s with
  | [] => [[]]
  | c :: s' =>
      if c =? sep then [] :: split sep s'
      else match split sep s' with
           | [] => [[c]]
           | w :: ws => (c :: w) :: ws
           end
  end.

(** [s.split(sep, 1)]: a split at the first separator only. *)
Fixpoint split1 (sep : N) (s : pystr) : list pystr :=
  match s with
  | [] => [[]]
  | c :: s' =>
      if c =? sep then [[]; s']
      else match split1 sep s' with
           | [] => [[c]]
           | w :: ws => (c :: w) :: ws
           end
  end.

(** [sep.join(parts)]. *)
Fixpoint join (sep : pystr) (parts : list pystr) : pystr :=
  match parts with
  | [] => []
  | [p] => p
  | p :: ps => p ++ sep ++ join sep ps
  end.

(** [s[:-1]]: all but the last character; the empty string stays empty. *)
Definition drop_last (s : pystr) : pystr := removelast s.

(** Comparison of two [str]: lexicographic on code points. *)
Fixpoint str_leb (a b : pystr) : bool :=
  match a, b with
  | [], _ => true
  | _ :: _, [] => false
  | x :: a', y :: b' =>
      if x <? y then true
      else if y <? x then false
      else str_leb a' b'
  end.

Definition str_le (a b : pystr) : Prop := str_leb a b = true.

(** Strictly ascending order of two strings. *)
Definition str_lt (a b : pystr) : Prop := str_le a b /\ a <> b.

#[export] Instance str_le_dec : RelDecision str_le.
Proof. intros a b. unfold str_le. apply _. Defined.

(** [sorted(keys)] on a list of [str]. The keys of a dictionary are
    pairwise distinct and [str] comparison is a total order, so the
    result is the one sorted arrangement whatever the sorting algorithm. *)
Definition sorted (keys : list pystr) : list pystr := merge_sort str_le keys.

(** [str.encode('utf-8', 'strict')] on one code point: surrogates cannot
    be encoded. *)
Definition utf8_encode_char (c : N) : option pybytes :=
  if c <? 0x80 then Some [c]
  else if c <? 0x800 then Some [0xC0 + c / 0x40; 0x80 + c mod 0x40]
  else if (0xD800 <=? c) && (c <=? 0xDFFF) then None
  else if c <? 0x10000 then
    Some [0xE0 + c / 0x1000; 0x80 + (c / 0x40) mod 0x40; 0x80 + c mod 0x40]
  else if c <? 0x110000 then
    Some [0xF0 + c / 0x40000; 0x80 + (c / 0x1000) mod 0x40;
          0x80 + (c / 0x40) mod 0x40; 0x80 + c mod 0x40]
  else None.

Fixpoint utf8_encode (s : pystr) : option pybytes :=
  match s with
  | [] => Some []
  | c :: s' =>
      match utf8_encode_char c, utf8_encode s' with
      | Some b, Some bs => Some (b ++ bs)
      | _, _ => None
      end
  end.

(** [str.encode(s)] as a call that can raise. *)
Definition encode (s : pystr) : result pybytes :=
  match utf8_encode s with
  | Some bs => Ok bs
  | None => Raise UnicodeEncodeError
  end.

(** [str(n)] for an integer. *)
Definition str_of_int (z : Z) : pystr :=
  str (NilZero.string_of_int (Z.to_int z)).

Definition hexdigit_lower (n : N) : N := if n <? 10 then 48 + n else 87 + n.
Definition hexdigit_upper (n : N) : N := if n <? 10 then 48 + n else 55 + n.

(** ['%0<digits>x' % n] for [n] below [16 ^ digits]. *)
Fixpoint hex_fixed (digits : nat) (n : N) : pystr :=
  match digits with
  | O => []
  | S d => hex_fixed d (n / 16) ++ [hexdigit_lower (n mod 16)]
  end.

(** Insertion-ordered dictionaries with [str] keys: [d[k] = v] replaces the
    value in place when [k] is present and appends the pair otherwise. *)
Definition dict (V : Type) : Type := list (pystr * V).

Fixpoint dict_set {V} (d : dict V) (k : pystr) (v : V) : dict V :=
  match d with
  | [] => [(k, v)]
  | (k', v') :: d' =>
      if bool_decide (k' = k) then (k', v) :: d'
      else (k', v') :: dict_set d' k v
  end.

Fixpoint dict_get {V} (d : dict V) (k : pystr) : option V :=
  match d with
  | [] => None
  | (k', v') :: d' => if bool_decide (k' = k) then Some v' else dict_get d' k
  end.

Definition dict_keys {V} (d : dict V) : list pystr := List.map fst d.

(** [needle in hay] for two strings. *)
Fixpoint starts_with (prefix s : pystr) : bool :=
  match prefix, s with
  | [], _ => true
  | _ :: _, [] => false
  | p :: prefix', c :: s' => (p =? c) && starts_with prefix' s'
  end.

Fixpoint contains_str (needle hay : pystr) : bool :=
  starts_with needle hay
  || match hay with
     | [] => false
     | _ :: hay' => contains_str needle hay'
     end.

End Py.
Import Py.

(** ** [urllib.parse]: the functions the signer calls *)

Module Urllib.

(** [_ALWAYS_SAFE]: the unreserved characters of RFC 3986. *)
Definition ALWAYS_SAFE : pybytes :=
  str "ABCDEFGHIJKLMNOPQRSTUVWXYZabcdefghijklmnopqrstuvwxyz0123456789_.-~".

(** [safe.encode('ascii', 'ignore')]. *)
Definition ascii_ignore (safe : pystr) : pybytes :=
  List.filter (fun c => c <? 128) safe.

Definition is_safe (safe : pybytes) (b : N) : bool :=
  existsb (N.eqb b) (ALWAYS_SAFE ++ safe).

(** [_Quoter.__missing__]: [chr(b) if b in self.safe else '%{:02X}'.format(b)]. *)
Definition quoter (safe : pybytes) (b : N) : pystr :=
  if is_safe safe b then [b]
  else [37; hexdigit_upper (b / 16); hexdigit_upper (b mod 16)].

(** [quote_from_bytes]: when stripping the safe octets leaves nothing the
    octets are returned decoded (they are all ASCII), otherwise every octet
    goes through the quoter. *)
Definition quote_from_bytes (bs : pybytes) (safe : pystr) : pystr :=
  match bs with
  | [] => []
  | _ =>
      let safe := ascii_ignore safe in
      if forallb (is_safe safe) bs then bs
      else List.concat (List.map (quoter safe) bs)
  end.

Definition quote (string safe : pystr) : result pystr :=
  match string with
  | [] => Ok string
  | _ => bind (encode string) (fun bs => Ok (quote_from_bytes bs safe))
  end.

(** [quote_plus]: a string with a space is quoted with the space kept
    safe, and every space is then replaced by a plus sign. *)
Definition quote_plus (string safe : pystr) : result pystr :=
  if negb (contains 32 string) then quote string safe
  else bind (quote string (safe ++ [32]))
            (fun quoted => Ok (replace_char 32 43 quoted)).

Definition hexval (c : N) : option N :=
  if (48 <=? c) && (c <=? 57) then Some (c - 48)
  else if (65 <=? c) && (c <=? 70) then Some (c - 55)
  else if (97 <=? c) && (c <=? 102) then Some (c - 87)
  else None.

(** One piece after a percent sign in [unquote_to_bytes]: two hexadecimal
    digits give an octet, anything else keeps the percent sign. *)
Definition unquote_item (item : pybytes) : pybytes :=
  match item with
  | h :: l :: rest =>
      match hexval h, hexval l with
      | Some a, Some b => (16 * a + b) :: rest
      | _, _ => 37 :: item
      end
  | _ => 37 :: item
  end.

(** [unquote_to_bytes] on an ASCII string. *)
Definition unquote_to_bytes (string : pystr) : pybytes :=
  match split 37 string with
  | bits0 :: ((_ :: _) as items) => bits0 ++ List.concat (List.map unquote_item items)
  | _ => string
  end.

Definition is_cont (b : N) : bool := (0x80 <=? b) && (b <? 0xC0).

Definition REPLACEMENT : N := 0xFFFD.

(** [bytes.decode('utf-8', 'replace')]: each ill-formed piece (a wrong lead
    octet, or a lead octet with the continuation octets that fit it before
    the first one that does not) gives one U+FFFD. *)
Fixpoint utf8_decode_replace (bs : pybytes) : pystr :=
  match bs with
  | [] => []
  | b0 :: t =>
      if b0 <? 0x80 then b0 :: utf8_decode_replace t
      else if b0 <? 0xC2 then REPLACEMENT :: utf8_decode_replace t
      else if b0 <? 0xE0 then
        match t with
        | [] => [REPLACEMENT]
        | b1 :: t1 =>
            if is_cont b1
            then ((b0 - 0xC0) * 0x40 + (b1 - 0x80)) :: utf8_decode_replace t1
            else REPLACEMENT :: utf8_decode_replace t
        end
      else if b0 <? 0xF0 then
        match t with
        | [] => [REPLACEMENT]
        | b1 :: t1 =>
            if is_cont b1
               && negb ((b0 =? 0xE0) && (b1 <? 0xA0))
               && negb ((b0 =? 0xED) && (0xA0 <=? b1))
            then
              match t1 with
              | [] => [REPLACEMENT]
              | b2 :: t2 =>
                  if is_cont b2
                  then ((b0 - 0xE0) * 0x1000 + (b1 - 0x80) * 0x40 + (b2 - 0x80))
                         :: utf8_decode_replace t2
                  else REPLACEMENT :: utf8_decode_replace t1
              end
            else REPLACEMENT :: utf8_decode_replace t
        end
      else if b0 <? 0xF5 then
        match t with
        | [] => [REPLACEMENT]
        | b1 :: t1 =>
            if is_cont b1
               && negb ((b0 =? 0xF0) && (b1 <? 0x90))
               && negb ((b0 =? 0xF4) && (0x90 <=? b1))
            then
              match t1 with
              | [] => [REPLACEMENT]
              | b2 :: t2 =>
                  if is_cont b2 then
                    match t2 with
                    | [] => [REPLACEMENT]
                    | b3 :: t3 =>
                        if is_cont b3
                        then ((b0 - 0xF0) * 0x40000 + (b1 - 0x80) * 0x1000
                              + (b2 - 0x80) * 0x40 + (b3 - 0x80))
                               :: utf8_decode_replace t3
                        else REPLACEMENT :: utf8_decode_replace t2
                    end
                  else REPLACEMENT :: utf8_decode_replace t1
              end
            else REPLACEMENT :: utf8_decode_replace t
        end
      else REPLACEMENT :: utf8_decode_replace t
  end.

(** The pieces of [re.split('([\x00-\x7f]+)', s)]: the maximal runs of
    ASCII and of non-ASCII characters, in order, each with its kind. *)
Fixpoint ascii_runs (s : pystr) : list (bool * pystr) :=
  match s with
  | [] => []
  | c :: s' =>
      let a := c <? 128 in
      match ascii_runs s' with
      | (a', r) :: rs =>
          if Bool.eqb a a' then (a, c :: r) :: rs
          else (a, [c]) :: (a', r) :: rs
      | [] => [(a, [c])]
      end
  end.

(** [unquote]: a string without a percent sign is returned as it is;
    otherwise the ASCII runs are unquoted to octets and decoded, and the
    other runs are kept. *)
Definition unquote (string : pystr) : pystr :=
  if negb (contains 37 string) then string
  else List.concat
         (List.map (fun run : bool * pystr =>
                      if fst run
                      then utf8_decode_replace (unquote_to_bytes (snd run))
                      else snd run)
                   (ascii_runs string)).

(** [parse_qsl] with its defaults: fields are separated by ampersands; a
    field that is empty, has no equals sign or has an empty value is
    skipped; plus signs become spaces before unquoting. *)
Definition parse_field (name_value : pystr) : list (pystr * pystr) :=
  match name_value with
  | [] => []
  | _ =>
      match split1 61 name_value with
      | [name; value] =>
          match value with
          | [] => []
          | _ => [(unquote (replace_char 43 32 name),
                   unquote (replace_char 43 32 value))]
          end
      | _ => []
      end
  end.

Definition parse_qsl (qs : pystr) : list (pystr * pystr) :=
  let query_args := match qs with [] => [] | _ => split 38 qs end in
  List.flat_map parse_field query_args.

(** [parse_qs]: each name is mapped to the list of its values in order of
    appearance. *)
Definition parse_qs_add (parsed_result : dict (list pystr)) (pair : pystr * pystr)
  : dict (list pystr) :=
  let (name, value) := pair in
  match dict_get parsed_result name with
  | Some values => dict_set parsed_result name (values ++ [value])
  | None => dict_set parsed_result name [value]
  end.

Definition parse_qs (qs : pystr) : dict (list pystr) :=
  List.fold_left parse_qs_add (parse_qsl qs) [].

End Urllib.

(** ** [hashlib.sha256], [hmac] and [base64.b64encode] *)

Module Hashlib.

Definition mask32 : N := 0xFFFFFFFF.
Definition add32 (a b : N) : N := (a + b) mod 0x100000000.
Definition rotr (n x : N) : N :=
  N.lor (N.shiftr x n) (N.land (N.shiftl x (32 - n)) mask32).
Definition xor3 (a b c : N) : N := N.lxor (N.lxor a b) c.

Definition Ch (x y z : N) : N :=
  N.lxor (N.land x y) (N.land (N.lxor x mask32) z).
Definition Maj (x y z : N) : N :=
  xor3 (N.land x y) (N.land x z) (N.land y z).
Definition Sigma0 (x : N) : N := xor3 (rotr 2 x) (rotr 13 x) (rotr 22 x).
Definition Sigma1 (x : N) : N := xor3 (rotr 6 x) (rotr 11 x) (rotr 25 x).
Definition sigma0 (x : N) : N := xor3 (rotr 7 x) (rotr 18 x) (N.shiftr x 3).
Definition sigma1 (x : N) : N := xor3 (rotr 17 x) (rotr 19 x) (N.shiftr x 10).

(** The constants of FIPS 180-4: the first 32 bits of the fractional parts
    of the cube roots (round constants) and of the square roots (initial
    hash value) of the first primes. *)
Definition is_prime (n : N) : bool :=
  (2 <=? n)
  && forallb (fun d => negb (n mod d =? 0))
             (List.map N.of_nat (seq 2 (N.to_nat n - 2))).

Definition primes_below (bound : nat) : list N :=
  List.filter is_prime (List.map N.of_nat (seq 0 bound)).

(** The largest [r] below [2 ^ bits] with [r ^ 3 <= n]. *)
Fixpoint cube_root (bits : nat) (n r : N) : N :=
  match bits with
  | O => r
  | S bits' =>
      let r' := r + 2 ^ N.of_nat bits' in
      cube_root bits' n (if r' * r' * r' <=? n then r' else r)
  end.

Definition K256 : list N :=
  Eval vm_compute in
    List.map (fun p => cube_root 40 (p * 2 ^ 96) 0 mod 2 ^ 32) (primes_below 312).

Definition H256 : list N :=
  Eval vm_compute in
    List.map (fun p => N.sqrt (p * 2 ^ 64) mod 2 ^ 32) (primes_below 20).

(** Big-endian words. *)
Fixpoint words_of_bytes (bs : pybytes) : list N :=
  match bs with
  | b0 :: b1 :: b2 :: b3 :: rest =>
      (b0 * 0x1000000 + b1 * 0x10000 + b2 * 0x100 + b3) :: words_of_bytes rest
  | _ => []
  end.

Definition bytes_of_word (w : N) : pybytes :=
  [(w / 0x1000000) mod 0x100; (w / 0x10000) mod 0x100; (w / 0x100) mod 0x100; w mod 0x100].

(** The message schedule: [window] holds the last sixteen words, oldest
    first; [n] more words are produced. *)
Fixpoint schedule (n : nat) (window : list N) : list N :=
  match n with
  | O => []
  | S n' =>
      let w := add32 (add32 (sigma1 (List.nth 14 window 0)) (List.nth 9 window 0))
                     (add32 (sigma0 (List.nth 1 window 0)) (List.nth 0 window 0)) in
      w :: schedule n' (List.tl window ++ [w])
  end.

Record regs : Type := Regs { ra : N; rb : N; rc : N; rd : N; re : N; rf : N; rg : N; rh : N }.

Definition round (s : regs) (kw : N * N) : regs :=
  let t1 := add32 (add32 (add32 (rh s) (Sigma1 (re s))) (Ch (re s) (rf s) (rg s)))
                  (add32 (fst kw) (snd kw)) in
  let t2 := add32 (Sigma0 (ra s)) (Maj (ra s) (rb s) (rc s)) in
  Regs (add32 t1 t2) (ra s) (rb s) (rc s) (add32 (rd s) t1) (re s) (rf s) (rg s).

Definition regs_of_list (h : list N) : regs :=
  Regs (List.nth 0 h 0) (List.nth 1 h 0) (List.nth 2 h 0) (List.nth 3 h 0)
       (List.nth 4 h 0) (List.nth 5 h 0) (List.nth 6 h 0) (List.nth 7 h 0).

Definition list_of_regs (s : regs) : list N :=
  [ra s; rb s; rc s; rd s; re s; rf s; rg s; rh s].

Definition compress (h : list N) (block : pybytes) : list N :=
  let w16 := words_of_bytes block in
  let w := w16 ++ schedule 48 w16 in
  let s := List.fold_left round (List.combine K256 w) (regs_of_list h) in
  List.map (fun p : N * N => add32 (fst p) (snd p)) (List.combine h (list_of_regs s)).

(** The padded message: a one bit, zero bits up to 56 modulo 64 octets and
    the length in bits on eight octets. *)
Definition pad (msg : pybytes) : pybytes :=
  let len := N.of_nat (List.length msg) in
  let zeros := N.to_nat ((64 + 55 - len mod 64) mod 64) in
  let bits := len * 8 in
  msg ++ [0x80] ++ List.repeat 0 zeros
      ++ bytes_of_word ((bits / 0x100000000) mod 0x100000000)
      ++ bytes_of_word (bits mod 0x100000000).

Fixpoint blocks (fuel : nat) (bs : pybytes) : list pybytes :=
  match fuel, bs with
  | S fuel', _ :: _ => List.firstn 64 bs :: blocks fuel' (List.skipn 64 bs)
  | _, _ => []
  end.

Definition sha256 (msg : pybytes) : pybytes :=
  let padded := pad msg in
  let h := List.fold_left compress (blocks (List.length padded) padded) H256 in
  List.concat (List.map bytes_of_word h).

(** [hmac.new(key, msg, hashlib.sha256).digest()] (RFC 2104, 64-octet
    blocks). *)
Definition hmac_sha256 (key msg : pybytes) : pybytes :=
  let key0 := if 64 <? N.of_nat (List.length key) then sha256 key else key in
  let keyb := key0 ++ List.repeat 0 (64 - List.length key0)%nat in
  let ipad := List.map (N.lxor 0x36) keyb in
  let opad := List.map (N.lxor 0x5c) keyb in
  sha256 (opad ++ sha256 (ipad ++ msg)).

Definition b64char (n : N) : N :=
  if n <? 26 then 65 + n
  else if n <? 52 then 97 + (n - 26)
  else if n <? 62 then 48 + (n - 52)
  else if n =? 62 then 43
  else 47.

(** [base64.b64encode(bs).decode()]. *)
Fixpoint b64encode (bs : pybytes) : pystr :=
  match bs with
  | [] => []
  | [b0] =>
      [b64char (b0 / 4); b64char ((b0 mod 4) * 16); 61; 61]
  | [b0; b1] =>
      [b64char (b0 / 4); b64char ((b0 mod 4) * 16 + b1 / 16);
       b64char ((b1 mod 16) * 4); 61]
  | b0 :: b1 :: b2 :: rest =>
      [b64char (b0 / 4); b64char ((b0 mod 4) * 16 + b1 / 16);
       b64char ((b1 mod 16) * 4 + b2 / 64); b64char (b2 mod 64)]
        ++ b64encode rest
  end.

End Hashlib.

(** ** [NetsuiteOAuth]: the signer (restsuite/auth.py) *)

Module Auth.

(** The attributes of an instance, as [__init__] declares them. *)
Record NetsuiteOAuth : Type := {
  realm : value;
  consumer_key : value;
  consumer_secret : value;
  token_key : value;
  token_secret : value;
  signature_method : pystr;
  nonce : value;
  timestamp : value;
  request_parameters : value;
  signature : value;
  normalized_request_parameters : value;
  headers : option (dict pystr);
  base_string : value;
  oauth_string : value
}.

Definition init (account_id consumer_key consumer_secret token_key token_secret : value)
  : NetsuiteOAuth :=
  {| realm := account_id;
     consumer_key := consumer_key;
     consumer_secret := consumer_secret;
     token_key := token_key;
     token_secret := token_secret;
     signature_method := str "HMAC-SHA256";
     nonce := VNone;
     timestamp := VNone;
     request_parameters := VNone;
     signature := VNone;
     normalized_request_parameters := VNone;
     headers := None;
     base_string := VNone;
     oauth_string := VNone |}.

(** Attribute assignments. *)
Definition set_nonce (v : value) (self : NetsuiteOAuth) : NetsuiteOAuth :=
  {| realm := realm self; consumer_key := consumer_key self;
     consumer_secret := consumer_secret self; token_key := token_key self;
     token_secret := token_secret self; signature_method := signature_method self;
     nonce := v; timestamp := timestamp self;
     request_parameters := request_parameters self; signature := signature self;
     normalized_request_parameters := normalized_request_parameters self;
     headers := headers self; base_string := base_string self;
     oauth_string := oauth_string self |}.

Definition set_timestamp (v : value) (self : NetsuiteOAuth) : NetsuiteOAuth :=
  {| realm := realm self; consumer_key := consumer_key self;
     consumer_secret := consumer_secret self; token_key := token_key self;
     token_secret := token_secret self; signature_method := signature_method self;
     nonce := nonce self; timestamp := v;
     request_parameters := request_parameters self; signature := signature self;
     normalized_request_parameters := normalized_request_parameters self;
     headers := headers self; base_string := base_string self;
     oauth_string := oauth_string self |}.

Definition set_signature (v : value) (self : NetsuiteOAuth) : NetsuiteOAuth :=
  {| realm := realm self; consumer_key := consumer_key self;
     consumer_secret := consumer_secret self; token_key := token_key self;
     token_secret := token_secret self; signature_method := signature_method self;
     nonce := nonce self; timestamp := timestamp self;
     request_parameters := request_parameters self; signature := v;
     normalized_request_parameters := normalized_request_parameters self;
     headers := headers self; base_string := base_string self;
     oauth_string := oauth_string self |}.

Definition set_normalized_request_parameters (v : value) (self : NetsuiteOAuth)
  : NetsuiteOAuth :=
  {| realm := realm self; consumer_key := consumer_key self;
     consumer_secret := consumer_secret self; token_key := token_key self;
     token_secret := token_secret self; signature_method := signature_method self;
     nonce := nonce self; timestamp := timestamp self;
     request_parameters := request_parameters self; signature := signature self;
     normalized_request_parameters := v;
     headers := headers self; base_string := base_string self;
     oauth_string := oauth_string self |}.

Definition set_headers (v : option (dict pystr)) (self : NetsuiteOAuth) : NetsuiteOAuth :=
  {| realm := realm self; consumer_key := consumer_key self;
     consumer_secret := consumer_secret self; token_key := token_key self;
     token_secret := token_secret self; signature_method := signature_method self;
     nonce := nonce self; timestamp := timestamp self;
     request_parameters := request_parameters self; signature := signature self;
     normalized_request_parameters := normalized_request_parameters self;
     headers := v; base_string := base_string self;
     oauth_string := oauth_string self |}.

Definition set_base_string (v : value) (self : NetsuiteOAuth) : NetsuiteOAuth :=
  {| realm := realm self; consumer_key := consumer_key self;
     consumer_secret := consumer_secret self; token_key := token_key self;
     token_secret := token_secret self; signature_method := signature_method self;
     nonce := nonce self; timestamp := timestamp self;
     request_parameters := request_parameters self; signature := signature self;
     normalized_request_parameters := normalized_request_parameters self;
     headers := headers self; base_string := v;
     oauth_string := oauth_string self |}.

Definition set_oauth_string (v : value) (self : NetsuiteOAuth) : NetsuiteOAuth :=
  {| realm := realm self; consumer_key := consumer_key self;
     consumer_secret := consumer_secret self; token_key := token_key self;
     token_secret := token_secret self; signature_method := signature_method self;
     nonce := nonce self; timestamp := timestamp self;
     request_parameters := request_parameters self; signature := signature self;
     normalized_request_parameters := normalized_request_parameters self;
     headers := headers self; base_string := base_string self;
     oauth_string := v |}.

(** A method: from the instance to an outcome and the instance afterwards. *)
Definition M (A : Type) : Type := NetsuiteOAuth -> result A * NetsuiteOAuth.

Definition ret {A} (a : A) : M A := fun self => (Ok a, self).
Definition raise {A} (e : exn) : M A := fun self => (Raise e, self).
Definition lift {A} (r : result A) : M A := fun self => (r, self).
Definition read {A} (field : NetsuiteOAuth -> A) : M A := fun self => (Ok (field self), self).
Definition assign (update : NetsuiteOAuth -> NetsuiteOAuth) : M unit :=
  fun self => (Ok tt, update self).
Definition mbind {A B} (m : M A) (k : A -> M B) : M B :=
  fun self =>
    match m self with
    | (Ok a, self') => k a self'
    | (Raise e, self') => (Raise e, self')
    end.
(** [try: m except KeyError: raise KeyError(...)]. *)
Definition reraise_KeyError {A} (m : M A) : M A :=
  fun self =>
    match m self with
    | (Raise KeyError, self') => (Raise KeyError, self')
    | other => other
    end.

Declare Scope auth_scope.
Delimit Scope auth_scope with auth.
Notation "x <- m ;; k" := (mbind m (fun x => k))
  (at level 100, m at next level, right associativity) : auth_scope.
Notation "m ;;; k" := (mbind m (fun _ => k))
  (at level 100, right associativity) : auth_scope.
Local Open Scope auth_scope.

(** What a signing call draws from outside the program: the integers of
    [uuid.uuid4()] and [uuid.uuid1()] and the value of [int(time.time())]. *)
Record Entropy : Type := {
  uuid4_int : N;
  uuid1_int : N;
  time_int : Z
}.

(** [encode_oauth]: [quote_plus(_string, safe='-._~')]. *)
Definition encode_oauth (_string : pystr) : result pystr :=
  Urllib.quote_plus _string (str "-._~").

(** [parse_url_parameters]. An object that is not a [str] has no [split]. *)
Definition first_values (params_list_form : dict (list pystr)) : result (dict pystr) :=
  List.fold_left
    (fun (acc : result (dict pystr)) (item : pystr * list pystr) =>
       bind acc (fun parameters =>
         match snd item with
         | v :: _ => Ok (dict_set parameters (fst item) v)
         | [] => Raise IndexError
         end))
    params_list_form (Ok []).

Definition parse_url_parameters (url : pyobj) : result (pystr * option (dict pystr)) :=
  match url with
  | PStr url =>
      let url_list := split 63 url in
      let base_url := List.hd [] url_list in
      match url_list with
      | _ :: query :: _ =>
          bind (first_values (Urllib.parse_qs query))
               (fun parameters => Ok (base_url, Some parameters))
      | _ => Ok (base_url, None)
      end
  | _ => Raise AttributeError
  end.

(** [generate_nonce]: [uuid.uuid4().hex + uuid.uuid1().hex]. *)
Definition generate_nonce (e : Entropy) : M unit :=
  assign (set_nonce (VStr (hex_fixed 32 (uuid4_int e) ++ hex_fixed 32 (uuid1_int e)))).

(** [generate_timestamp]: [str(int(time.time()))]. *)
Definition generate_timestamp (e : Entropy) : M unit :=
  assign (set_timestamp (VStr (str_of_int (time_int e)))).

(** The dictionary literal of [normalize_request_parameters]. *)
Definition protocol_parameters (self : NetsuiteOAuth) : dict value :=
  [(str "oauth_consumer_key", consumer_key self);
   (str "oauth_token", token_key self);
   (str "oauth_signature_method", VStr (signature_method self));
   (str "oauth_timestamp", timestamp self);
   (str "oauth_nonce", nonce self);
   (str "oauth_version", VStr (str "1.0"))].

(** [for key, value in query_parameters.items(): request_params[key] = value],
    skipped when [query_parameters] is [None] or empty. *)
Definition add_query_parameters (request_params : dict value)
  (query_parameters : option (dict pystr)) : dict value :=
  match query_parameters with
  | Some ((_ :: _) as q) =>
      List.fold_left (fun d (kv : pystr * pystr) => dict_set d (fst kv) (VStr (snd kv)))
                     q request_params
  | _ => request_params
  end.

(** [for key in sorted(request_params.keys()):
       sorted_encoded_params[key] = request_params[key]]. *)
Definition sort_by_name (request_params : dict value) : result (dict value) :=
  List.fold_left
    (fun (acc : result (dict value)) (key : pystr) =>
       bind acc (fun sorted_encoded_params =>
         match dict_get request_params key with
         | Some v => Ok (dict_set sorted_encoded_params key v)
         | None => Raise KeyError
         end))
    (sorted (dict_keys request_params)) (Ok []).

(** [param_string += "{}={}&".format(key, value)] over the items. *)
Definition compile_param_string (sorted_encoded_params : dict value) : pystr :=
  List.fold_left
    (fun (param_string : pystr) (kv : pystr * value) =>
       param_string ++ fst kv ++ [61] ++ format_value (snd kv) ++ [38])
    sorted_encoded_params [].

Definition normalize_request_parameters (query_parameters : option (dict pystr))
  : M unit :=
  literal <- read protocol_parameters ;;
  let request_params := add_query_parameters literal query_parameters in
  sorted_encoded_params <- lift (sort_by_name request_params) ;;
  let param_string := drop_last (compile_param_string sorted_encoded_params) in
  encoded <- lift (encode_oauth param_string) ;;
  assign (set_normalized_request_parameters (VStr encoded)).

Definition generate_base_string (e : Entropy) (http_method : pystr) (url : pyobj)
  : M unit :=
  generate_nonce e ;;;
  generate_timestamp e ;;;
  parsed <- lift (parse_url_parameters url) ;;
  reraise_KeyError (normalize_request_parameters (snd parsed)) ;;;
  encoded_url <- lift (encode_oauth (fst parsed)) ;;
  normalized <- read normalized_request_parameters ;;
  assign (set_base_string
            (VStr (http_method ++ [38] ++ encoded_url ++ [38] ++ format_value normalized))).

(** [str.encode(text)]: the descriptor needs a [str]. *)
Definition str_encode (text : value) : result pybytes :=
  match text with
  | VStr s => encode s
  | VNone => Raise TypeError
  end.

Definition generate_signature : M unit :=
  consumer_secret <- read consumer_secret ;;
  token_secret <- read token_secret ;;
  let key := format_value consumer_secret ++ [38] ++ format_value token_secret in
  text <- read base_string ;;
  key_bytes <- lift (encode key) ;;
  msg_bytes <- lift (str_encode text) ;;
  let signature := Hashlib.hmac_sha256 key_bytes msg_bytes in
  let encoded_signature := Hashlib.b64encode signature in
  encoded <- lift (encode_oauth encoded_signature) ;;
  assign (set_signature (VStr encoded)).

(** The quotation mark of the header syntax. *)
Definition dq : pystr := [34].

Definition generate_auth_header (e : Entropy) (http_method : pystr) (url : pyobj)
  : M (dict pystr) :=
  generate_base_string e http_method url ;;;
  generate_signature ;;;
  realm <- read realm ;;
  s <- lift (concat_value (str "OAuth realm=" ++ dq) realm) ;;
  consumer_key <- read consumer_key ;;
  s <- lift (concat_value (s ++ dq ++ str ",oauth_consumer_key=" ++ dq) consumer_key) ;;
  token_key <- read token_key ;;
  s <- lift (concat_value (s ++ dq ++ str ",oauth_token=" ++ dq) token_key) ;;
  timestamp <- read timestamp ;;
  s <- lift (concat_value
               (s ++ dq ++ str ",oauth_signature_method=" ++ dq ++ str "HMAC-SHA256"
                  ++ dq ++ str ",oauth_timestamp=" ++ dq) timestamp) ;;
  nonce <- read nonce ;;
  s <- lift (concat_value (s ++ dq ++ str ",oauth_nonce=" ++ dq) nonce) ;;
  signature <- read signature ;;
  s <- lift (concat_value
               (s ++ dq ++ str ",oauth_version=" ++ dq ++ str "1.0"
                  ++ dq ++ str ",oauth_signature=" ++ dq) signature) ;;
  let oauth_string := s ++ dq in
  assign (set_oauth_string (VStr oauth_string)) ;;;
  let headers :=
    [(str "Prefer", str "transient");
     (str "Content-Type", str "application/json");
     (str "Authorization", oauth_string);
     (str "cache-control", str "no-cache")] in
  assign (set_headers (Some headers)) ;;;
  ret headers.

End Auth.

(** ** Operations on the objects of a JSON body *)

Module Obj.

(** [v[key]] for a [str] key. *)
Definition getitem (v : pyobj) (key : pystr) : result pyobj :=
  match v with
  | PDict d =>
      match dict_get d key with
      | Some x => Ok x
      | None => Raise KeyError
      end
  | _ => Raise TypeError
  end.

(** [v[0]]. The keys of a JSON object are strings, so [0] is never one. *)
Definition getitem0 (v : pyobj) : result pyobj :=
  match v with
  | PList (x :: _) => Ok x
  | PList [] => Raise IndexError
  | PStr (c :: _) => Ok (PStr [c])
  | PStr [] => Raise IndexError
  | PDict _ => Raise KeyError
  | _ => Raise TypeError
  end.

(** The elements [for x in v] visits, in order. *)
Definition iterate (v : pyobj) : result (list pyobj) :=
  match v with
  | PList l => Ok l
  | PStr s => Ok (List.map (fun c => PStr [c]) s)
  | PDict d => Ok (List.map (fun kv : pystr * pyobj => PStr (fst kv)) d)
  | _ => Raise TypeError
  end.

(** Whether an object can be a dictionary key. *)
Definition hashable (v : pyobj) : bool :=
  match v with
  | PList _ | PDict _ => false
  | _ => true
  end.

End Obj.

(** ** [requests]: what the program reads of a reply *)

Module Requests.

(** A [requests.Response]; [json] is [None] when the body does not parse,
    in which case [response.json()] raises. *)
Record Response : Type := {
  ok : bool;
  status_code : Z;
  resp_headers : dict pystr;
  json : option pyobj
}.

Definition response_json (response : Response) : result pyobj :=
  match json response with
  | Some v => Ok v
  | None => Raise JSONDecodeError
  end.

End Requests.

(** ** [NetSuiteQL]: the paginator (suitepy/suiteql.py) *)

Module SuiteQL.

Import Auth Requests.

(** A request handed to [requests.post]. *)
Record Request : Type := {
  req_url : pyobj;
  req_headers : dict pystr;
  req_data : pystr;
  req_cookies : dict pystr
}.

(** A line written by [print]: a text, or a text followed by [str(v)]. *)
Inductive line : Type :=
| Text (s : pystr)
| TextStr (s : pystr) (v : pyobj).

(** What lies outside the instance: the requests sent so far and the lines
    written to the standard output so far, both oldest first, and the
    standard output itself: [stdout_raises] tells for every line whether
    writing it raises (a text the stream's encoding does not have, a stream
    that is closed or whose write fails) instead of adding the line. *)
Record World : Type := {
  sent : list Request;
  stdout : list line;
  stdout_raises : line -> option exn
}.

Definition send (r : Request) (w : World) : World :=
  {| sent := sent w ++ [r]; stdout := stdout w;
     stdout_raises := stdout_raises w |}.

Definition write (lines : list line) (w : World) : World :=
  {| sent := sent w; stdout := stdout w ++ lines;
     stdout_raises := stdout_raises w |}.

(** [print(l)]: the line is written, or the stream raises and nothing of
    the line counts as written. *)
Definition print (l : line) (w : World) : result unit * World :=
  match stdout_raises w l with
  | Some e => (Raise e, w)
  | None => (Ok tt, write [l] w)
  end.

(** One round trip: what the signer draws for the request and the reply
    the server gives to it.  The transport is taken to answer every
    request it is handed: an exception of [requests] itself (no
    connection, a URL it refuses) is not part of a script. *)
Record Exchange : Type := {
  entropy : Entropy;
  reply : Response
}.

Record NetSuiteQL : Type := {
  auth : NetsuiteOAuth;
  url : pystr;
  items : list pyobj;
  response_body : list pyobj
}.

Definition init (account_id consumer_key consumer_secret token_key token_secret : value)
  : NetSuiteQL :=
  {| auth := Auth.init account_id consumer_key consumer_secret token_key token_secret;
     url := str "https://" ++ format_value account_id
              ++ str ".suitetalk.api.netsuite.com/services/rest/query/v1/suiteql";
     items := [];
     response_body := [] |}.

Definition set_auth (a : NetsuiteOAuth) (self : NetSuiteQL) : NetSuiteQL :=
  {| auth := a; url := url self; items := items self;
     response_body := response_body self |}.
Definition set_response_body (b : list pyobj) (self : NetSuiteQL) : NetSuiteQL :=
  {| auth := auth self; url := url self; items := items self; response_body := b |}.

(** [NetSuiteResponse] and [QueryResponse] instances. [links] is kept as the
    assignments made to it, oldest first: reading it at a [str] key gives
    the value of the last assignment to that key. *)
Record QueryResponse : Type := {
  q_ok : bool;
  q_status_code : Z;
  links : list (pyobj * pyobj);
  count : pyobj;
  hasMore : pyobj;
  offset : pyobj;
  totalResults : pyobj;
  q_items : pyobj
}.

Fixpoint links_get (l : list (pyobj * pyobj)) (key : pystr) : option pyobj :=
  match l with
  | [] => None
  | (PStr k, v) :: l' =>
      match links_get l' key with
      | Some v' => Some v'
      | None => if bool_decide (k = key) then Some v else None
      end
  | _ :: l' => links_get l' key
  end.

(** The four attributes that [NetSuiteResponse.__init__] sets for a
    response that is not OK. [error_status] holds the value whose [str] the
    constructor stores. *)
Record ErrorFields : Type := {
  error_title : pyobj;
  error_type : pyobj;
  error_status : pyobj;
  error_msg : pyobj
}.

(** The four assignments, in the order of the source; each one calls
    [response.json()] again. *)
Definition read_error (response : Response) : result ErrorFields :=
  bind (bind (response_json response) (fun j => Obj.getitem j (str "title")))
    (fun title =>
  bind (bind (response_json response) (fun j => Obj.getitem j (str "type")))
    (fun type =>
  bind (bind (response_json response) (fun j => Obj.getitem j (str "status")))
    (fun status =>
  bind (bind (response_json response) (fun j =>
        bind (Obj.getitem j (str "o:errorDetails")) (fun details =>
        bind (Obj.getitem0 details) (fun first => Obj.getitem first (str "detail")))))
    (fun msg =>
  Ok {| error_title := title; error_type := type;
        error_status := status; error_msg := msg |})))).

(** The six statements of [print_error], each as the line its argument
    evaluates to, or as the exception the evaluation raises: [+] between a
    [str] and an object that is not a [str] raises [TypeError]. *)
Definition print_error (f : ErrorFields) : list (result line) :=
  [Ok (Text (str "ERROR"));
   match error_title f with
   | PStr title => Ok (Text (str "error_title: " ++ title))
   | _ => Raise TypeError
   end;
   match error_type f with
   | PStr type => Ok (Text (str "error_title: " ++ type))
   | _ => Raise TypeError
   end;
   Ok (TextStr (str "error_status: ") (error_status f));
   Ok (TextStr (str "error_msg: ") (error_msg f));
   Ok (Text [])].

(** The statements run in order; the first exception, of an argument or of
    [print] itself, ends the run. *)
Fixpoint print_all (statements : list (result line)) (w : World)
  : result unit * World :=
  match statements with
  | [] => (Ok tt, w)
  | Raise e :: _ => (Raise e, w)
  | Ok l :: rest =>
      match print l w with
      | (Raise e, w) => (Raise e, w)
      | (Ok _, w) => print_all rest w
      end
  end.

(** The body of [NetSuiteResponse.__init__] for a response that is not OK,
    with [print_error]. *)
Definition report_error (response : Response) (w : World) : result unit * World :=
  match read_error response with
  | Raise e => (Raise e, w)
  | Ok f => print_all (print_error f) w
  end.

(** [for link in jsonResults['links']: self.links[link['rel']] = link['href']]:
    the right-hand side is evaluated before the key. *)
Definition add_link (acc : result (list (pyobj * pyobj))) (link : pyobj)
  : result (list (pyobj * pyobj)) :=
  bind acc (fun links =>
  bind (Obj.getitem link (str "href")) (fun href =>
  bind (Obj.getitem link (str "rel")) (fun rel =>
  if Obj.hashable rel then Ok (links ++ [(rel, href)]) else Raise TypeError))).

Definition parse_page (response : Response) : result QueryResponse :=
  if ok response then
    if (status_code response =? 204)%Z then
      Ok {| q_ok := ok response; q_status_code := status_code response;
            links := []; count := PInt 0; hasMore := PBool false;
            offset := PInt 0; totalResults := PInt 0; q_items := PList [] |}
    else
      bind (response_json response) (fun jsonResults =>
      bind (Obj.getitem jsonResults (str "links")) (fun json_links =>
      bind (Obj.iterate json_links) (fun link_list =>
      bind (List.fold_left add_link link_list (Ok [])) (fun links =>
      bind (Obj.getitem jsonResults (str "count")) (fun count =>
      bind (Obj.getitem jsonResults (str "hasMore")) (fun hasMore =>
      bind (Obj.getitem jsonResults (str "offset")) (fun offset =>
      bind (Obj.getitem jsonResults (str "totalResults")) (fun totalResults =>
      bind (Obj.getitem jsonResults (str "items")) (fun items =>
      Ok {| q_ok := ok response; q_status_code := status_code response;
            links := links; count := count; hasMore := hasMore;
            offset := offset; totalResults := totalResults;
            q_items := items |})))))))))
  else
    Ok {| q_ok := ok response; q_status_code := status_code response;
          links := []; count := PInt 0; hasMore := PBool false;
          offset := PInt 0; totalResults := PInt 0; q_items := PList [] |}.

(** [QueryResponse(results)]: the error report of the base class first,
    then the page. *)
Definition make_QueryResponse (response : Response) (w : World)
  : result QueryResponse * World :=
  if ok response then (parse_page response, w)
  else
    match report_error response w with
    | (Ok _, w) => (parse_page response, w)
    | (Raise e, w) => (Raise e, w)
    end.

(** [query]: sign a POST for [url], send it, take the reply. *)
Definition query (x : Exchange) (url : pyobj) (query_string : pystr)
  (self : NetSuiteQL) (w : World) : result Response * NetSuiteQL * World :=
  let body := str "{" ++ dq ++ str "q" ++ dq ++ str ": " ++ dq ++ query_string
                ++ dq ++ str "}" in
  match generate_auth_header (entropy x) (str "POST") url (auth self) with
  | (Raise e, a) => (Raise e, set_auth a self, w)
  | (Ok headers, a) =>
      let request := {| req_url := url; req_headers := headers; req_data := body;
                        req_cookies := [(str "NS_ROUTING_VERSION", str "LAGGING")] |} in
      (Ok (reply x), set_auth a self, send request w)
  end.

(** How a call of [suiteql] ends on a given script of exchanges: with a
    returned object, with an exception, or still waiting for a reply when
    the script is used up. *)
Inductive outcome : Type :=
| Returned (v : pyobj)
| Raised (e : exn)
| Waiting.

(** The [while] loop of [suiteql], entered with [moreQueries] true. Each
    iteration uses one exchange of the script. *)
Fixpoint suiteql_loop (script : list Exchange) (query_string : pystr)
  (next_url : pyobj) (self : NetSuiteQL) (w : World)
  : outcome * NetSuiteQL * World :=
  match script with
  | [] => (Waiting, self, w)
  | x :: script' =>
      match query x next_url query_string self w with
      | (Raise e, self, w) => (Raised e, self, w)
      | (Ok results, self, w) =>
          match make_QueryResponse results w with
          | (Raise e, w) => (Raised e, self, w)
          | (Ok response, w) =>
              if q_ok response then
                let moreQueries := truthy (hasMore response) in
                match (if moreQueries
                       then match links_get (links response) (str "next") with
                            | Some u => Ok u
                            | None => Raise KeyError
                            end
                       else Ok next_url) with
                | Raise e => (Raised e, self, w)
                | Ok next_url =>
                    match Obj.iterate (q_items response) with
                    | Raise e => (Raised e, self, w)
                    | Ok new_items =>
                        let self := set_response_body
                                      (response_body self ++ new_items) self in
                        if moreQueries
                        then suiteql_loop script' query_string next_url self w
                        else (Returned (PList (response_body self)), self, w)
                    end
                end
              else (Returned (PDict []), self, w)
          end
      end
  end.

Definition suiteql (script : list Exchange) (query_string : pystr)
  (self : NetSuiteQL) (w : World) : outcome * NetSuiteQL * World :=
  suiteql_loop script query_string (PStr (url self)) self w.

End SuiteQL.

(** ** [Rest]: the verb wrappers (suitepy/base_rest.py, rest.py) *)

Module Rest.

Import Auth Requests.

(** The function of [requests] a wrapper calls, which fixes the method on
    the wire. *)
Inductive verb : Set := Get | Post | Put | Patch | Delete.

Definition verb_name (v : verb) : pystr :=
  match v with
  | Get => str "GET"
  | Post => str "POST"
  | Put => str "PUT"
  | Patch => str "PATCH"
  | Delete => str "DELETE"
  end.

(** A call of [requests.get], [requests.post], ...: [data] is the object
    given to [json.dumps], when there is a body. *)
Record Call : Type := {
  wire : verb;
  call_url : pyobj;
  call_headers : pyobj;
  call_data : option pyobj
}.

Definition is_dict (v : pyobj) : bool :=
  match v with
  | PDict _ => true
  | _ => false
  end.

(** [if headers and not isinstance(headers, dict): raise TypeError]. *)
Definition check_headers (headers : pyobj) : result unit :=
  if truthy headers && negb (is_dict headers) then Raise TypeError else Ok tt.

(** [if not isinstance(body, dict): raise TypeError]. *)
Definition check_body (body : pyobj) : result unit :=
  if negb (is_dict body) then Raise TypeError else Ok tt.

Definition as_object (d : dict pystr) : pyobj :=
  PDict (List.map (fun kv : pystr * pystr => (fst kv, PStr (snd kv))) d).

(** [if headers: headers["Authorization"] = default_headers["Authorization"]
     else: headers = default_headers]. The caller's dictionary is updated
    in place, so the object returned is also the caller's afterwards. *)
Definition override_headers (headers : pyobj) (default_headers : dict pystr)
  : result pyobj :=
  if truthy headers then
    match dict_get default_headers (str "Authorization"), headers with
    | Some authorization, PDict d =>
        Ok (PDict (dict_set d (str "Authorization") (PStr authorization)))
    | None, _ => Raise KeyError
    | _, _ => Raise TypeError
    end
  else Ok (as_object default_headers).

(** The part the wrappers share once the arguments are checked: sign for
    [signed_method], settle the headers, call [requests]. *)
Definition sign_and_send (e : Entropy) (signed_method : pystr) (wire : verb)
  (url : pyobj) (body : option pyobj) (headers : pyobj) (self : NetsuiteOAuth)
  : result Call * NetsuiteOAuth :=
  match generate_auth_header e signed_method url self with
  | (Raise err, self) => (Raise err, self)
  | (Ok default_headers, self) =>
      match override_headers headers default_headers with
      | Raise err => (Raise err, self)
      | Ok headers =>
          (Ok {| wire := wire; call_url := url; call_headers := headers;
                 call_data := body |}, self)
      end
  end.

Definition get (e : Entropy) (url : pyobj) (headers : pyobj) (self : NetsuiteOAuth)
  : result Call * NetsuiteOAuth :=
  match check_headers headers with
  | Raise err => (Raise err, self)
  | Ok _ => sign_and_send e (str "GET") Get url None headers self
  end.

Definition post (e : Entropy) (url : pyobj) (body : pyobj) (headers : pyobj)
  (self : NetsuiteOAuth) : result Call * NetsuiteOAuth :=
  match bind (check_headers headers) (fun _ => check_body body) with
  | Raise err => (Raise err, self)
  | Ok _ => sign_and_send e (str "PATCH") Post url (Some body) headers self
  end.

Definition put (e : Entropy) (url : pyobj) (body : pyobj) (headers : pyobj)
  (self : NetsuiteOAuth) : result Call * NetsuiteOAuth :=
  match bind (check_headers headers) (fun _ => check_body body) with
  | Raise err => (Raise err, self)
  | Ok _ => sign_and_send e (str "PATCH") Put url (Some body) headers self
  end.

Definition delete (e : Entropy) (url : pyobj) (headers : pyobj) (self : NetsuiteOAuth)
  : result Call * NetsuiteOAuth :=
  match check_headers headers with
  | Raise err => (Raise err, self)
  | Ok _ => sign_and_send e (str "GET") Delete url None headers self
  end.

(** [NetSuiteRest.patch] (rest.py). *)
Definition patch (e : Entropy) (url : pyobj) (body : pyobj) (headers : pyobj)
  (self : NetsuiteOAuth) : result Call * NetsuiteOAuth :=
  match bind (check_headers headers) (fun _ => check_body body) with
  | Raise err => (Raise err, self)
  | Ok _ => sign_and_send e (str "PATCH") Patch url (Some body) headers self
  end.

End Rest.

(** ** Definitions that follow the words of the specification *)

Module Spec.

(** The unreserved characters of RFC 3986, section 2.3:
    [A-Z a-z 0-9 - . _ ~]. *)
Definition unreserved (b : N) : bool :=
  ((65 <=? b) && (b <=? 90)) || ((97 <=? b) && (b <=? 122))
  || ((48 <=? b) && (b <=? 57))
  || (b =? 45) || (b =? 46) || (b =? 95) || (b =? 126).

(** One octet, percent-encoded unless unreserved, hexadecimal digits in
    upper case; the space is not unreserved, so it becomes [%20]. *)
Definition percent_encode_octet (b : N) : pystr :=
  if unreserved b then [b]
  else [37; hexdigit_upper (b / 16); hexdigit_upper (b mod 16)].

(** Percent-encoding of the UTF-8 octets of a string. *)
Definition percent_encode (s : pystr) : option pystr :=
  option_map (fun bs => List.concat (List.map percent_encode_octet bs))
             (utf8_encode s).




(** The text before the first question mark and, when there is one, the
    text after it. *)
Fixpoint split_at_first_question_mark (url : pystr) : pystr * option pystr :=
  match url with
  | [] => ([], None)
  | c :: url' =>
      if c =? 63 then ([], Some url')
      else let (base, query) := split_at_first_question_mark url' in
           (c :: base, query)
  end.

End Spec.

(** ** Closed forms and predicates of the second part *)

Module Closed.

(** What [encode_oauth] does to one octet. *)
Definition oauth_octet (b : N) : pystr :=
  if b =? 32 then [43] else Spec.percent_encode_octet b.

(** One entry of the parameter string before it is encoded. *)
Definition name_value (kv : pystr * value) : pystr :=
  fst kv ++ [61] ++ format_value (snd kv).

(** Every query parameter assigned in turn to the request parameters. *)
Definition set_all (d : dict value) (q : dict pystr) : dict value :=
  List.fold_left (fun d (kv : pystr * pystr) => dict_set d (fst kv) (VStr (snd kv))) q d.

(** The entries of the parameter string: the names of the request
    parameters in sorted order, each with its value. *)
Definition entries (request_params : dict value) : dict value :=
  List.map (fun key => (key, match dict_get request_params key with
                             | Some v => v
                             | None => VNone
                             end))
           (sorted (dict_keys request_params)).

(** Strictly below, with the difference found before either list ends. *)
Fixpoint differs_below (x y : list N) : bool :=
  match x, y with
  | m :: x', n :: y' => (m <? n) || ((m =? n) && differs_below x' y')
  | _, _ => false
  end.

(** The same as a proposition. *)
Fixpoint differs (x y : list N) : Prop :=
  match x, y with
  | m :: x', n :: y' => m < n \/ (m = n /\ differs x' y')
  | _, _ => False
  end.

(** The UTF-8 octets of each name of a list. *)
Fixpoint encode_names (names : list pystr) : option (list pybytes) :=
  match names with
  | [] => Some []
  | n :: names' =>
      match utf8_encode n, encode_names names' with
      | Some b, Some bs => Some (b :: bs)
      | _, _ => None
      end
  end.

(** The first value of each name, names in order of first appearance. *)
Definition add_first (d : dict pystr) (pair : pystr * pystr) : dict pystr :=
  match dict_get d (fst pair) with
  | Some _ => d
  | None => dict_set d (fst pair) (snd pair)
  end.

Definition first_occurrences (pairs : list (pystr * pystr)) : dict pystr :=
  List.fold_left add_first pairs [].

(** The first value of every name of a parsed query. *)
Definition heads (d : dict (list pystr)) : dict pystr :=
  List.map (fun kl : pystr * list pystr => (fst kl, List.hd [] (snd kl))) d.

(** Every name of a parsed query has at least one value. *)
Definition nonempty_values (d : dict (list pystr)) : Prop :=
  Forall (fun kl : pystr * list pystr => snd kl <> []) d.

(** A code point that UTF-8 can encode: not a surrogate, below 0x110000. *)
Definition scalar (c : N) : Prop := c < 0xD800 \/ (0xDFFF < c /\ c < 0x110000).

(** A string that UTF-8 can encode. *)
Definition encodable (s : pystr) : Prop := Forall scalar s.

Definition encodable_pair (kv : pystr * pystr) : Prop :=
  encodable (fst kv) /\ encodable (snd kv).

Definition encodable_entry (kv : pystr * value) : Prop :=
  encodable (fst kv) /\ encodable (format_value (snd kv)).

End Closed.

(** ** Descriptions of a pagination run *)

Module Run.

Import Auth Requests SuiteQL.

(** The page an exchange's reply parses to, with the items the accumulator
    takes from it, when the reply is OK and well formed. *)
Definition page_of (x : Exchange) : option (QueryResponse * list pyobj) :=
  if ok (reply x) then
    match parse_page (reply x) with
    | Ok page =>
        match Obj.iterate (q_items page) with
        | Ok its => Some (page, its)
        | Raise _ => None
        end
    | Raise _ => None
    end
  else None.

Definition page_items (x : Exchange) : list pyobj :=
  match page_of x with
  | Some (_, its) => its
  | None => []
  end.

(** The URL under the [next] relation of the page's links. *)
Definition next_link (x : Exchange) : option pyobj :=
  match page_of x with
  | Some (page, _) => links_get (links page) (str "next")
  | None => None
  end.

Definition next_of (x : Exchange) : pyobj :=
  match next_link x with
  | Some u => u
  | None => PNone
  end.

(** An OK page that reports more results and carries a [next] link. *)
Definition continues (x : Exchange) : bool :=
  match page_of x with
  | Some (page, _) =>
      truthy (hasMore page)
      && match links_get (links page) (str "next") with
         | Some _ => true
         | None => false
         end
  | None => false
  end.

(** An OK page that reports no more results. *)
Definition ends (x : Exchange) : bool :=
  match page_of x with
  | Some (page, _) => negb (truthy (hasMore page))
  | None => false
  end.

(** The six lines of the error report for a title, a type, a status and
    a detail. *)
Definition error_report (title type : pystr) (status detail : pyobj) : list line :=
  [Text (str "ERROR");
   Text (str "error_title: " ++ title);
   Text (str "error_title: " ++ type);
   TextStr (str "error_status: ") status;
   TextStr (str "error_msg: ") detail;
   Text []].

(** The standard output of [w] takes every line of [lines]. *)
Definition accepts (w : World) (lines : list line) : Prop :=
  Forall (fun l => stdout_raises w l = None) lines.

(** The items of the pages of a script, in fetch order. *)
Definition run_items (script : list Exchange) : list pyobj :=
  List.concat (List.map page_items script).

(** The URLs requested along a script: the first one, then the [next] link
    of each page but the last. *)
Definition request_urls (first : pyobj) (script : list Exchange) : list pyobj :=
  List.firstn (List.length script) (first :: List.map next_of script).

(** The URL to request after the pages of a script. *)
Definition follow (first : pyobj) (script : list Exchange) : pyobj :=
  List.last (List.map next_of script) first.

(** A POST to [u] can be signed by [a] with what the exchange draws. *)
Definition signable (a : NetsuiteOAuth) (x : Exchange) (u : pyobj) : bool :=
  match fst (generate_auth_header (entropy x) (str "POST") u a) with
  | Ok _ => true
  | Raise _ => false
  end.

(** Every request of the script can be signed. *)
Definition all_signable (a : NetsuiteOAuth) (first : pyobj)
  (script : list Exchange) : bool :=
  forallb (fun xu : Exchange * pyobj => signable a (fst xu) (snd xu))
          (List.combine script (first :: List.map next_of script)).

End Run.

(** ** Concrete instances used in the examples *)

Module Fixture.

Import Auth.

Definition entropy0 : Entropy :=
  {| uuid4_int := 5; uuid1_int := 7; time_int := 1700000000 |}.

(** A signer with every credential supplied. *)
Definition signer : NetsuiteOAuth :=
  Auth.init (VStr (str "123456")) (VStr (str "ck")) (VStr (str "cs"))
            (VStr (str "tk")) (VStr (str "ts")).

(** The same signer after it has drawn a nonce and a timestamp. *)
Definition stamped_signer : NetsuiteOAuth :=
  snd (generate_timestamp entropy0 (snd (generate_nonce entropy0 signer))).

(** A signer built with the default for the token secret. *)
Definition signer_without_token_secret : NetsuiteOAuth :=
  Auth.init (VStr (str "123456")) (VStr (str "ck")) (VStr (str "cs"))
            (VStr (str "tk")) VNone.

(** The same with the literal text [None] as token secret. *)
Definition signer_with_token_secret_None : NetsuiteOAuth :=
  Auth.init (VStr (str "123456")) (VStr (str "ck")) (VStr (str "cs"))
            (VStr (str "tk")) (VStr (str "None")).

(** A signer built without a consumer key. *)
Definition signer_without_consumer_key : NetsuiteOAuth :=
  Auth.init (VStr (str "123456")) VNone (VStr (str "cs"))
            (VStr (str "tk")) (VStr (str "ts")).

Definition url_bc : pystr := str "https://x.test/a?b=1&c=2".

(** The signer after [generate_base_string] for a GET of [url_bc]. *)
Definition signer_with_base_string : NetsuiteOAuth :=
  snd (generate_base_string entropy0 (str "GET") (PStr url_bc) signer).


(** A URL with a question mark inside its query. *)
Definition url_two_marks : pystr := str "https://x.test/a?b=1?c=2".

(** Headers supplied by the caller of a wrapper. *)
Definition custom_headers : pyobj := PDict [(str "X-Custom", PStr (str "1"))].

(** The [Authorization] value the signer of the examples gives for a
    method and [url_bc]. *)
Definition authorization_for (http_method : string) : option pystr :=
  match fst (generate_auth_header entropy0 (str http_method) (PStr url_bc) signer) with
  | Ok headers => dict_get headers (str "Authorization")
  | Raise _ => None
  end.

Definition query_bc : dict pystr := [(str "b", str "1"); (str "c", str "2")].
Definition query_cb : dict pystr := [(str "c", str "2"); (str "b", str "1")].

(** Query parameters named like protocol parameters, and a URL that
    carries them. *)
Definition query_oauth : dict pystr :=
  [(str "oauth_signature", str "abc"); (str "oauth_version", str "2.0")].
Definition url_oauth : pystr :=
  str "https://x.test/a?oauth_signature=abc&oauth_version=2.0".

(** Replies of the query endpoint. *)
Definition page_json (its : list pyobj) (more : bool) (next : list pyobj) : pyobj :=
  PDict [(str "links", PList next);
         (str "count", PInt (Z.of_nat (List.length its)));
         (str "hasMore", PBool more);
         (str "offset", PInt 0);
         (str "totalResults", PInt 5);
         (str "items", PList its)].

Definition link (rel href : string) : pyobj :=
  PDict [(str "rel", PStr (str rel)); (str "href", PStr (str href))].

Definition ok_reply (body : pyobj) : Requests.Response :=
  {| Requests.ok := true; Requests.status_code := 200;
     Requests.resp_headers := []; Requests.json := Some body |}.

Definition exchange (r : Requests.Response) : SuiteQL.Exchange :=
  {| SuiteQL.entropy := entropy0; SuiteQL.reply := r |}.

(** Three pages: the first two report more and link to the next one. *)
Definition page1 : SuiteQL.Exchange :=
  exchange (ok_reply (page_json [PInt 1; PInt 2] true
                        [link "next" "https://x.test/q?offset=2"])).
Definition page2 : SuiteQL.Exchange :=
  exchange (ok_reply (page_json [PInt 3] true
                        [link "previous" "https://x.test/q?offset=0";
                         link "next" "https://x.test/q?offset=3"])).
Definition page3 : SuiteQL.Exchange :=
  exchange (ok_reply (page_json [PInt 4; PInt 5] false
                        [link "previous" "https://x.test/q?offset=2"])).

(** A single page, for a second query. *)
Definition page_b : SuiteQL.Exchange :=
  exchange (ok_reply (page_json [PStr (str "b")] false [])).

(** A reply that is not OK, with the error document of the service. *)
Definition error_reply : SuiteQL.Exchange :=
  exchange
    {| Requests.ok := false; Requests.status_code := 400;
       Requests.resp_headers := [];
       Requests.json :=
         Some (PDict [(str "type", PStr (str "https://www.rfc-editor.org/rfc/rfc9110"));
                      (str "title", PStr (str "Bad Request"));
                      (str "status", PInt 400);
                      (str "o:errorDetails",
                       PList [PDict [(str "detail", PStr (str "Invalid search query."))]])]) |}.

(** A reply that is not OK and whose body is not JSON. *)
Definition gateway_error : SuiteQL.Exchange :=
  exchange {| Requests.ok := false; Requests.status_code := 502;
              Requests.resp_headers := []; Requests.json := None |}.

(** A freshly constructed paginator and the world before any request. *)
Definition client : SuiteQL.NetSuiteQL :=
  SuiteQL.init (VStr (str "123456")) (VStr (str "ck")) (VStr (str "cs"))
               (VStr (str "tk")) (VStr (str "ts")).

(** The standard output of the examples takes every line. *)
Definition world0 : SuiteQL.World :=
  {| SuiteQL.sent := []; SuiteQL.stdout := [];
     SuiteQL.stdout_raises := fun _ => None |}.

(** A standard output with the [ascii] encoding: a text with a character
    above 127 raises. *)
Definition ascii_stdout (l : SuiteQL.line) : option exn :=
  match l with
  | SuiteQL.Text s =>
      if forallb (fun c => (c <? 128)%N) s then None else Some UnicodeEncodeError
  | SuiteQL.TextStr s _ =>
      if forallb (fun c => (c <? 128)%N) s then None else Some UnicodeEncodeError
  end.

Definition ascii_world : SuiteQL.World :=
  {| SuiteQL.sent := []; SuiteQL.stdout := [];
     SuiteQL.stdout_raises := ascii_stdout |}.

(** An error document whose title has a character outside ASCII
    ([Requ\u00eate invalide]). *)
Definition error_reply_accent : SuiteQL.Exchange :=
  exchange
    {| Requests.ok := false; Requests.status_code := 400;
       Requests.resp_headers := [];
       Requests.json :=
         Some (PDict [(str "type", PStr (str "https://www.rfc-editor.org/rfc/rfc9110"));
                      (str "title", PStr (str "Requ" ++ [233%N] ++ str "te invalide"));
                      (str "status", PInt 400);
                      (str "o:errorDetails",
                       PList [PDict [(str "detail", PStr (str "Invalid search query."))]])]) |}.

Definition select : pystr := str "SELECT id FROM customer".

End Fixture.

(** ** Relations between instances of the signer *)

Module Frame.

Import Auth.

(** The attributes that are not part of a call's signing context. *)
Definition same_configuration (a b : NetsuiteOAuth) : Prop :=
  realm a = realm b
  /\ consumer_key a = consumer_key b
  /\ consumer_secret a = consumer_secret b
  /\ token_key a = token_key b
  /\ token_secret a = token_secret b
  /\ signature_method a = signature_method b
  /\ request_parameters a = request_parameters b.

(** A method that leaves the configuration as it found it, whatever its
    outcome. *)
Definition keeps_configuration {A} (m : M A) : Prop :=
  forall a, same_configuration (snd (m a)) a.

(** Two instances with the same configuration that also agree on the
    first [n] attributes a signing call writes, in the order it writes
    them. *)
Definition agree (n : nat) (a b : NetsuiteOAuth) : Prop :=
  same_configuration a b
  /\ ((1 <= n)%nat -> nonce a = nonce b)
  /\ ((2 <= n)%nat -> timestamp a = timestamp b)
  /\ ((3 <= n)%nat ->
      normalized_request_parameters a = normalized_request_parameters b)
  /\ ((4 <= n)%nat -> base_string a = base_string b)
  /\ ((5 <= n)%nat -> signature a = signature b)
  /\ ((6 <= n)%nat -> oauth_string a = oauth_string b)
  /\ ((7 <= n)%nat -> headers a = headers b).

(** A method that, run on two instances agreeing up to [n], has the same
    outcome on both and, when that outcome is a result, leaves them
    agreeing up to [n']. *)
Definition related {A} (n n' : nat) (m : M A) : Prop :=
  forall a b, agree n a b ->
    fst (m a) = fst (m b)
    /\ (forall x, fst (m a) = Ok x -> agree n' (snd (m a)) (snd (m b))).

(** A signer whose realm and keys are strings and whose credentials can
    all be encoded. *)
Definition ready (a : NetsuiteOAuth) : Prop :=
  (exists r, realm a = VStr r)
  /\ (exists ck, consumer_key a = VStr ck /\ Closed.encodable ck)
  /\ (exists tk, token_key a = VStr tk /\ Closed.encodable tk)
  /\ Closed.encodable (format_value (consumer_secret a))
  /\ Closed.encodable (format_value (token_secret a))
  /\ Closed.encodable (signature_method a).

End Frame.

(** ** [hashlib.sha1], [base64.b32decode] and [struct]: what the one-time
    passwords call *)

Module Otp.

Import Hashlib.

(** What the one-time password functions can raise. *)
Inductive error : Set :=
| ValueError
| Incorrect_padding
| Non_base32_digit
| OverflowError
| struct_error
| IndexError.

Inductive answer (A : Type) : Type :=
| Return (a : A)
| Throw (e : error).
Arguments Return {A} a.
Arguments Throw {A} e.

Definition and_then {A B} (r : answer A) (k : A -> answer B) : answer B :=
  match r with
  | Return a => k a
  | Throw e => Throw e
  end.

Definition rotl (n x : N) : N :=
  N.lor (N.land (N.shiftl x n) mask32) (N.shiftr x (32 - n)).

(** The constants of SHA-1 (FIPS 180-4): the round constants are the
    integer parts of [2 ^ 30] times the square roots of 2, 3, 5 and 10. *)
Definition K1 : list N :=
  Eval vm_compute in List.map (fun n => N.sqrt (n * 2 ^ 60)) [2; 3; 5; 10].

Definition H1 : list N :=
  [0x67452301; 0xEFCDAB89; 0x98BADCFE; 0x10325476; 0xC3D2E1F0].

(** The message schedule of SHA-1: [window] holds the last sixteen words,
    oldest first. *)
Fixpoint schedule1 (n : nat) (window : list N) : list N :=
  match n with
  | O => []
  | S n' =>
      let w := rotl 1 (N.lxor (xor3 (List.nth 13 window 0) (List.nth 8 window 0)
                                    (List.nth 2 window 0))
                              (List.nth 0 window 0)) in
      w :: schedule1 n' (List.tl window ++ [w])
  end.

Record regs1 : Type := Regs1 { sa : N; sb : N; sc : N; sd : N; se : N }.

(** One of the eighty rounds, with its index and its word. *)
Definition round1 (s : regs1) (tw : nat * N) : regs1 :=
  let t := fst tw in
  let f := if (t <? 20)%nat then Ch (sb s) (sc s) (sd s)
           else if (t <? 40)%nat then xor3 (sb s) (sc s) (sd s)
           else if (t <? 60)%nat then Maj (sb s) (sc s) (sd s)
           else xor3 (sb s) (sc s) (sd s) in
  let k := List.nth (t / 20) K1 0 in
  let temp := add32 (add32 (add32 (rotl 5 (sa s)) f) (add32 (se s) k)) (snd tw) in
  Regs1 temp (sa s) (rotl 30 (sb s)) (sc s) (sd s).

Definition compress1 (h : regs1) (block : pybytes) : regs1 :=
  let w16 := words_of_bytes block in
  let w := w16 ++ schedule1 64 w16 in
  let s := List.fold_left round1 (List.combine (seq 0 80) w) h in
  Regs1 (add32 (sa h) (sa s)) (add32 (sb h) (sb s)) (add32 (sc h) (sc s))
        (add32 (sd h) (sd s)) (add32 (se h) (se s)).

Definition sha1 (msg : pybytes) : pybytes :=
  let padded := pad msg in
  let h0 := Regs1 (List.nth 0 H1 0) (List.nth 1 H1 0) (List.nth 2 H1 0)
                  (List.nth 3 H1 0) (List.nth 4 H1 0) in
  let h := List.fold_left compress1 (blocks (List.length padded) padded) h0 in
  bytes_of_word (sa h) ++ bytes_of_word (sb h) ++ bytes_of_word (sc h)
    ++ bytes_of_word (sd h) ++ bytes_of_word (se h).

(** [hmac.new(key, msg, hashlib.sha1).digest()]. *)
Definition hmac_sha1 (key msg : pybytes) : pybytes :=
  let key0 := if 64 <? N.of_nat (List.length key) then sha1 key else key in
  let keyb := key0 ++ List.repeat 0 (64 - List.length key0)%nat in
  let ipad := List.map (N.lxor 0x36) keyb in
  let opad := List.map (N.lxor 0x5c) keyb in
  sha1 (opad ++ sha1 (ipad ++ msg)).

(** [bytes.upper]: the ASCII lower-case letters only. *)
Definition upper_octet (b : N) : N :=
  if (97 <=? b) && (b <=? 122) then b - 32 else b.

Definition bytes_upper (s : pybytes) : pybytes := List.map upper_octet s.

Fixpoint lstrip (c : N) (s : pybytes) : pybytes :=
  match s with
  | x :: s' => if x =? c then lstrip c s' else s
  | [] => []
  end.

(** [s.rstrip(c)] for a one-octet [c]. *)
Definition rstrip (c : N) (s : pybytes) : pybytes := List.rev (lstrip c (List.rev s)).

(** [_b32rev]: the value of a digit of [ABCDEFGHIJKLMNOPQRSTUVWXYZ234567]. *)
Definition b32rev (c : N) : option N :=
  if (65 <=? c) && (c <=? 90) then Some (c - 65)
  else if (50 <=? c) && (c <=? 55) then Some (c - 24)
  else None.

(** [int.to_bytes(5)], big endian. *)
Definition to_bytes5 (acc : N) : answer pybytes :=
  if acc <? 2 ^ 40
  then Return [acc / 2 ^ 32; (acc / 2 ^ 24) mod 256; (acc / 2 ^ 16) mod 256;
               (acc / 2 ^ 8) mod 256; acc mod 256]
  else Throw OverflowError.

(** [for c in quanta: acc = (acc << 5) + b32rev[c]]. *)
Definition accumulate (quanta : pybytes) : answer N :=
  List.fold_left
    (fun (acc : answer N) (c : N) =>
       and_then acc (fun a =>
         match b32rev c with
         | Some v => Return (a * 32 + v)
         | None => Throw Non_base32_digit
         end))
    quanta (Return 0).

(** The loop over the quanta of eight digits: the octets decoded so far
    and the accumulator of the last quantum. *)
Fixpoint decode_quanta (fuel : nat) (s : pybytes) (decoded : pybytes) (acc : N)
  : answer (pybytes * N) :=
  match fuel, s with
  | S fuel', _ :: _ =>
      and_then (accumulate (List.firstn 8 s)) (fun acc =>
      and_then (to_bytes5 acc) (fun five =>
      decode_quanta fuel' (List.skipn 8 s) (decoded ++ five) acc))
  | _, _ => Return (decoded, acc)
  end.

(** [base64.b32decode(s, True)] for a [str] argument. *)
Definition b32decode (s : pystr) : answer pybytes :=
  if negb (forallb (fun c => c <? 128) s) then Throw ValueError
  else if negb (N.of_nat (List.length s) mod 8 =? 0) then Throw Incorrect_padding
  else
    let s := bytes_upper s in
    let l := List.length s in
    let s := rstrip 61 s in
    let padchars := N.of_nat (l - List.length s) in
    and_then (decode_quanta (List.length s) s [] 0) (fun loop =>
    let (decoded, acc) := loop in
    if negb (existsb (N.eqb padchars) [0; 1; 3; 4; 6]) then Throw Incorrect_padding
    else
      match padchars, decoded with
      | 0, _ | _, [] => Return decoded
      | _, _ :: _ =>
          and_then (to_bytes5 (N.shiftl acc (5 * padchars))) (fun last =>
          let leftover := N.to_nat ((43 - 5 * padchars) / 8) in
          Return (List.firstn (List.length decoded - 5) decoded
                    ++ List.firstn leftover last))
      end).

(** [struct.pack(">Q", n)]. *)
Definition pack_Q (n : Z) : answer pybytes :=
  if ((0 <=? n) && (n <? 2 ^ 64))%Z
  then let n := Z.to_N n in
       Return (bytes_of_word (n / 2 ^ 32) ++ bytes_of_word (n mod 2 ^ 32))
  else Throw struct_error.

(** [struct.unpack(">I", b)[0]]. *)
Definition unpack_I (b : pybytes) : answer N :=
  match b with
  | [b0; b1; b2; b3] => Return (b0 * 0x1000000 + b1 * 0x10000 + b2 * 0x100 + b3)
  | _ => Throw struct_error
  end.

(** [h[i]] on a [bytes] object. *)
Definition index (h : pybytes) (i : nat) : answer N :=
  match List.nth_error h i with
  | Some b => Return b
  | None => Throw IndexError
  end.

(** [NetsuiteOAuth.generateHOTP] (restsuite/auth.py). *)
Definition generateHOTP (secret : pystr) (intervals_no : Z) : answer N :=
  and_then (b32decode secret) (fun key =>
  and_then (pack_Q intervals_no) (fun msg =>
  let h := hmac_sha1 key msg in
  and_then (index h 19) (fun last =>
  let o := N.to_nat (N.land last 15) in
  and_then (unpack_I (List.firstn 4 (List.skipn o h))) (fun word =>
  Return (N.land word 0x7fffffff mod 1000000))))).

(** [NetsuiteOAuth.generateTOTP], with the value of [int(time.time())]. *)
Definition generateTOTP (secret : pystr) (now : Z) : answer N :=
  generateHOTP secret (now / 30).

End Otp.

(** ** Predicates on encoded text and on queries *)

Module Shape.

Import Auth.

(** A character [encode_oauth] can write: an unreserved one, the percent
    sign or the plus sign. *)
Definition oauth_char (c : N) : Prop :=
  Spec.unreserved c = true \/ c = 37 \/ c = 43.

(** A field [name=value] of a query whose two sides are what
    [encode_oauth] returns for the name and the value of a pair. *)
Definition encoded_field (kv : pystr * pystr) (field : pystr) : Prop :=
  exists ek ev, encode_oauth (fst kv) = Ok ek /\ encode_oauth (snd kv) = Ok ev
                /\ field = ek ++ [61] ++ ev.

(** The text of the [Authorization] header for given field values. *)
Definition authorization (realm consumer_key token_key timestamp nonce signature : pystr)
  : pystr :=
  str "OAuth realm=" ++ dq ++ realm ++ dq
    ++ str ",oauth_consumer_key=" ++ dq ++ consumer_key ++ dq
    ++ str ",oauth_token=" ++ dq ++ token_key ++ dq
    ++ str ",oauth_signature_method=" ++ dq ++ str "HMAC-SHA256" ++ dq
    ++ str ",oauth_timestamp=" ++ dq ++ timestamp ++ dq
    ++ str ",oauth_nonce=" ++ dq ++ nonce ++ dq
    ++ str ",oauth_version=" ++ dq ++ str "1.0" ++ dq
    ++ str ",oauth_signature=" ++ dq ++ signature ++ dq.

(** The four headers of a signed request. *)
Definition default_headers (authorization : pystr) : dict pystr :=
  [(str "Prefer", str "transient");
   (str "Content-Type", str "application/json");
   (str "Authorization", authorization);
   (str "cache-control", str "no-cache")].

(** Credentials that can be encoded once formatted, [None] as its name. *)
Definition encodable_credentials (a : NetsuiteOAuth) : Prop :=
  Closed.encodable (format_value (consumer_key a))
  /\ Closed.encodable (format_value (token_key a))
  /\ Closed.encodable (format_value (consumer_secret a))
  /\ Closed.encodable (format_value (token_secret a))
  /\ Closed.encodable (signature_method a).

(** A digit of Base32, in either case. *)
Definition b32_char (c : N) : Prop :=
  exists v, Otp.b32rev (Otp.upper_octet c) = Some v.

(** A lower-case hexadecimal digit, a decimal digit. *)
Definition hex_char (c : N) : Prop := (48 <= c <= 57) \/ (97 <= c <= 102).
Definition digit_char (c : N) : Prop := 48 <= c <= 57.

End Shape.

(** ** Descriptions of what a call of the paginator changes *)

Module Pages.

Import Auth Requests SuiteQL Run.

(** A request as [query] sends it for the query string [q]: the body
    [{"q": "<q>"}], the routing cookie and the four signed headers. *)
Definition query_request (q : pystr) (r : Request) : Prop :=
  req_data r = str "{" ++ dq ++ str "q" ++ dq ++ str ": " ++ dq ++ q ++ dq ++ str "}"
  /\ req_cookies r = [(str "NS_ROUTING_VERSION", str "LAGGING")]
  /\ exists authorization, req_headers r = Shape.default_headers authorization.

(** From [before] to [after] the paginator and the world have only grown:
    the URL, [items] and the credentials are the same, the accumulator and
    the output have been extended, and at most [budget] requests have been
    sent, all of them for the query string [q]. *)
Definition extends (q : pystr) (budget : nat)
  (before after : NetSuiteQL * World) : Prop :=
  url (fst after) = url (fst before)
  /\ items (fst after) = items (fst before)
  /\ Frame.same_configuration (auth (fst after)) (auth (fst before))
  /\ (exists more, response_body (fst after) = response_body (fst before) ++ more)
  /\ (exists new, sent (snd after) = sent (snd before) ++ new
                  /\ (List.length new <= budget)%nat
                  /\ Forall (query_request q) new)
  /\ (exists lines, stdout (snd after) = stdout (snd before) ++ lines).

(** An OK page that reports more results and carries no [next] link. *)
Definition dangles (x : Exchange) : bool :=
  match page_of x with
  | Some (page, _) =>
      truthy (hasMore page)
      && match links_get (links page) (str "next") with
         | Some _ => false
         | None => true
         end
  | None => false
  end.

(** The members a page of results must have. *)
Definition page_members : list pystr :=
  [str "links"; str "count"; str "hasMore"; str "offset"; str "totalResults";
   str "items"].

End Pages.

(** ** More replies for the examples *)

Module Samples.

(** An OK page that reports more results and links nowhere. *)
Definition page_without_next : SuiteQL.Exchange :=
  Fixture.exchange
    (Fixture.ok_reply (Fixture.page_json [PInt 1] true
                         [Fixture.link "self" "https://x.test/q?offset=0"])).

(** A reply with status 204 and no body. *)
Definition no_content : SuiteQL.Exchange :=
  Fixture.exchange {| Requests.ok := true; Requests.status_code := 204;
                      Requests.resp_headers := []; Requests.json := None |}.

(** An OK page without the member [count]. *)
Definition page_without_count : SuiteQL.Exchange :=
  Fixture.exchange
    (Fixture.ok_reply (PDict [(str "links", PList []);
                              (str "hasMore", PBool false);
                              (str "offset", PInt 0);
                              (str "totalResults", PInt 1);
                              (str "items", PList [PInt 1])])).

End Samples.

(** ** The five verb wrappers side by side *)

Module Wrappers.

Import Auth Rest.

(** The wrapper that sends with a given function of [requests]; [get] and
    [delete] take no body. *)
Definition call (v : verb) (e : Entropy) (url body headers : pyobj)
  (self : NetsuiteOAuth) : result Call * NetsuiteOAuth :=
  match v with
  | Get => get e url headers self
  | Post => post e url body headers self
  | Put => put e url body headers self
  | Delete => delete e url headers self
  | Patch => patch e url body headers self
  end.

(** The method each wrapper hands to [generate_auth_header]. *)
Definition signed_method (v : verb) : pystr :=
  match v with
  | Get | Delete => str "GET"
  | Post | Put | Patch => str "PATCH"
  end.

Definition takes_body (v : verb) : bool :=
  match v with
  | Get | Delete => false
  | Post | Put | Patch => true
  end.

End Wrappers.

(** * Properties *)

(** ** The order on strings *)

Section StrOrder.

Lemma str_leb_refl (a : pystr) : str_leb a a = true.
Proof.
  induction a as [|x a IH]; simpl; [reflexivity|].
  rewrite N.ltb_irrefl. exact IH.
Qed.

Lemma str_leb_total (a b : pystr) : str_leb a b = true \/ str_leb b a = true.
Proof.
  revert b. induction a as [|x a IH]; intros [|y b]; simpl; auto.
  destruct (N.ltb_spec x y), (N.ltb_spec y x); auto; lia.
Qed.

Lemma str_leb_trans (a b c : pystr) :
  str_leb a b = true -> str_leb b c = true -> str_leb a c = true.
Proof.
  revert b c. induction a as [|x a IH]; intros [|y b] [|z c]; simpl; auto;
    try discriminate.
  destruct (N.ltb_spec x y), (N.ltb_spec y x), (N.ltb_spec y z),
    (N.ltb_spec z y), (N.ltb_spec x z), (N.ltb_spec z x);
    try discriminate; try lia; auto.
  apply IH.
Qed.

Lemma str_leb_antisym (a b : pystr) :
  str_leb a b = true -> str_leb b a = true -> a = b.
Proof.
  revert b. induction a as [|x a IH]; intros [|y b]; simpl; auto;
    try discriminate.
  destruct (N.ltb_spec x y), (N.ltb_spec y x); try discriminate; try lia.
  intros Hab Hba. assert (x = y) by lia. subst. f_equal. auto.
Qed.

#[export] Instance str_le_total : Total str_le.
Proof. intros a b. apply str_leb_total. Qed.

#[export] Instance str_le_trans : Transitive str_le.
Proof. intros a b c. apply str_leb_trans. Qed.

#[export] Instance str_le_antisym : AntiSymm (=) str_le.
Proof. intros a b. apply str_leb_antisym. Qed.

Lemma sorted_Sorted (keys : list pystr) : Sorted str_le (sorted keys).
Proof. apply Sorted_merge_sort. apply _. Qed.

Lemma sorted_Permutation (keys : list pystr) : sorted keys ≡ₚ keys.
Proof. apply merge_sort_Permutation. Qed.

(** Two arrangements of the same keys sort to the same list. *)
Lemma sorted_unique (k1 k2 : list pystr) : k1 ≡ₚ k2 -> sorted k1 = sorted k2.
Proof.
  intros H. apply (Sorted_unique str_le); try apply sorted_Sorted.
  rewrite !sorted_Permutation. exact H.
Qed.

End StrOrder.

(** ** The order of strings and the order of their UTF-8 octets *)

Section Utf8Order.

Import Closed.

Lemma differs_below_app (x y s t : list N) :
  differs_below x y = true ->
  str_leb (x ++ s) (y ++ t) = true /\ str_leb (y ++ t) (x ++ s) = false.
Proof.
  revert y. induction x as [|m x IH]; intros [|n y]; cbn [differs_below];
    try discriminate.
  intros H. cbn [app str_leb].
  destruct (N.ltb_spec m n) as [Hmn|Hmn].
  - destruct (N.ltb_spec n m); [lia|]. auto.
  - cbn [orb] in H. apply andb_true_iff in H. destruct H as [He H].
    apply N.eqb_eq in He. subst n. rewrite N.ltb_irrefl. now apply IH.
Qed.

Lemma str_leb_app_same (p s t : list N) :
  str_leb (p ++ s) (p ++ t) = str_leb s t.
Proof.
  induction p as [|m p IH]; [reflexivity|].
  cbn [app str_leb]. now rewrite N.ltb_irrefl.
Qed.

Lemma digits (c : N) :
  c = 64 * (c / 64) + c mod 64 /\ c mod 64 < 64
  /\ c / 64 = 64 * (c / 64 / 64) + (c / 64) mod 64 /\ (c / 64) mod 64 < 64
  /\ c / 64 / 64 = 64 * (c / 64 / 64 / 64) + (c / 64 / 64) mod 64
  /\ (c / 64 / 64) mod 64 < 64
  /\ c / 0x1000 = c / 64 / 64
  /\ c / 0x40000 = c / 64 / 64 / 64.
Proof.
  repeat split; try (apply N.div_mod'); try (apply N.mod_lt; lia).
  - now rewrite N.Div0.div_div by lia.
  - now rewrite !N.Div0.div_div by lia.
Qed.

Lemma differs_below_iff (x y : list N) :
  differs x y -> differs_below x y = true.
Proof.
  revert y. induction x as [|m x IH]; intros [|n y]; cbn; try tauto.
  intros [H|[-> H]].
  - apply N.ltb_lt in H. now rewrite H.
  - rewrite N.eqb_refl, (IH y H). apply orb_true_r.
Qed.

(** The encodings of two characters are ordered as the characters. *)
Lemma utf8_encode_char_order (c d : N) (ec ed : pybytes) :
  c < d -> utf8_encode_char c = Some ec -> utf8_encode_char d = Some ed ->
  differs_below ec ed = true.
Proof.
  intros Hcd Hc Hd. apply differs_below_iff. revert Hc Hd.
  unfold utf8_encode_char.
  destruct (digits c) as (C0 & C1 & C2 & C3 & C4 & C5 & C6 & C7).
  destruct (digits d) as (D0 & D1 & D2 & D3 & D4 & D5 & D6 & D7).
  rewrite C6, C7, D6, D7.
  destruct (N.ltb_spec c 0x80); [|destruct (N.ltb_spec c 0x800);
    [|destruct (_ && _); [discriminate|destruct (N.ltb_spec c 0x10000);
      [|destruct (N.ltb_spec c 0x110000); [|discriminate]]]]];
  (destruct (N.ltb_spec d 0x80); [|destruct (N.ltb_spec d 0x800);
    [|destruct (_ && _); [discriminate|destruct (N.ltb_spec d 0x10000);
      [|destruct (N.ltb_spec d 0x110000); [|discriminate]]]]]);
  intros [= <-] [= <-]; cbn [differs];
  set (c1 := c / 64) in *; set (c2 := c1 / 64) in *; set (c3 := c2 / 64) in *;
  set (c0 := c mod 64) in *; set (c10 := c1 mod 64) in *;
  set (c20 := c2 mod 64) in *;
  set (d1 := d / 64) in *; set (d2 := d1 / 64) in *; set (d3 := d2 / 64) in *;
  set (d0 := d mod 64) in *; set (d10 := d1 mod 64) in *;
  set (d20 := d2 mod 64) in *;
  clearbody c0 c1 c10 c2 c20 c3 d0 d1 d10 d2 d20 d3; lia.
Qed.

Lemma utf8_encode_char_nonempty (c : N) (ec : pybytes) :
  utf8_encode_char c = Some ec -> ec <> [].
Proof.
  unfold utf8_encode_char.
  repeat match goal with
  | |- context [if ?b then _ else _] => destruct b
  end; intros [= <-]; discriminate.
Qed.

(** Python compares strings by code points; on strings that can be encoded
    this is the order of their UTF-8 octets compared by value. *)
Lemma str_leb_utf8 (a b : pystr) (ba bb : pybytes) :
  utf8_encode a = Some ba -> utf8_encode b = Some bb ->
  str_leb a b = str_leb ba bb.
Proof.
  revert b ba bb. induction a as [|c a IH]; intros b ba bb.
  - intros [= <-] _. reflexivity.
  - cbn [utf8_encode].
    destruct (utf8_encode_char c) as [ec|] eqn:Hc; [|discriminate].
    destruct (utf8_encode a) as [ba'|] eqn:Ha; [|discriminate].
    intros [= <-]. destruct b as [|d b].
    + intros [= <-]. pose proof (utf8_encode_char_nonempty _ _ Hc).
      destruct ec; [contradiction|reflexivity].
    + cbn [utf8_encode].
      destruct (utf8_encode_char d) as [ed|] eqn:Hd; [|discriminate].
      destruct (utf8_encode b) as [bb'|] eqn:Hb; [|discriminate].
      intros [= <-]. cbn [str_leb].
      destruct (N.ltb_spec c d) as [Hlt|Hge].
      * symmetry. now apply differs_below_app, (utf8_encode_char_order c d).
      * destruct (N.ltb_spec d c) as [Hlt'|Hge'].
        -- symmetry. now apply differs_below_app, (utf8_encode_char_order d c).
        -- assert (c = d) by lia. subst d. rewrite Hc in Hd. injection Hd as <-.
           rewrite str_leb_app_same. now apply IH.
Qed.

End Utf8Order.

Section SortedOctets.

Import Closed.

Lemma str_lt_utf8 (a b : pystr) (ba bb : pybytes) :
  utf8_encode a = Some ba -> utf8_encode b = Some bb ->
  str_lt a b -> str_lt ba bb.
Proof.
  intros Ha Hb [Hle Hne]. unfold str_lt, str_le in *. split.
  - now rewrite <- (str_leb_utf8 a b ba bb).
  - intros ->. apply Hne. apply str_leb_antisym; [exact Hle|].
    rewrite (str_leb_utf8 b a bb bb Hb Ha). apply str_leb_refl.
Qed.

(** Names in strictly ascending order have their UTF-8 octets in strictly
    ascending order of byte values. *)
Lemma sorted_octets (names : list pystr) (encoded : list pybytes) :
  StronglySorted str_lt names -> encode_names names = Some encoded ->
  StronglySorted str_lt encoded.
Proof.
  intros Hs. revert encoded. induction Hs as [|n names Hs IH Hn]; intros encoded.
  - intros [= <-]. constructor.
  - cbn [encode_names]. destruct (utf8_encode n) as [b|] eqn:Hb; [|discriminate].
    destruct (encode_names names) as [bs|] eqn:Hbs; [|discriminate].
    intros [= <-]. constructor; [now apply IH|].
    clear IH Hs. revert bs Hbs. induction Hn as [|m names Hm Hn IH]; intros bs.
    + intros [= <-]. constructor.
    + cbn [encode_names]. destruct (utf8_encode m) as [bm|] eqn:Hbm; [|discriminate].
      destruct (encode_names names) as [bs'|] eqn:Hbs'; [|discriminate].
      intros [= <-]. constructor; [|now apply IH].
      now apply (str_lt_utf8 n m).
Qed.

End SortedOctets.

(** ** Percent-encoding *)

Section Quoting.

Import Urllib.

Lemma N_below_forallb (n : nat) (f : N -> bool) :
  forallb f (List.map N.of_nat (seq 0 n)) = true ->
  forall b, b < N.of_nat n -> f b = true.
Proof.
  intros H b Hb. rewrite forallb_forall in H. apply H.
  apply in_map_iff. exists (N.to_nat b). split; [apply N2Nat.id|].
  apply in_seq. lia.
Qed.

Lemma existsb_eqb_above (l : list N) (b : N) :
  forallb (fun x => x <? 128) l = true -> 128 <= b ->
  existsb (N.eqb b) l = false.
Proof.
  intros Hl Hb. apply Bool.not_true_is_false. intros H.
  apply existsb_exists in H. destruct H as (x & Hx & Hbx).
  rewrite forallb_forall in Hl. apply Hl in Hx.
  apply N.eqb_eq in Hbx. apply N.ltb_lt in Hx. lia.
Qed.

Lemma unreserved_below (b : N) : Spec.unreserved b = true -> b < 128.
Proof.
  unfold Spec.unreserved.
  rewrite !orb_true_iff, !andb_true_iff, !N.leb_le, !N.eqb_eq. lia.
Qed.

(** The safe set of [encode_oauth] is the unreserved set of RFC 3986. *)
Lemma is_safe_unreserved (b : N) :
  is_safe (ascii_ignore (str "-._~")) b = Spec.unreserved b.
Proof.
  destruct (N.ltb_spec b 128) as [Hb|Hb].
  - apply Bool.eqb_prop.
    apply (N_below_forallb 128
             (fun b => Bool.eqb (is_safe (ascii_ignore (str "-._~")) b)
                                (Spec.unreserved b))); [|exact Hb].
    vm_compute. reflexivity.
  - unfold is_safe. rewrite existsb_eqb_above; [|vm_compute; reflexivity|exact Hb].
    symmetry. apply Bool.not_true_is_false. intros H.
    apply unreserved_below in H. lia.
Qed.

(** With the space added to it, the safe set gains the space only. *)
Lemma is_safe_with_space (b : N) :
  is_safe (ascii_ignore (str "-._~" ++ [32])) b = (b =? 32) || Spec.unreserved b.
Proof.
  destruct (N.ltb_spec b 128) as [Hb|Hb].
  - apply Bool.eqb_prop.
    apply (N_below_forallb 128
             (fun b => Bool.eqb (is_safe (ascii_ignore (str "-._~" ++ [32])) b)
                                ((b =? 32) || Spec.unreserved b))); [|exact Hb].
    vm_compute. reflexivity.
  - unfold is_safe. rewrite existsb_eqb_above; [|vm_compute; reflexivity|exact Hb].
    symmetry. apply Bool.not_true_is_false. intros H.
    apply orb_true_iff in H. destruct H as [H|H].
    + apply N.eqb_eq in H. lia.
    + apply unreserved_below in H. lia.
Qed.

Lemma quoter_all_safe (safe : pybytes) (bs : pybytes) :
  forallb (is_safe safe) bs = true ->
  List.concat (List.map (quoter safe) bs) = bs.
Proof.
  induction bs as [|b bs IH]; simpl; [reflexivity|].
  intros H. apply andb_true_iff in H. destruct H as [Hb Hbs].
  unfold quoter at 1. rewrite Hb. simpl. f_equal. auto.
Qed.

(** The shortcut of [quote_from_bytes] does not change its result. *)
Lemma quote_from_bytes_quoter (bs : pybytes) (safe : pystr) :
  quote_from_bytes bs safe
  = List.concat (List.map (quoter (ascii_ignore safe)) bs).
Proof.
  unfold quote_from_bytes. destruct bs as [|b bs]; [reflexivity|].
  destruct (forallb _ _) eqn:H; [|reflexivity].
  symmetry. apply quoter_all_safe. exact H.
Qed.

Lemma quote_encode (s safe : pystr) :
  quote s safe = bind (encode s) (fun bs => Ok (quote_from_bytes bs safe)).
Proof. destruct s; reflexivity. Qed.

Lemma hexdigit_upper_not_space (n : N) : (hexdigit_upper n =? 32) = false.
Proof. unfold hexdigit_upper. destruct (n <? 10); apply N.eqb_neq; lia. Qed.

(** Octets of one encoded character: a space only for the space. *)
Lemma utf8_encode_char_space (c : N) (bs : pybytes) :
  utf8_encode_char c = Some bs ->
  existsb (N.eqb 32) bs = (32 =? c).
Proof.
  unfold utf8_encode_char.
  destruct (N.ltb_spec c 0x80); [intros [= <-]; cbn [existsb]; apply orb_false_r|].
  assert (Hc : (32 =? c) = false) by (apply N.eqb_neq; lia). rewrite Hc.
  assert (Hne : forall x, (32 =? 0x80 + x) = false) by (intros; apply N.eqb_neq; lia).
  assert (Hc0 : forall x, (32 =? 0xC0 + x) = false) by (intros; apply N.eqb_neq; lia).
  assert (He0 : forall x, (32 =? 0xE0 + x) = false) by (intros; apply N.eqb_neq; lia).
  assert (Hf0 : forall x, (32 =? 0xF0 + x) = false) by (intros; apply N.eqb_neq; lia).
  destruct (c <? 0x800); [intros [= <-]; cbn [existsb]; now rewrite Hc0, Hne|].
  destruct (_ && _); [discriminate|].
  destruct (c <? 0x10000); [intros [= <-]; cbn [existsb]; now rewrite He0, !Hne|].
  destruct (c <? 0x110000); [intros [= <-]; cbn [existsb]; now rewrite Hf0, !Hne|].
  discriminate.
Qed.

Lemma utf8_encode_space (s : pystr) (bs : pybytes) :
  utf8_encode s = Some bs -> existsb (N.eqb 32) bs = contains 32 s.
Proof.
  revert bs. induction s as [|c s IH]; simpl; intros bs.
  - intros [= <-]. reflexivity.
  - destruct (utf8_encode_char c) as [b|] eqn:Hc; [|discriminate].
    destruct (utf8_encode s) as [bs'|]; [|discriminate].
    intros [= <-]. rewrite existsb_app, (utf8_encode_char_space _ _ Hc).
    unfold contains in IH. rewrite (IH bs' eq_refl). reflexivity.
Qed.

Lemma oauth_octet_no_space (bs : pybytes) :
  existsb (N.eqb 32) bs = false ->
  List.concat (List.map (quoter (ascii_ignore (str "-._~"))) bs)
  = List.concat (List.map Closed.oauth_octet bs).
Proof.
  induction bs as [|b bs IH]; cbn [List.concat List.map existsb]; [reflexivity|].
  intros H. apply orb_false_iff in H. destruct H as [Hb Hbs].
  rewrite IH by exact Hbs. f_equal.
  unfold quoter, Closed.oauth_octet, Spec.percent_encode_octet.
  rewrite is_safe_unreserved, N.eqb_sym, Hb. reflexivity.
Qed.

Lemma oauth_octet_with_space (bs : pybytes) :
  replace_char 32 43
    (List.concat (List.map (quoter (ascii_ignore (str "-._~" ++ [32]))) bs))
  = List.concat (List.map Closed.oauth_octet bs).
Proof.
  induction bs as [|b bs IH]; cbn [List.concat List.map]; [reflexivity|].
  unfold replace_char in *. rewrite List.map_app, IH. f_equal.
  unfold quoter, Closed.oauth_octet, Spec.percent_encode_octet.
  rewrite is_safe_with_space.
  destruct (N.eqb_spec b 32) as [->|Hb]; [reflexivity|].
  cbn [orb]. destruct (Spec.unreserved b); cbn [List.map].
  - destruct (N.eqb_spec b 32); [contradiction|reflexivity].
  - rewrite !hexdigit_upper_not_space. reflexivity.
Qed.

(** [encode_oauth] in closed form: the UTF-8 octets of the string, each
    unreserved octet kept, the space turned into a plus sign and every
    other octet written as a percent sign and two upper-case digits. *)
Lemma encode_oauth_octets (s : pystr) :
  Auth.encode_oauth s
  = bind (encode s) (fun bs => Ok (List.concat (List.map Closed.oauth_octet bs))).
Proof.
  unfold Auth.encode_oauth, quote_plus. rewrite !quote_encode.
  unfold encode. destruct (utf8_encode s) as [bs|] eqn:Hs.
  - pose proof (utf8_encode_space _ _ Hs) as Hsp.
    destruct (contains 32 s) eqn:Hc; simpl.
    + rewrite quote_from_bytes_quoter, oauth_octet_with_space. reflexivity.
    + rewrite quote_from_bytes_quoter, oauth_octet_no_space by exact Hsp.
      reflexivity.
  - destruct (contains 32 s); reflexivity.
Qed.

Lemma oauth_octet_percent_encode_octet (bs : pybytes) :
  existsb (N.eqb 32) bs = false ->
  List.concat (List.map Closed.oauth_octet bs)
  = List.concat (List.map Spec.percent_encode_octet bs).
Proof.
  induction bs as [|b bs IH]; cbn [List.concat List.map existsb]; [reflexivity|].
  intros H. apply orb_false_iff in H. destruct H as [Hb Hbs].
  rewrite IH by exact Hbs. f_equal. unfold Closed.oauth_octet.
  now rewrite N.eqb_sym, Hb.
Qed.

(** On a string without a space the program's encoder is the percent
    encoding of the specification. *)
Lemma encode_oauth_percent_encode (s : pystr) :
  contains 32 s = false ->
  Auth.encode_oauth s
  = match Spec.percent_encode s with
    | Some t => Ok t
    | None => Raise UnicodeEncodeError
    end.
Proof.
  intros Hc. rewrite encode_oauth_octets. unfold encode, Spec.percent_encode.
  destruct (utf8_encode s) as [bs|] eqn:Hs; cbn [bind option_map]; [|reflexivity].
  f_equal. apply oauth_octet_percent_encode_octet.
  now rewrite (utf8_encode_space _ _ Hs).
Qed.

Lemma hexdigit_upper_not_plus (n : N) : (43 =? hexdigit_upper n) = false.
Proof. unfold hexdigit_upper. destruct (n <? 10); apply N.eqb_neq; lia. Qed.

Lemma percent_encode_octet_no_plus (b : N) :
  contains 43 (Spec.percent_encode_octet b) = false.
Proof.
  unfold Spec.percent_encode_octet, contains.
  destruct (Spec.unreserved b) eqn:Hu; cbn [existsb].
  - rewrite orb_false_r. apply N.eqb_neq. intros <-. discriminate Hu.
  - now rewrite !hexdigit_upper_not_plus.
Qed.

Lemma percent_encode_no_plus (bs : pybytes) :
  contains 43 (List.concat (List.map Spec.percent_encode_octet bs)) = false.
Proof.
  unfold contains. induction bs as [|b bs IH]; [reflexivity|].
  cbn [List.map List.concat]. rewrite existsb_app, IH, orb_false_r.
  apply percent_encode_octet_no_plus.
Qed.

Lemma oauth_octet_plus (bs : pybytes) :
  existsb (N.eqb 32) bs = true ->
  contains 43 (List.concat (List.map Closed.oauth_octet bs)) = true.
Proof.
  unfold contains. induction bs as [|b bs IH]; [discriminate|].
  cbn [existsb List.map List.concat]. rewrite existsb_app. intros H.
  apply orb_true_iff in H. destruct H as [H|H].
  - apply N.eqb_eq in H. subst b. reflexivity.
  - rewrite (IH H). apply orb_true_r.
Qed.

(** On every string with a space the program's encoder and the percent
    encoding of the specification differ: the former writes a plus sign,
    which the latter never does. *)
Lemma encode_oauth_space (s t t' : pystr) :
  contains 32 s = true ->
  Auth.encode_oauth s = Ok t -> Spec.percent_encode s = Some t' ->
  contains 43 t = true /\ contains 43 t' = false /\ t <> t'.
Proof.
  intros Hs. rewrite encode_oauth_octets. unfold encode, Spec.percent_encode.
  destruct (utf8_encode s) as [bs|] eqn:Hbs; [|discriminate].
  cbn [bind option_map]. intros [= <-] [= <-].
  rewrite <- (utf8_encode_space _ _ Hbs) in Hs.
  pose proof (oauth_octet_plus bs Hs) as H1.
  pose proof (percent_encode_no_plus bs) as H2.
  split; [exact H1|]. split; [exact H2|]. intros E. rewrite E in H1. congruence.
Qed.

End Quoting.

(** C1 (the space). [encode_oauth] turns the space into a plus sign: it
    returns ["+"] for [" "] and ["a+b"] for ["a b"], where the percent
    encoding of the specification gives ["%20"] and ["a%20b"]; the
    unreserved characters of ["abc-._~123"] come back unchanged. *)
Theorem C1_encode_oauth_space_is_plus :
  Auth.encode_oauth (str " ") = Ok (str "+")
  /\ Auth.encode_oauth (str "a b") = Ok (str "a+b")
  /\ Spec.percent_encode (str " ") = Some (str "%20")
  /\ Spec.percent_encode (str "a b") = Some (str "a%20b")
  /\ Auth.encode_oauth (str "abc-._~123") = Ok (str "abc-._~123").
Proof. repeat split; vm_compute; reflexivity. Qed.

(** ** Dictionaries *)

Section Dicts.

Context {V : Type}.
Implicit Types (d : dict V) (k : pystr) (v : V).

Lemma dict_get_set_eq d k v : dict_get (dict_set d k v) k = Some v.
Proof.
  induction d as [|[k' v'] d IH]; simpl.
  - now rewrite bool_decide_eq_true_2.
  - destruct (bool_decide (k' = k)) eqn:E; simpl; rewrite E; auto.
Qed.

Lemma dict_get_set_ne d k k' v :
  k <> k' -> dict_get (dict_set d k v) k' = dict_get d k'.
Proof.
  intros Hne. induction d as [|[k0 v0] d IH]; simpl.
  - now rewrite bool_decide_eq_false_2.
  - destruct (bool_decide (k0 = k)) eqn:E; simpl.
    + apply bool_decide_eq_true in E. subst k0.
      now rewrite !bool_decide_eq_false_2.
    + now rewrite IH.
Qed.

Lemma dict_get_None d k : dict_get d k = None <-> ~ In k (dict_keys d).
Proof.
  induction d as [|[k' v'] d IH]; simpl; [tauto|].
  destruct (bool_decide (k' = k)) eqn:E.
  - apply bool_decide_eq_true in E. split; [discriminate|tauto].
  - apply bool_decide_eq_false in E. rewrite IH. tauto.
Qed.

Lemma dict_get_In d k v :
  NoDup (dict_keys d) -> (dict_get d k = Some v <-> In (k, v) d).
Proof.
  induction d as [|[k' v'] d IH]; simpl; intros Hnd.
  - split; [discriminate|tauto].
  - apply NoDup_cons in Hnd. destruct Hnd as [Hk' Hnd].
    destruct (bool_decide (k' = k)) eqn:E.
    + apply bool_decide_eq_true in E. subst k'. split.
      * intros [= ->]. now left.
      * intros [[= ->]|Hin]; [reflexivity|].
        exfalso. apply Hk'. apply list_elem_of_In.
        apply (in_map fst) in Hin. exact Hin.
    + apply bool_decide_eq_false in E. rewrite (IH Hnd). split; [tauto|].
      intros [[= -> ->]|Hin]; [contradiction|exact Hin].
Qed.

Lemma dict_keys_set_present d k v :
  In k (dict_keys d) -> dict_keys (dict_set d k v) = dict_keys d.
Proof.
  induction d as [|[k' v'] d IH]; simpl; [tauto|].
  destruct (bool_decide (k' = k)) eqn:E; simpl; [reflexivity|].
  apply bool_decide_eq_false in E. intros [H|H]; [contradiction|].
  now rewrite IH.
Qed.

Lemma dict_keys_set_absent d k v :
  ~ In k (dict_keys d) -> dict_keys (dict_set d k v) = dict_keys d ++ [k].
Proof.
  induction d as [|[k' v'] d IH]; simpl; intros Hk; [reflexivity|].
  rewrite bool_decide_eq_false_2 by tauto. simpl. f_equal. apply IH. tauto.
Qed.

Lemma dict_keys_set_In d k v k' :
  In k' (dict_keys (dict_set d k v)) <-> In k' (dict_keys d) \/ k' = k.
Proof.
  destruct (decide (k ∈ dict_keys d)) as [E|E]; rewrite list_elem_of_In in E.
  - rewrite dict_keys_set_present by exact E. split; [tauto|].
    intros [H| ->]; auto.
  - rewrite dict_keys_set_absent by exact E. rewrite in_app_iff. simpl.
    intuition congruence.
Qed.

Lemma dict_set_NoDup d k v :
  NoDup (dict_keys d) -> NoDup (dict_keys (dict_set d k v)).
Proof.
  intros Hnd.
  destruct (decide (k ∈ dict_keys d)) as [E|E]; rewrite list_elem_of_In in E.
  - now rewrite dict_keys_set_present.
  - rewrite dict_keys_set_absent by exact E. apply NoDup_app. repeat split.
    + exact Hnd.
    + intros x Hx Hx'. apply list_elem_of_In in Hx.
      apply list_elem_of_singleton in Hx'. subst. contradiction.
    + apply NoDup_singleton.
Qed.

(** Setting a key that is absent appends the pair. *)
Lemma dict_set_fresh d k v :
  ~ In k (dict_keys d) -> dict_set d k v = d ++ [(k, v)].
Proof.
  induction d as [|[k' v'] d IH]; simpl; intros Hk; [reflexivity|].
  rewrite bool_decide_eq_false_2 by tauto. f_equal. apply IH. tauto.
Qed.

End Dicts.

(** ** Splitting a URL *)

Section UrlSplitting.

Import Auth Urllib.

Lemma split_at_first (s : pystr) :
  split 63 s
  = match Spec.split_at_first_question_mark s with
    | (base, None) => [base]
    | (base, Some query) => base :: split 63 query
    end.
Proof.
  induction s as [|c s IH]; [reflexivity|].
  cbn [split Spec.split_at_first_question_mark].
  destruct (c =? 63); [reflexivity|].
  rewrite IH. destruct (Spec.split_at_first_question_mark s) as [base [query|]];
    reflexivity.
Qed.

Lemma split_hd (s : pystr) :
  List.hd [] (split 63 s) = fst (Spec.split_at_first_question_mark s).
Proof.
  rewrite split_at_first.
  now destruct (Spec.split_at_first_question_mark s) as [base [query|]].
Qed.

Lemma split_at_first_no_mark (s : pystr) :
  contains 63 s = false -> Spec.split_at_first_question_mark s = (s, None).
Proof.
  unfold contains. induction s as [|c s IH]; [reflexivity|].
  cbn [existsb Spec.split_at_first_question_mark]. rewrite N.eqb_sym.
  destruct (c =? 63); [discriminate|]. cbn [orb]. intros H.
  now rewrite (IH H).
Qed.

(** [parse_url_parameters] in closed form: the base URL is the text before
    the first question mark; the query that is parsed is the text between
    the first question mark and the second one, or the end. *)
Lemma parse_url_parameters_closed (url : pystr) :
  parse_url_parameters (PStr url)
  = match Spec.split_at_first_question_mark url with
    | (base_url, None) => Ok (base_url, None)
    | (base_url, Some query) =>
        bind (first_values
                (parse_qs (fst (Spec.split_at_first_question_mark query))))
             (fun parameters => Ok (base_url, Some parameters))
    end.
Proof.
  unfold parse_url_parameters. rewrite split_at_first.
  destruct (Spec.split_at_first_question_mark url) as [base [query|]];
    [|reflexivity].
  cbn [List.hd]. rewrite (split_at_first query).
  destruct (Spec.split_at_first_question_mark query) as [q [rest|]]; reflexivity.
Qed.

(** A URL without a question mark is its own base URL and has no
    parameters. *)
Lemma parse_url_parameters_no_mark (url : pystr) :
  contains 63 url = false ->
  parse_url_parameters (PStr url) = Ok (url, None).
Proof.
  intros H. rewrite parse_url_parameters_closed.
  now rewrite split_at_first_no_mark.
Qed.

(** With a single question mark the whole text after it is parsed. *)
Lemma parse_url_parameters_one_mark (url base_url query : pystr) :
  Spec.split_at_first_question_mark url = (base_url, Some query) ->
  contains 63 query = false ->
  parse_url_parameters (PStr url)
  = bind (first_values (parse_qs query))
         (fun parameters => Ok (base_url, Some parameters)).
Proof.
  intros Hs Hq. rewrite parse_url_parameters_closed, Hs.
  now rewrite split_at_first_no_mark.
Qed.

End UrlSplitting.

(** ** Repeated query parameters *)

Section FirstOccurrence.

Import Auth Urllib Closed.

Lemma heads_keys d : dict_keys (heads d) = dict_keys d.
Proof. unfold heads, dict_keys. rewrite List.map_map. reflexivity. Qed.

Lemma heads_get d k :
  dict_get (heads d) k = option_map (List.hd []) (dict_get d k).
Proof.
  induction d as [|[k' l] d IH]; [reflexivity|]. cbn.
  destruct (bool_decide (k' = k)); [reflexivity|exact IH].
Qed.

Lemma heads_set d k l :
  heads (dict_set d k l) = dict_set (heads d) k (List.hd [] l).
Proof.
  unfold heads in *. induction d as [|[k' l'] d IH]; [reflexivity|].
  cbn [dict_set List.map fst snd].
  destruct (bool_decide (k' = k)); cbn [List.map fst snd]; [reflexivity|].
  now rewrite IH.
Qed.

Lemma dict_set_same {V} (d : dict V) k v :
  dict_get d k = Some v -> dict_set d k v = d.
Proof.
  induction d as [|[k' v'] d IH]; [discriminate|]. cbn.
  destruct (bool_decide (k' = k)).
  - now intros [= ->].
  - intros H. now rewrite IH.
Qed.

Lemma nonempty_values_get d k l :
  nonempty_values d -> dict_get d k = Some l -> l <> [].
Proof.
  unfold nonempty_values. induction 1 as [|[k' l'] d Hl Hd IH]; [discriminate|].
  cbn. destruct (bool_decide (k' = k)); [now intros [= <-]|exact IH].
Qed.

Lemma nonempty_values_set d k l :
  nonempty_values d -> l <> [] -> nonempty_values (dict_set d k l).
Proof.
  unfold nonempty_values. intros Hd Hl.
  induction Hd as [|[k' l'] d Hl' Hd IH]; cbn.
  - now repeat constructor.
  - destruct (bool_decide (k' = k)); constructor; auto.
Qed.

Lemma parse_qs_add_heads d pair :
  nonempty_values d ->
  heads (parse_qs_add d pair) = add_first (heads d) pair
  /\ nonempty_values (parse_qs_add d pair).
Proof.
  intros Hd. destruct pair as [k v]. unfold parse_qs_add, add_first. cbn [fst snd].
  rewrite heads_get. destruct (dict_get d k) as [l|] eqn:Hg; cbn [option_map].
  - pose proof (nonempty_values_get d k l Hd Hg) as Hl. split.
    + rewrite heads_set. apply dict_set_same. rewrite heads_get, Hg.
      destruct l; [contradiction|reflexivity].
    + apply nonempty_values_set; [exact Hd|]. now destruct l.
  - split; [apply heads_set|]. now apply nonempty_values_set.
Qed.

Lemma parse_qs_fold_heads pairs d :
  nonempty_values d ->
  heads (List.fold_left parse_qs_add pairs d)
  = List.fold_left add_first pairs (heads d)
  /\ nonempty_values (List.fold_left parse_qs_add pairs d).
Proof.
  revert d. induction pairs as [|pair pairs IH]; intros d Hd; [now split|].
  cbn [List.fold_left]. destruct (parse_qs_add_heads d pair Hd) as [Hh Hn].
  rewrite <- Hh. now apply IH.
Qed.

Lemma parse_qs_fold_NoDup pairs d :
  NoDup (dict_keys d) -> NoDup (dict_keys (List.fold_left parse_qs_add pairs d)).
Proof.
  revert d. induction pairs as [|[k v] pairs IH]; intros d Hd; [exact Hd|].
  cbn [List.fold_left]. apply IH. unfold parse_qs_add.
  destruct (dict_get d k); now apply dict_set_NoDup.
Qed.

Lemma first_values_fold (l : dict (list pystr)) (acc : dict pystr) :
  nonempty_values l -> NoDup (dict_keys l) ->
  (forall k, In k (dict_keys l) -> ~ In k (dict_keys acc)) ->
  List.fold_left
    (fun (acc : result (dict pystr)) (item : pystr * list pystr) =>
       bind acc (fun parameters =>
         match snd item with
         | v :: _ => Ok (dict_set parameters (fst item) v)
         | [] => Raise IndexError
         end))
    l (Ok acc)
  = Ok (acc ++ heads l).
Proof.
  revert acc. induction l as [|[k vs] l IH]; intros acc Hne Hnd Hfresh.
  - cbn. now rewrite app_nil_r.
  - apply Forall_cons in Hne. destruct Hne as [Hvs Hne].
    cbn [dict_keys List.map fst] in Hnd. apply NoDup_cons in Hnd.
    destruct Hnd as [Hk Hnd]. cbn [List.fold_left bind snd fst].
    destruct vs as [|v vs]; [now contradiction Hvs|].
    rewrite dict_set_fresh by (apply Hfresh; now left).
    rewrite IH; [cbn; now rewrite <- app_assoc|exact Hne|exact Hnd|].
    intros k' Hk'. unfold dict_keys. rewrite List.map_app, in_app_iff. cbn.
    intros [H|[H|[]]].
    + apply (Hfresh k'); [now right|exact H].
    + subst k'. apply Hk. now apply list_elem_of_In.
Qed.

(** Of a repeated name the first value is kept, and the call never
    raises. *)
Lemma first_values_parse_qs (qs : pystr) :
  first_values (parse_qs qs) = Ok (first_occurrences (parse_qsl qs)).
Proof.
  unfold first_values, parse_qs, first_occurrences.
  destruct (parse_qs_fold_heads (parse_qsl qs) []) as [Hh Hne]; [constructor|].
  rewrite (first_values_fold _ []).
  - cbn [app]. now rewrite Hh.
  - exact Hne.
  - apply parse_qs_fold_NoDup. constructor.
  - intros k _ [].
Qed.

End FirstOccurrence.

Section UrlParsingClaim.

Import Auth Urllib.

(** C6 (a second question mark). [parse_url_parameters] splits at every
    question mark and parses only the piece after the first one: for
    [https://x.test/a?b=1?c=2] it returns the parameters [{b: "1"}], where
    the query string after the first question mark is [b=1?c=2], which
    parses to [{b: "1?c=2"}]. The two examples of the claim hold. *)
Theorem C6_second_question_mark_cuts_query :
  parse_url_parameters (PStr Fixture.url_two_marks)
  = Ok (str "https://x.test/a", Some [(str "b", str "1")])
  /\ Spec.split_at_first_question_mark Fixture.url_two_marks
     = (str "https://x.test/a", Some (str "b=1?c=2"))
  /\ first_values (parse_qs (str "b=1?c=2")) = Ok [(str "b", str "1?c=2")]
  /\ parse_url_parameters (PStr (str "https://x.test/a?b=1&c=2"))
     = Ok (str "https://x.test/a", Some [(str "b", str "1"); (str "c", str "2")])
  /\ parse_url_parameters (PStr (str "https://x.test/a"))
     = Ok (str "https://x.test/a", None).
Proof.
  split; [|split; [|split; [|split]]]; vm_compute; reflexivity.
Qed.

End UrlParsingClaim.

(** ** Parameter normalization *)

Section Normalization.

Import Auth.

Lemma protocol_parameters_keys (a : NetsuiteOAuth) :
  dict_keys (protocol_parameters a)
  = [str "oauth_consumer_key"; str "oauth_token"; str "oauth_signature_method";
     str "oauth_timestamp"; str "oauth_nonce"; str "oauth_version"].
Proof. reflexivity. Qed.

Lemma protocol_parameters_NoDup (a : NetsuiteOAuth) :
  NoDup (dict_keys (protocol_parameters a)).
Proof.
  rewrite protocol_parameters_keys. apply (bool_decide_unpack _).
  vm_compute. exact I.
Qed.

Lemma add_query_parameters_set_all (d : dict value) (q : option (dict pystr)) :
  add_query_parameters d q
  = Closed.set_all d (match q with Some q => q | None => [] end).
Proof. destruct q as [[|kv q]|]; reflexivity. Qed.

Lemma set_all_NoDup (q : dict pystr) (d : dict value) :
  NoDup (dict_keys d) -> NoDup (dict_keys (Closed.set_all d q)).
Proof.
  revert d. induction q as [|[k v] q IH]; simpl; intros d Hd; [exact Hd|].
  apply IH. now apply dict_set_NoDup.
Qed.

Lemma set_all_keys (q : dict pystr) (d : dict value) (k : pystr) :
  In k (dict_keys (Closed.set_all d q)) <-> In k (dict_keys d) \/ In k (dict_keys q).
Proof.
  revert d. induction q as [|[k' v] q IH]; simpl; intros d; [tauto|].
  rewrite IH, dict_keys_set_In. intuition congruence.
Qed.

(** A name that the query does not carry keeps the value it had. *)
Lemma set_all_get_absent (q : dict pystr) (d : dict value) (k : pystr) :
  ~ In k (dict_keys q) -> dict_get (Closed.set_all d q) k = dict_get d k.
Proof.
  revert d. induction q as [|[k' v] q IH]; simpl; intros d Hk; [reflexivity|].
  rewrite IH by tauto. apply dict_get_set_ne. intros ->. tauto.
Qed.

(** A name that the query carries has the query's value. *)
Lemma set_all_get_present (q : dict pystr) (d : dict value) (k v : pystr) :
  NoDup (dict_keys q) -> In (k, v) q ->
  dict_get (Closed.set_all d q) k = Some (VStr v).
Proof.
  revert d. induction q as [|[k' v'] q IH]; simpl; intros d Hnd Hin; [tauto|].
  apply NoDup_cons in Hnd. destruct Hnd as [Hk' Hnd].
  destruct Hin as [[= -> ->]|Hin].
  - rewrite set_all_get_absent.
    + apply dict_get_set_eq.
    + intros H. apply Hk'. now apply list_elem_of_In.
  - now apply IH.
Qed.

Lemma sort_fold (rp : dict value) (ks : list pystr) (acc : dict value) :
  NoDup ks ->
  (forall k, In k ks -> ~ In k (dict_keys acc)) ->
  (forall k, In k ks -> In k (dict_keys rp)) ->
  List.fold_left
    (fun (acc : result (dict value)) (key : pystr) =>
       bind acc (fun sorted_encoded_params =>
         match dict_get rp key with
         | Some v => Ok (dict_set sorted_encoded_params key v)
         | None => Raise KeyError
         end))
    ks (Ok acc)
  = Ok (acc ++ List.map (fun key => (key, match dict_get rp key with
                                          | Some v => v
                                          | None => VNone
                                          end)) ks).
Proof.
  revert acc. induction ks as [|k ks IH]; intros acc Hnd Hfresh Hin; simpl.
  - now rewrite app_nil_r.
  - apply NoDup_cons in Hnd. destruct Hnd as [Hk Hnd].
    destruct (dict_get rp k) as [v|] eqn:Hget.
    + rewrite dict_set_fresh by (apply Hfresh; now left).
      rewrite IH; [now rewrite <- app_assoc | exact Hnd | | ].
      * intros k' Hk'. unfold dict_keys. rewrite List.map_app, in_app_iff. simpl.
        intros [H|[H|[]]].
        -- apply (Hfresh k'); [now right|exact H].
        -- subst k'. apply Hk. now apply list_elem_of_In.
      * intros k' Hk'. apply Hin. now right.
    + exfalso. apply dict_get_None in Hget. apply Hget, Hin. now left.
Qed.

(** Sorting never raises: every sorted name is a key of the dictionary. *)
Lemma sort_by_name_entries (rp : dict value) :
  NoDup (dict_keys rp) -> sort_by_name rp = Ok (Closed.entries rp).
Proof.
  intros Hnd. unfold sort_by_name, Closed.entries.
  apply (sort_fold rp (sorted (dict_keys rp)) []).
  - rewrite sorted_Permutation. exact Hnd.
  - intros k _ [].
  - intros k Hk. apply list_elem_of_In. apply list_elem_of_In in Hk.
    now rewrite sorted_Permutation in Hk.
Qed.

Lemma compile_param_string_concat (es : dict value) (acc : pystr) :
  List.fold_left
    (fun (param_string : pystr) (kv : pystr * value) =>
       param_string ++ fst kv ++ [61] ++ format_value (snd kv) ++ [38])
    es acc
  = acc ++ List.concat (List.map (fun kv => Closed.name_value kv ++ [38]) es).
Proof.
  revert acc. induction es as [|kv es IH]; intros acc;
    cbn [List.fold_left List.map List.concat].
  - now rewrite app_nil_r.
  - rewrite IH. unfold Closed.name_value. rewrite <- !app_assoc. reflexivity.
Qed.

(** Dropping the last ampersand leaves the entries joined by ampersands. *)
Lemma compile_param_string_join (es : dict value) :
  drop_last (compile_param_string es)
  = join [38] (List.map Closed.name_value es).
Proof.
  unfold compile_param_string, drop_last.
  rewrite (compile_param_string_concat es []). cbn [app].
  induction es as [|kv es IH]; [reflexivity|].
  cbn [List.map List.concat]. destruct es as [|kv' es].
  - cbn [List.map List.concat join]. rewrite app_nil_r.
    rewrite removelast_app by discriminate. cbn. now rewrite app_nil_r.
  - rewrite removelast_app.
    + rewrite IH. cbn [List.map join]. now rewrite <- app_assoc.
    + cbn [List.map List.concat]. unfold Closed.name_value.
      destruct (fst kv'); discriminate.
Qed.

(** [normalize_request_parameters] in closed form. *)
Lemma normalize_request_parameters_closed (q : option (dict pystr))
  (a : NetsuiteOAuth) :
  normalize_request_parameters q a
  = match encode_oauth
            (join [38] (List.map Closed.name_value
                          (Closed.entries
                             (add_query_parameters (protocol_parameters a) q)))) with
    | Ok s => (Ok tt, set_normalized_request_parameters (VStr s) a)
    | Raise e => (Raise e, a)
    end.
Proof.
  unfold normalize_request_parameters, mbind, read, lift, assign.
  rewrite sort_by_name_entries.
  - rewrite compile_param_string_join. now destruct (encode_oauth _).
  - rewrite add_query_parameters_set_all. apply set_all_NoDup.
    apply protocol_parameters_NoDup.
Qed.

(** The entries do not depend on the order in which the query parameters
    are supplied. *)
Lemma entries_Permutation (d : dict value) (q1 q2 : dict pystr) :
  NoDup (dict_keys d) -> NoDup (dict_keys q1) -> q1 ≡ₚ q2 ->
  Closed.entries (Closed.set_all d q1) = Closed.entries (Closed.set_all d q2).
Proof.
  intros Hd Hq1 Hperm.
  assert (Hq2 : NoDup (dict_keys q2)).
  { unfold dict_keys. rewrite <- Hperm. exact Hq1. }
  assert (Hkeys : forall k, In k (dict_keys q1) <-> In k (dict_keys q2)).
  { intros k. unfold dict_keys. rewrite <- !list_elem_of_In. now rewrite Hperm. }
  assert (Hget : forall k, dict_get (Closed.set_all d q1) k = dict_get (Closed.set_all d q2) k).
  { intros k. destruct (decide (k ∈ dict_keys q1)) as [E|E];
      rewrite list_elem_of_In in E.
    - apply in_map_iff in E. destruct E as ([k' v] & Hk & Hin). simpl in Hk. subst k'.
      rewrite (set_all_get_present q1 d k v Hq1 Hin).
      symmetry. apply set_all_get_present; [exact Hq2|].
      apply list_elem_of_In. rewrite <- Hperm. now apply list_elem_of_In.
    - rewrite !set_all_get_absent; [reflexivity| |exact E].
      now rewrite <- Hkeys. }
  unfold Closed.entries. rewrite (sorted_unique _ (dict_keys (Closed.set_all d q2))).
  - apply List.map_ext. intros k. now rewrite Hget.
  - apply NoDup_Permutation; try now apply set_all_NoDup.
    intros k. rewrite !list_elem_of_In, !set_all_keys, Hkeys. reflexivity.
Qed.

End Normalization.

Section NormalizationClaim.

Import Auth.

Lemma entries_keys (rp : dict value) :
  dict_keys (Closed.entries rp) = sorted (dict_keys rp).
Proof.
  unfold Closed.entries, dict_keys. rewrite List.map_map. simpl.
  apply List.map_id.
Qed.

Lemma entries_In (rp : dict value) (k : pystr) (v : value) :
  In (k, v) (Closed.entries rp) <-> dict_get rp k = Some v.
Proof.
  unfold Closed.entries. rewrite in_map_iff. split.
  - intros (k' & [= -> Hv] & Hin).
    apply list_elem_of_In in Hin. rewrite sorted_Permutation in Hin.
    apply list_elem_of_In in Hin.
    destruct (dict_get rp k) as [v'|] eqn:E; [now subst|].
    apply dict_get_None in E. contradiction.
  - intros Hget. exists k. rewrite Hget. split; [reflexivity|].
    apply list_elem_of_In. rewrite sorted_Permutation. apply list_elem_of_In.
    destruct (decide (k ∈ dict_keys rp)) as [E|E]; rewrite list_elem_of_In in E;
      [exact E|].
    apply dict_get_None in E. congruence.
Qed.

Lemma set_all_get (q : dict pystr) (d : dict value) (k : pystr) (v : value) :
  NoDup (dict_keys q) ->
  dict_get (Closed.set_all d q) k = Some v
  <-> (exists s, In (k, s) q /\ v = VStr s)
      \/ (~ In k (dict_keys q) /\ dict_get d k = Some v).
Proof.
  intros Hq. destruct (decide (k ∈ dict_keys q)) as [E|E];
    rewrite list_elem_of_In in E.
  - pose proof E as E'. apply in_map_iff in E'.
    destruct E' as ([k' s] & Hk & Hin). simpl in Hk. subst k'.
    rewrite (set_all_get_present q d k s Hq Hin). split.
    + intros [= <-]. left. now exists s.
    + intros [(s' & Hin' & ->)|[Hn _]]; [|contradiction].
      f_equal. f_equal.
      assert (Hq' : NoDup (dict_keys q)) by exact Hq.
      apply (dict_get_In q k s) in Hq. apply (dict_get_In q k s') in Hq'.
      apply Hq in Hin. apply Hq' in Hin'. congruence.
  - rewrite set_all_get_absent by exact E. split.
    + intros H. now right.
    + intros [(s & Hin & _)|[_ H]]; [|exact H].
      exfalso. apply E. apply in_map_iff. now exists (k, s).
Qed.

Lemma sorted_strictly (keys : list pystr) :
  NoDup keys -> StronglySorted str_lt (sorted keys).
Proof.
  intros Hnd.
  assert (Hnd' : NoDup (sorted keys)) by now rewrite sorted_Permutation.
  pose proof (StronglySorted_merge_sort str_le keys) as Hs.
  fold (sorted keys) in Hs. induction Hs as [|x l Hl IH Hx].
  - constructor.
  - apply NoDup_cons in Hnd'. destruct Hnd' as [Hx' Hnd'].
    constructor; [now apply IH|].
    rewrite Forall_forall in *. intros y Hy. split; [now apply Hx|].
    intros ->. contradiction.
Qed.

(** What normalization does: it does not depend on the order in which the
    query parameters are supplied. Its entries are the URL query parameters
    together with the oauth protocol parameters whose names the query does
    not carry; the signer adds no [oauth_signature] entry, so there is none
    when the query has none; the names are in strictly ascending order of
    their characters, which is the strictly ascending order of the byte
    values of their UTF-8 octets; the entries are joined as [name=value]
    with [&] and the joined string goes through [encode_oauth] once. *)
Lemma normalize_request_parameters_entries (a : NetsuiteOAuth) (q1 q2 : dict pystr) :
  NoDup (dict_keys q1) -> q1 ≡ₚ q2 ->
  normalize_request_parameters (Some q1) a
  = normalize_request_parameters (Some q2) a
  /\ exists entries : dict value,
       (forall k v, In (k, v) entries <->
          (exists s, In (k, s) q1 /\ v = VStr s)
          \/ (~ In k (dict_keys q1) /\ In (k, v) (protocol_parameters a)))
       /\ (~ In (str "oauth_signature") (dict_keys q1) ->
           ~ In (str "oauth_signature") (dict_keys entries))
       /\ StronglySorted str_lt (dict_keys entries)
       /\ (forall octets,
             Closed.encode_names (dict_keys entries) = Some octets ->
             StronglySorted str_lt octets)
       /\ normalize_request_parameters (Some q1) a
          = match encode_oauth (join [38] (List.map Closed.name_value entries)) with
            | Ok s => (Ok tt, set_normalized_request_parameters (VStr s) a)
            | Raise e => (Raise e, a)
            end.
Proof.
  intros Hq1 Hperm.
  pose proof (protocol_parameters_NoDup a) as HP.
  rewrite !normalize_request_parameters_closed, !add_query_parameters_set_all.
  rewrite (entries_Permutation _ q1 q2 HP Hq1 Hperm). split; [reflexivity|].
  rewrite <- (entries_Permutation _ q1 q2 HP Hq1 Hperm).
  exists (Closed.entries (Closed.set_all (protocol_parameters a) q1)).
  assert (Hin : forall k v,
    In (k, v) (Closed.entries (Closed.set_all (protocol_parameters a) q1)) <->
    (exists s, In (k, s) q1 /\ v = VStr s)
    \/ (~ In k (dict_keys q1) /\ In (k, v) (protocol_parameters a))).
  { intros k v. rewrite entries_In, (set_all_get q1 _ k v Hq1).
    now rewrite (dict_get_In (protocol_parameters a) k v HP). }
  repeat split.
  - apply Hin.
  - apply Hin.
  - intros Hno Hsig. apply in_map_iff in Hsig.
    destruct Hsig as ([k v] & Hk & Hkv). simpl in Hk. subst k.
    apply Hin in Hkv. destruct Hkv as [(s & Hs & _)|[_ Hp]].
    + apply Hno. apply in_map_iff. now exists (str "oauth_signature", s).
    + apply (in_map fst) in Hp. fold (dict_keys (protocol_parameters a)) in Hp.
      rewrite protocol_parameters_keys in Hp. simpl in Hp.
      repeat (destruct Hp as [Hp|Hp]; [vm_compute in Hp; discriminate|]).
      exact Hp.
  - rewrite entries_keys. apply sorted_strictly. now apply set_all_NoDup.
  - intros octets. apply sorted_octets.
    rewrite entries_keys. apply sorted_strictly. now apply set_all_NoDup.
Qed.

(** The two orders of the parameters [b=1] and [c=2] give the same
    string. *)
Lemma normalize_request_parameters_entries_example :
  NoDup (dict_keys Fixture.query_bc)
  /\ Fixture.query_bc ≡ₚ Fixture.query_cb
  /\ normalize_request_parameters (Some Fixture.query_bc) Fixture.stamped_signer
     = normalize_request_parameters (Some Fixture.query_cb) Fixture.stamped_signer.
Proof.
  assert (H1 : NoDup (dict_keys Fixture.query_bc))
    by (apply (bool_decide_unpack _); vm_compute; exact I).
  assert (H2 : Fixture.query_bc ≡ₚ Fixture.query_cb)
    by (apply (bool_decide_unpack _); vm_compute; exact I).
  split; [exact H1|]. split; [exact H2|].
  exact (proj1 (normalize_request_parameters_entries
                  Fixture.stamped_signer _ _ H1 H2)).
Defined.

(** C4 (code bug). The docstring of [normalize_request_parameters] quotes
    RFC 5849, section 3.4.1.3.1: the [oauth_signature] parameter must be
    excluded from the signature base string if present. The code copies
    every query parameter into the parameters it signs. For the URL
    [https://x.test/a?oauth_signature=abc&oauth_version=2.0] the
    normalized string has the entry [oauth_signature=abc], and so has the
    base string that is signed; the query's [oauth_version=2.0] has
    replaced the protocol's [oauth_version=1.0], so the entries are not
    the six protocol parameters together with the query parameters. And
    the one encoding pass is not the percent-encoding: a space in a query
    value becomes a plus sign. *)
Theorem C4_query_oauth_signature_is_signed :
  let normalized :=
    str "oauth_consumer_key%3Dck%26oauth_nonce%3D0000000000000000000000000000000500000000000000000000000000000007%26oauth_signature%3Dabc%26oauth_signature_method%3DHMAC-SHA256%26oauth_timestamp%3D1700000000%26oauth_token%3Dtk%26oauth_version%3D2.0" in
  parse_url_parameters (PStr Fixture.url_oauth)
  = Ok (str "https://x.test/a", Some Fixture.query_oauth)
  /\ normalize_request_parameters (Some Fixture.query_oauth) Fixture.stamped_signer
     = (Ok tt, set_normalized_request_parameters (VStr normalized) Fixture.stamped_signer)
  /\ contains_str (str "oauth_signature%3Dabc") normalized = true
  /\ contains_str (str "oauth_version%3D1.0") normalized = false
  /\ base_string (snd (generate_base_string Fixture.entropy0 (str "GET")
                         (PStr Fixture.url_oauth) Fixture.signer))
     = VStr (str "GET&https%3A%2F%2Fx.test%2Fa&" ++ normalized)
  /\ normalized_request_parameters
       (snd (normalize_request_parameters (Some [(str "q", str "a b")])
               Fixture.stamped_signer))
     = VStr (str "oauth_consumer_key%3Dck%26oauth_nonce%3D0000000000000000000000000000000500000000000000000000000000000007%26oauth_signature_method%3DHMAC-SHA256%26oauth_timestamp%3D1700000000%26oauth_token%3Dtk%26oauth_version%3D1.0%26q%3Da+b").
Proof. cbv zeta. repeat split; vm_compute; reflexivity. Qed.

End NormalizationClaim.

(** ** The signer: what a signing call changes *)

Section SignerFrame.

Import Auth Frame.

Lemma same_configuration_refl a : same_configuration a a.
Proof. repeat split. Qed.

Lemma same_configuration_trans a b c :
  same_configuration a b -> same_configuration b c -> same_configuration a c.
Proof.
  unfold same_configuration. intros. intuition congruence.
Qed.

Lemma keeps_ret {A} (x : A) : keeps_configuration (ret x).
Proof. intros a. apply same_configuration_refl. Qed.

Lemma keeps_raise {A} (e : exn) : keeps_configuration (@raise A e).
Proof. intros a. apply same_configuration_refl. Qed.

Lemma keeps_lift {A} (r : result A) : keeps_configuration (lift r).
Proof. intros a. apply same_configuration_refl. Qed.

Lemma keeps_read {A} (f : NetsuiteOAuth -> A) : keeps_configuration (read f).
Proof. intros a. apply same_configuration_refl. Qed.

Lemma keeps_mbind {A B} (m : M A) (k : A -> M B) :
  keeps_configuration m -> (forall x, keeps_configuration (k x)) ->
  keeps_configuration (mbind m k).
Proof.
  intros Hm Hk a. unfold mbind. specialize (Hm a).
  destruct (m a) as [[x|e] a']; simpl in *; [|exact Hm].
  eapply same_configuration_trans; [apply Hk|exact Hm].
Qed.

Lemma keeps_reraise {A} (m : M A) :
  keeps_configuration m -> keeps_configuration (reraise_KeyError m).
Proof.
  intros Hm a. unfold reraise_KeyError. specialize (Hm a).
  destruct (m a) as [[x|[]] a']; exact Hm.
Qed.

Lemma keeps_set_nonce v : keeps_configuration (assign (set_nonce v)).
Proof. intros a. repeat split. Qed.
Lemma keeps_set_timestamp v : keeps_configuration (assign (set_timestamp v)).
Proof. intros a. repeat split. Qed.
Lemma keeps_set_signature v : keeps_configuration (assign (set_signature v)).
Proof. intros a. repeat split. Qed.
Lemma keeps_set_normalized v :
  keeps_configuration (assign (set_normalized_request_parameters v)).
Proof. intros a. repeat split. Qed.
Lemma keeps_set_headers v : keeps_configuration (assign (set_headers v)).
Proof. intros a. repeat split. Qed.
Lemma keeps_set_base_string v : keeps_configuration (assign (set_base_string v)).
Proof. intros a. repeat split. Qed.
Lemma keeps_set_oauth_string v : keeps_configuration (assign (set_oauth_string v)).
Proof. intros a. repeat split. Qed.

Create HintDb keeps discriminated.
#[local] Hint Resolve keeps_ret keeps_raise keeps_lift keeps_read
  keeps_set_nonce keeps_set_timestamp keeps_set_signature keeps_set_normalized
  keeps_set_headers keeps_set_base_string keeps_set_oauth_string : keeps.

Ltac keeps :=
  repeat first
    [ apply keeps_mbind; [|intros ?]
    | apply keeps_reraise
    | solve [auto with keeps] ].

Lemma keeps_generate_nonce e : keeps_configuration (generate_nonce e).
Proof. unfold generate_nonce. keeps. Qed.

Lemma keeps_generate_timestamp e : keeps_configuration (generate_timestamp e).
Proof. unfold generate_timestamp. keeps. Qed.

Lemma keeps_normalize q : keeps_configuration (normalize_request_parameters q).
Proof. unfold normalize_request_parameters. keeps. Qed.

#[local] Hint Resolve keeps_generate_nonce keeps_generate_timestamp
  keeps_normalize : keeps.

Lemma keeps_generate_base_string e m u :
  keeps_configuration (generate_base_string e m u).
Proof. unfold generate_base_string. keeps. Qed.

Lemma keeps_generate_signature : keeps_configuration generate_signature.
Proof. unfold generate_signature. keeps. Qed.

#[local] Hint Resolve keeps_generate_base_string keeps_generate_signature : keeps.

Lemma keeps_generate_auth_header e m u :
  keeps_configuration (generate_auth_header e m u).
Proof. unfold generate_auth_header. keeps. Qed.

End SignerFrame.

(** ** The signer: what a signing call depends on *)

Section SignerContext.

Import Auth Frame.

Lemma agree_same_configuration n a b : agree n a b -> same_configuration a b.
Proof. intros H. apply H. Qed.

Lemma agree_all a b : agree 7 a b -> a = b.
Proof.
  destruct a, b. unfold agree, same_configuration. simpl.
  intros ((-> & -> & -> & -> & -> & -> & ->) & Hn & Ht & Hp & Hb & Hs & Ho & Hh).
  rewrite Hn, Ht, Hp, Hb, Hs, Ho, Hh by lia. reflexivity.
Qed.

Lemma related_mbind {A B} n n' n'' (m : M A) (k : A -> M B) :
  related n n' m -> (forall x, related n' n'' (k x)) ->
  related n n'' (mbind m k).
Proof.
  intros Hm Hk a b Hab. destruct (Hm a b Hab) as [E Hs]. unfold mbind.
  destruct (m a) as [[x|e] a'], (m b) as [[y|e'] b']; simpl in *;
    try discriminate.
  - injection E as <-. apply Hk. now apply (Hs x).
  - injection E as <-. split; [reflexivity|discriminate].
Qed.

Lemma related_ret {A} n (x : A) : related n n (ret x).
Proof. intros a b H. split; [reflexivity|]. intros _ _. exact H. Qed.

Lemma related_lift {A} n (r : result A) : related n n (lift r).
Proof. intros a b H. split; [reflexivity|]. intros _ _. exact H. Qed.

Lemma related_read {A} n (f : NetsuiteOAuth -> A) :
  (forall a b, agree n a b -> f a = f b) -> related n n (read f).
Proof.
  intros Hf a b H. unfold read. simpl. split; [now rewrite (Hf a b H)|].
  intros _ _. exact H.
Qed.

Lemma related_assign n n' (update : NetsuiteOAuth -> NetsuiteOAuth) :
  (forall a b, agree n a b -> agree n' (update a) (update b)) ->
  related n n' (assign update).
Proof. intros Hu a b H. split; [reflexivity|]. intros _ _. now apply Hu. Qed.

Lemma related_reraise {A} n n' (m : M A) :
  related n n' m -> related n n' (reraise_KeyError m).
Proof.
  intros Hm a b Hab. destruct (Hm a b Hab) as [E Hs]. unfold reraise_KeyError.
  destruct (m a) as [[x|e] a'], (m b) as [[y|e'] b']; simpl in *;
    try discriminate.
  - split; [exact E|]. intros z Hz. now apply (Hs z).
  - injection E as <-. split; [now destruct e|]. destruct e; discriminate.
Qed.

Ltac agree_fields :=
  let H := fresh in
  intros ? ? H; unfold agree, same_configuration in *; simpl;
  repeat match goal with H : _ /\ _ |- _ => destruct H end;
  repeat split; intros; try congruence;
  repeat match goal with
  | H : (_ <= _)%nat -> _ |- _ => first [rewrite H by lia | clear H]
  end; try congruence; try lia.

Lemma related_generate_nonce e : related 0 1 (generate_nonce e).
Proof. apply related_assign. agree_fields. Qed.

Lemma related_generate_timestamp e : related 1 2 (generate_timestamp e).
Proof. apply related_assign. agree_fields. Qed.

Lemma agree_protocol_parameters a b :
  agree 2 a b -> protocol_parameters a = protocol_parameters b.
Proof.
  unfold agree, same_configuration, protocol_parameters.
  intros ((_ & -> & _ & -> & _ & -> & _) & Hn & Ht & _).
  now rewrite Hn, Ht by lia.
Qed.

Lemma related_normalize q : related 2 3 (normalize_request_parameters q).
Proof.
  unfold normalize_request_parameters.
  eapply related_mbind; [apply related_read, agree_protocol_parameters|intros ?].
  eapply related_mbind; [apply related_lift|intros ?].
  eapply related_mbind; [apply related_lift|intros ?].
  apply related_assign. agree_fields.
Qed.

Lemma related_generate_base_string e m u :
  related 0 4 (generate_base_string e m u).
Proof.
  unfold generate_base_string.
  eapply related_mbind; [apply related_generate_nonce|intros ?].
  eapply related_mbind; [apply related_generate_timestamp|intros ?].
  eapply related_mbind; [apply related_lift|intros ?].
  eapply related_mbind; [apply related_reraise, related_normalize|intros ?].
  eapply related_mbind; [apply related_lift|intros ?].
  eapply related_mbind; [apply related_read; agree_fields|intros ?].
  apply related_assign. agree_fields.
Qed.

Lemma related_generate_signature : related 4 5 generate_signature.
Proof.
  unfold generate_signature.
  eapply related_mbind; [apply related_read; agree_fields|intros ?].
  eapply related_mbind; [apply related_read; agree_fields|intros ?].
  eapply related_mbind; [apply related_read; agree_fields|intros ?].
  eapply related_mbind; [apply related_lift|intros ?].
  eapply related_mbind; [apply related_lift|intros ?].
  eapply related_mbind; [apply related_lift|intros ?].
  apply related_assign. agree_fields.
Qed.

Lemma related_generate_auth_header e m u :
  related 0 7 (generate_auth_header e m u).
Proof.
  unfold generate_auth_header.
  eapply related_mbind; [apply related_generate_base_string|intros ?].
  eapply related_mbind; [apply related_generate_signature|intros ?].
  do 6 (eapply related_mbind; [apply related_read; agree_fields|intros ?];
        eapply related_mbind; [apply related_lift|intros ?]).
  eapply related_mbind; [apply (related_assign 5 6); agree_fields|intros ?].
  eapply related_mbind; [apply (related_assign 6 7); agree_fields|intros ?].
  apply related_ret.
Qed.

(** The outcome of a signing call is decided by the configuration, the
    method, the URL and what the call draws; when the call returns, so is
    every attribute of the instance afterwards. *)
Lemma generate_auth_header_configuration e m u a b :
  same_configuration a b ->
  fst (generate_auth_header e m u a) = fst (generate_auth_header e m u b)
  /\ (forall h, fst (generate_auth_header e m u a) = Ok h ->
      snd (generate_auth_header e m u a) = snd (generate_auth_header e m u b)).
Proof.
  intros H.
  assert (H0 : agree 0 a b).
  { split; [exact H|]. repeat split; intros; lia. }
  destruct (related_generate_auth_header e m u a b H0) as [E Hs].
  split; [exact E|]. intros h Hh. apply agree_all. now apply (Hs h).
Qed.

End SignerContext.

Section SignerClaims.

Import Auth Frame Hashlib.





Lemma b64char_plain (n : N) : b64char n < 128 /\ b64char n <> 32.
Proof.
  unfold b64char.
  destruct (N.ltb_spec n 26); [lia|].
  destruct (N.ltb_spec n 52); [lia|].
  destruct (N.ltb_spec n 62); [lia|].
  destruct (n =? 62); lia.
Qed.

(** Base64 text is ASCII and has no space. *)
Lemma b64encode_plain (bs : pybytes) :
  Forall (fun c => c < 128 /\ c <> 32) (b64encode bs).
Proof.
  remember (List.length bs) as n eqn:Hn. revert bs Hn.
  induction n as [n IH] using lt_wf_ind.
  intros [|b0 [|b1 [|b2 rest]]] Hn; cbn [b64encode].
  - constructor.
  - repeat constructor; try apply b64char_plain; lia.
  - repeat constructor; try apply b64char_plain; lia.
  - apply Forall_app. split.
    + repeat constructor; apply b64char_plain.
    + apply (IH (List.length rest)); [simpl in Hn; lia|reflexivity].
Qed.

Lemma utf8_encode_ascii (s : pystr) :
  Forall (fun c => c < 128) s -> utf8_encode s = Some s.
Proof.
  induction 1 as [|c s Hc Hs IH]; [reflexivity|].
  cbn [utf8_encode]. rewrite IH. unfold utf8_encode_char.
  destruct (N.ltb_spec c 0x80); [reflexivity|lia].
Qed.

Lemma contains_space_plain (s : pystr) :
  Forall (fun c => c < 128 /\ c <> 32) s -> contains 32 s = false.
Proof.
  unfold contains. induction 1 as [|c s [_ Hc] Hs IH]; [reflexivity|].
  cbn [existsb]. rewrite IH. destruct (N.eqb_spec 32 c); [congruence|reflexivity].
Qed.

(** On ASCII text without a space, [encode_oauth] returns the percent
    encoding of the specification. *)
Lemma encode_oauth_plain (s : pystr) :
  Forall (fun c => c < 128 /\ c <> 32) s ->
  exists t, Spec.percent_encode s = Some t /\ encode_oauth s = Ok t.
Proof.
  intros H. rewrite encode_oauth_percent_encode by now apply contains_space_plain.
  unfold Spec.percent_encode. rewrite utf8_encode_ascii.
  - eexists. split; reflexivity.
  - eapply Forall_impl; [exact H|]. intros c [Hc _]. exact Hc.
Qed.



(** C8 (absent secrets and keys). A signer built without a token secret
    signs all the same: the call returns a header, the very header a token
    secret reading [None] gives. A signer built without a consumer key
    raises [TypeError] only when the header is put together, after the
    signature has been computed and stored. *)
Theorem C8_absent_token_secret_is_signed :
  (exists header,
     fst (generate_auth_header Fixture.entropy0 (str "GET") (PStr Fixture.url_bc)
            Fixture.signer_without_token_secret) = Ok header
     /\ fst (generate_auth_header Fixture.entropy0 (str "GET") (PStr Fixture.url_bc)
               Fixture.signer_with_token_secret_None) = Ok header
     /\ signature
          (snd (generate_auth_header Fixture.entropy0 (str "GET")
                  (PStr Fixture.url_bc) Fixture.signer_without_token_secret))
        = VStr (str "Pch3yPwkDzyKAKy4B9zLv7yAXIdVHu8vgEm7I4196So%3D"))
  /\ fst (generate_auth_header Fixture.entropy0 (str "GET") (PStr Fixture.url_bc)
            Fixture.signer_without_consumer_key) = Raise TypeError
  /\ signature
       (snd (generate_auth_header Fixture.entropy0 (str "GET") (PStr Fixture.url_bc)
               Fixture.signer_without_consumer_key))
     = VStr (str "pfjU4OVeQLaY3hre4c8e%2BH3s%2B%2BrgUZtDdeGp8iRQNPI%3D").
Proof.
  split; [|split; vm_compute; reflexivity].
  exists (match fst (generate_auth_header Fixture.entropy0 (str "GET")
                       (PStr Fixture.url_bc) Fixture.signer_without_token_secret) with
          | Ok header => header
          | Raise _ => []
          end).
  split; [|split]; vm_compute; reflexivity.
Qed.

End SignerClaims.

(** ** When a request can be signed *)

Section Encodable.

Import Auth Urllib Closed.

Ltac atoms :=
  repeat match goal with
  | |- context [?a / ?b] => let x := fresh "q" in set (x := a / b) in *; clearbody x
  | |- context [?a mod ?b] => let x := fresh "r" in set (x := a mod b) in *; clearbody x
  | H : context [?a / ?b] |- _ => let x := fresh "q" in set (x := a / b) in *; clearbody x
  | H : context [?a mod ?b] |- _ => let x := fresh "r" in set (x := a mod b) in *; clearbody x
  end.

Lemma utf8_encode_char_scalar (c : N) :
  scalar c ->
  exists bs, utf8_encode_char c = Some bs /\ Forall (fun b => b < 256) bs.
Proof.
  unfold scalar, utf8_encode_char. intros Hc.
  assert (Hdiv : forall k n, k <> 0 -> c < k * n -> c / k < n)
    by (intros; now apply N.Div0.div_lt_upper_bound).
  assert (Hmod : forall x, x mod 0x40 < 0x40) by (intros; apply N.mod_lt; lia).
  destruct (N.ltb_spec c 0x80).
  { eexists. split; [reflexivity|]. repeat constructor. lia. }
  destruct (N.ltb_spec c 0x800).
  { eexists. split; [reflexivity|].
    pose proof (Hdiv 0x40 0x20 ltac:(lia) ltac:(lia)). pose proof (Hmod c).
    clear Hdiv Hmod. repeat constructor; atoms; lia. }
  assert (Hsur : (0xD800 <=? c) && (c <=? 0xDFFF) = false).
  { destruct (N.leb_spec 0xD800 c), (N.leb_spec c 0xDFFF); cbn [andb]; lia. }
  rewrite Hsur. destruct (N.ltb_spec c 0x10000).
  - eexists. split; [reflexivity|].
    pose proof (Hdiv 0x1000 0x10 ltac:(lia) ltac:(lia)).
    pose proof (Hmod c). pose proof (Hmod (c / 0x40)).
    clear Hdiv Hmod Hsur. repeat constructor; atoms; lia.
  - destruct (N.ltb_spec c 0x110000); [|lia].
    eexists. split; [reflexivity|].
    pose proof (Hdiv 0x40000 0x5 ltac:(lia) ltac:(lia)).
    pose proof (Hmod c). pose proof (Hmod (c / 0x40)). pose proof (Hmod (c / 0x1000)).
    clear Hdiv Hmod Hsur. repeat constructor; atoms; lia.
Qed.

Lemma encodable_utf8 (s : pystr) :
  encodable s ->
  exists bs, utf8_encode s = Some bs /\ Forall (fun b => b < 256) bs.
Proof.
  induction 1 as [|c s Hc Hs (bs & IH & Hbs)].
  - exists []. split; [reflexivity|constructor].
  - destruct (utf8_encode_char_scalar c Hc) as (b & Hb & Hlt).
    exists (b ++ bs). cbn [utf8_encode]. rewrite Hb, IH. split; [reflexivity|].
    now apply Forall_app.
Qed.

Lemma hexdigit_upper_ascii (n : N) : n < 16 -> hexdigit_upper n < 128.
Proof. unfold hexdigit_upper. destruct (n <? 10); lia. Qed.

Lemma oauth_octet_ascii (b : N) :
  b < 256 -> Forall (fun c => c < 128) (Closed.oauth_octet b).
Proof.
  intros Hb. unfold Closed.oauth_octet, Spec.percent_encode_octet.
  destruct (b =? 32); [repeat constructor; lia|].
  destruct (Spec.unreserved b) eqn:Hu.
  - repeat constructor. now apply unreserved_below.
  - assert (b / 16 < 16) by (apply N.Div0.div_lt_upper_bound; lia).
    assert (b mod 16 < 16) by (apply N.mod_lt; lia).
    repeat constructor; try (now apply hexdigit_upper_ascii); atoms; lia.
Qed.

(** [encode_oauth] returns on every string that can be encoded, and what
    it returns is ASCII. *)
Lemma encode_oauth_encodable (s : pystr) :
  encodable s ->
  exists t, encode_oauth s = Ok t /\ Forall (fun c => c < 128) t.
Proof.
  intros Hs. destruct (encodable_utf8 s Hs) as (bs & Hbs & Hlt).
  rewrite encode_oauth_octets. unfold encode. rewrite Hbs. cbn [bind].
  eexists. split; [reflexivity|]. clear Hbs.
  induction Hlt as [|b bs Hb Hlt IH]; [constructor|].
  cbn [List.map List.concat]. apply Forall_app. split; [|exact IH].
  now apply oauth_octet_ascii.
Qed.

Lemma ascii_encodable (t : pystr) : Forall (fun c => c < 128) t -> encodable t.
Proof.
  intros H. eapply Forall_impl; [exact H|]. intros c Hc. left. cbn in Hc. lia.
Qed.

Lemma str_encodable (s : string) : encodable (str s).
Proof.
  unfold str, encodable. apply Forall_forall. intros c Hc.
  apply list_elem_of_In, in_map_iff in Hc. destruct Hc as (a & <- & _).
  left. pose proof (N_ascii_bounded a). lia.
Qed.

Lemma hexdigit_lower_scalar (n : N) : n < 16 -> scalar (hexdigit_lower n).
Proof. intros H. left. unfold hexdigit_lower. destruct (n <? 10); lia. Qed.

Lemma hex_fixed_encodable (digits : nat) (n : N) : encodable (hex_fixed digits n).
Proof.
  revert n. induction digits as [|d IH]; intros n; [constructor|].
  cbn [hex_fixed]. apply Forall_app. split; [apply IH|].
  constructor; [|constructor]. apply hexdigit_lower_scalar. apply N.mod_lt. lia.
Qed.

Lemma join_encodable (sep : pystr) (parts : list pystr) :
  encodable sep -> Forall encodable parts -> encodable (join sep parts).
Proof.
  intros Hsep. induction 1 as [|p ps Hp Hps IH]; [constructor|].
  cbn [join]. destruct ps as [|p' ps]; [exact Hp|].
  apply Forall_app. split; [exact Hp|]. apply Forall_app. now split.
Qed.

End Encodable.

Section ParsingEncodable.

Import Auth Urllib Closed.

Ltac split_cond c :=
  match c with
  | context [N.ltb ?a ?b] => destruct (N.ltb_spec a b)
  | context [N.leb ?a ?b] => destruct (N.leb_spec a b)
  | context [N.eqb ?a ?b] => destruct (N.eqb_spec a b)
  end.

(** Decoding with replacement yields code points that can be encoded
    again. *)
Lemma utf8_decode_replace_encodable (bs : pybytes) :
  encodable (utf8_decode_replace bs).
Proof.
  unfold encodable. remember (List.length bs) as n eqn:Hn. revert bs Hn.
  induction n as [n IH] using lt_wf_ind. intros bs Hn.
  assert (Hrec : forall l, (List.length l < n)%nat ->
                           Forall scalar (utf8_decode_replace l))
    by (intros l Hl; now apply (IH (List.length l))).
  clear IH. destruct bs as [|b0 t]; [constructor|].
  cbn [utf8_decode_replace]. unfold is_cont, REPLACEMENT.
  cbn [List.length] in Hn.
  repeat first
    [ progress cbn [andb negb orb]
    | match goal with
      | |- Forall _ (if ?c then _ else _) => split_cond c
      | |- Forall _ (match ?l with [] => _ | _ :: _ => _ end) =>
          destruct l; cbn [List.length] in Hn
      | |- Forall _ (utf8_decode_replace _) =>
          apply Hrec; cbn [List.length]; lia
      | |- Forall _ [] => constructor
      | |- Forall _ (_ :: _) => constructor
      | |- scalar _ => unfold scalar; lia
      end ].
Qed.

Lemma split_Forall (P : N -> Prop) (sep : N) (s : pystr) :
  Forall P s -> Forall (Forall P) (split sep s).
Proof.
  induction 1 as [|c s Hc Hs IH]; [repeat constructor|].
  cbn [split]. destruct (c =? sep); [constructor; [constructor|exact IH]|].
  destruct (split sep s) as [|w ws]; [repeat constructor; exact Hc|].
  apply Forall_cons in IH. destruct IH as [Hw Hws].
  constructor; [now constructor|exact Hws].
Qed.

Lemma split1_Forall (P : N -> Prop) (sep : N) (s : pystr) :
  Forall P s -> Forall (Forall P) (split1 sep s).
Proof.
  induction 1 as [|c s Hc Hs IH]; [repeat constructor|].
  cbn [split1]. destruct (c =? sep); [repeat constructor; exact Hs|].
  destruct (split1 sep s) as [|w ws]; [repeat constructor; exact Hc|].
  apply Forall_cons in IH. destruct IH as [Hw Hws].
  constructor; [now constructor|exact Hws].
Qed.

Lemma replace_char_Forall (P : N -> Prop) (a b : N) (s : pystr) :
  P b -> Forall P s -> Forall P (replace_char a b s).
Proof.
  intros Hb. unfold replace_char. induction 1 as [|c s Hc Hs IH]; [constructor|].
  cbn [List.map]. constructor; [now destruct (c =? a)|exact IH].
Qed.

Lemma ascii_runs_Forall (P : N -> Prop) (s : pystr) :
  Forall P s -> Forall (fun run : bool * pystr => Forall P (snd run)) (ascii_runs s).
Proof.
  induction 1 as [|c s Hc Hs IH]; [constructor|].
  cbn [ascii_runs]. destruct (ascii_runs s) as [|[a' r] rs].
  - repeat constructor. exact Hc.
  - apply Forall_cons in IH. destruct IH as [Hr Hrs]. cbn [snd] in Hr.
    destruct (Bool.eqb (c <? 128) a').
    + constructor; [now constructor|exact Hrs].
    + constructor; [now repeat constructor|]. now constructor.
Qed.

Lemma unquote_encodable (s : pystr) : encodable s -> encodable (unquote s).
Proof.
  intros Hs. unfold unquote. destruct (negb (contains 37 s)); [exact Hs|].
  pose proof (ascii_runs_Forall scalar s Hs) as Hr.
  induction Hr as [|[a r] rs Hrun Hrs IH]; [constructor|].
  cbn [List.map List.concat fst snd]. apply Forall_app. split; [|exact IH].
  destruct a; [apply utf8_decode_replace_encodable|exact Hrun].
Qed.

Lemma scalar_space : scalar 32.
Proof. left. lia. Qed.

Lemma parse_field_encodable (name_value : pystr) :
  encodable name_value -> Forall encodable_pair (parse_field name_value).
Proof.
  intros H. unfold parse_field. destruct name_value as [|c nv]; [constructor|].
  pose proof (split1_Forall scalar 61 (c :: nv) H) as Hs.
  destruct (split1 61 (c :: nv)) as [|name [|value [|x xs]]]; try constructor.
  destruct value as [|v value]; [constructor|].
  apply Forall_cons in Hs. destruct Hs as [Hname Hs].
  apply Forall_cons in Hs. destruct Hs as [Hvalue _].
  repeat constructor; cbn [fst snd]; apply unquote_encodable,
    replace_char_Forall; auto using scalar_space.
Qed.

Lemma parse_qsl_encodable (qs : pystr) :
  encodable qs -> Forall encodable_pair (parse_qsl qs).
Proof.
  intros H. unfold parse_qsl.
  assert (Hs : Forall encodable (match qs with [] => [] | _ => split 38 qs end)).
  { destruct qs; [constructor|]. now apply split_Forall. }
  induction Hs as [|f fs Hf Hfs IH]; [constructor|].
  cbn [List.flat_map]. apply Forall_app. split; [|exact IH].
  now apply parse_field_encodable.
Qed.

Lemma dict_set_Forall {V} (P : pystr * V -> Prop) (d : dict V) k v :
  Forall P d -> P (k, v) -> Forall P (dict_set d k v).
Proof.
  intros Hd Hkv. induction Hd as [|[k' v'] d Hx Hd IH]; cbn [dict_set].
  - now repeat constructor.
  - destruct (bool_decide (k' = k)) eqn:E.
    + apply bool_decide_eq_true in E. subst k'. now constructor.
    + now constructor.
Qed.

Lemma add_first_fold_encodable (pairs : list (pystr * pystr)) (acc : dict pystr) :
  Forall encodable_pair acc -> Forall encodable_pair pairs ->
  Forall encodable_pair (List.fold_left add_first pairs acc).
Proof.
  intros Hacc Hp. revert acc Hacc.
  induction Hp as [|[k v] pairs Hkv Hp IH]; intros acc Hacc; [exact Hacc|].
  cbn [List.fold_left]. apply IH. unfold add_first. cbn [fst snd].
  destruct (dict_get acc k); [exact Hacc|]. now apply dict_set_Forall.
Qed.

Lemma split_at_first_Forall (P : N -> Prop) (s : pystr) :
  Forall P s ->
  Forall P (fst (Spec.split_at_first_question_mark s))
  /\ match snd (Spec.split_at_first_question_mark s) with
     | Some query => Forall P query
     | None => True
     end.
Proof.
  induction 1 as [|c s Hc Hs [IH1 IH2]]; [split; [constructor|exact I]|].
  cbn [Spec.split_at_first_question_mark]. destruct (c =? 63).
  - split; [constructor|exact Hs].
  - destruct (Spec.split_at_first_question_mark s) as [base query].
    cbn [fst snd] in *. split; [now constructor|exact IH2].
Qed.

(** Parsing a URL that can be encoded never raises, and the base URL and
    the parameters can be encoded. *)
Lemma parse_url_parameters_encodable (url : pystr) :
  encodable url ->
  exists base_url parameters,
    parse_url_parameters (PStr url) = Ok (base_url, parameters)
    /\ encodable base_url
    /\ Forall encodable_pair (match parameters with Some d => d | None => [] end).
Proof.
  intros Hu. rewrite parse_url_parameters_closed.
  destruct (split_at_first_Forall scalar url Hu) as [Hbase Hquery].
  destruct (Spec.split_at_first_question_mark url) as [base [query|]];
    cbn [fst snd] in *.
  - rewrite first_values_parse_qs. cbn [bind]. eexists _, _.
    split; [reflexivity|]. split; [exact Hbase|].
    apply add_first_fold_encodable; [constructor|].
    apply parse_qsl_encodable.
    now apply (split_at_first_Forall scalar query).
  - eexists _, _. split; [reflexivity|]. split; [exact Hbase|constructor].
Qed.

End ParsingEncodable.

Section SigningReturns.

Import Auth Frame Hashlib Closed.

Lemma dict_get_In_any {V} (d : dict V) k v : dict_get d k = Some v -> In (k, v) d.
Proof.
  induction d as [|[k' v'] d IH]; [discriminate|]. cbn.
  destruct (bool_decide (k' = k)) eqn:E.
  - apply bool_decide_eq_true in E. subst k'. intros [= ->]. now left.
  - intros H. right. now apply IH.
Qed.

Lemma set_all_encodable (q : dict pystr) (d : dict value) :
  Forall encodable_entry d -> Forall encodable_pair q ->
  Forall encodable_entry (Closed.set_all d q).
Proof.
  intros Hd Hq. revert d Hd. unfold Closed.set_all.
  induction Hq as [|[k v] q Hkv Hq IH]; intros d Hd; [exact Hd|].
  cbn [List.fold_left fst snd]. apply IH. apply dict_set_Forall; [exact Hd|].
  exact Hkv.
Qed.

Lemma entries_encodable (rp : dict value) :
  Forall encodable_entry rp ->
  Forall encodable (List.map Closed.name_value (Closed.entries rp)).
Proof.
  intros Hrp. apply Forall_forall. intros s Hs.
  apply list_elem_of_In, in_map_iff in Hs. destruct Hs as ([k v] & <- & Hin).
  apply entries_In, dict_get_In_any in Hin.
  rewrite Forall_forall in Hrp. apply list_elem_of_In in Hin.
  destruct (Hrp _ Hin) as [Hk Hv]. cbn [fst snd] in *.
  unfold Closed.name_value. cbn [fst snd]. apply Forall_app. split; [exact Hk|].
  apply Forall_app. split; [|exact Hv]. repeat constructor.
Qed.

(** With a nonce and a timestamp that can be encoded, normalization
    returns, and the normalized string is ASCII. *)
Lemma normalize_request_parameters_returns q a :
  Forall encodable_entry (protocol_parameters a) ->
  Forall encodable_pair (match q with Some d => d | None => [] end) ->
  exists normalized,
    normalize_request_parameters q a
    = (Ok tt, set_normalized_request_parameters (VStr normalized) a)
    /\ Forall (fun c => c < 128) normalized.
Proof.
  intros Hp Hq. rewrite normalize_request_parameters_closed.
  rewrite add_query_parameters_set_all.
  match goal with
  | |- context [encode_oauth ?s] =>
      destruct (encode_oauth_encodable s) as (t & Ht & Hascii)
  end.
  - apply join_encodable; [repeat constructor|].
    apply entries_encodable. now apply set_all_encodable.
  - rewrite Ht. now exists t.
Qed.

Lemma protocol_parameters_encodable a ck tk nn ts :
  consumer_key a = VStr ck -> encodable ck ->
  token_key a = VStr tk -> encodable tk ->
  encodable (signature_method a) ->
  nonce a = VStr nn -> encodable nn ->
  timestamp a = VStr ts -> encodable ts ->
  Forall encodable_entry (protocol_parameters a).
Proof.
  intros Hck Eck Htk Etk Esm Hnn Enn Hts Ets. unfold protocol_parameters.
  rewrite Hck, Htk, Hnn, Hts.
  repeat (constructor; [split; cbn [fst snd format_value];
                        auto using str_encodable|]).
  constructor.
Qed.

Lemma generate_base_string_returns e m u a :
  ready a -> encodable m -> encodable u ->
  exists normalized encoded_url,
    generate_base_string e m (PStr u) a
    = (Ok tt,
       set_base_string
         (VStr (m ++ [38] ++ encoded_url ++ [38] ++ normalized))
         (set_normalized_request_parameters (VStr normalized)
            (set_timestamp (VStr (str_of_int (time_int e)))
               (set_nonce (VStr (hex_fixed 32 (uuid4_int e)
                                   ++ hex_fixed 32 (uuid1_int e))) a))))
    /\ Forall (fun c => c < 128) normalized
    /\ Forall (fun c => c < 128) encoded_url.
Proof.
  intros (_ & (ck & Hck & Eck) & (tk & Htk & Etk) & _ & _ & Esm) Hm Hu.
  destruct (parse_url_parameters_encodable u Hu)
    as (base & params & Hparse & Hbase & Hparams).
  set (a2 := set_timestamp (VStr (str_of_int (time_int e)))
               (set_nonce (VStr (hex_fixed 32 (uuid4_int e)
                                   ++ hex_fixed 32 (uuid1_int e))) a)).
  destruct (normalize_request_parameters_returns params a2)
    as (np & Hnorm & Hnp).
  { apply (protocol_parameters_encodable a2 ck tk
             (hex_fixed 32 (uuid4_int e) ++ hex_fixed 32 (uuid1_int e))
             (str_of_int (time_int e))); auto.
    - apply Forall_app. split; apply hex_fixed_encodable.
    - apply str_encodable. }
  { exact Hparams. }
  destruct (encode_oauth_encodable base Hbase) as (eb & Heb & Hascii).
  exists np, eb. split; [|now split].
  unfold generate_base_string, generate_nonce, generate_timestamp, mbind,
    assign, lift, read, reraise_KeyError.
  cbv beta iota. rewrite Hparse. cbv beta iota. cbn [fst snd].
  fold a2. rewrite Hnorm. cbv beta iota. rewrite Heb. reflexivity.
Qed.

Lemma generate_signature_returns a bs :
  base_string a = VStr bs -> encodable bs ->
  encodable (format_value (consumer_secret a)) ->
  encodable (format_value (token_secret a)) ->
  exists sig, generate_signature a = (Ok tt, set_signature (VStr sig) a).
Proof.
  intros Hbs Ebs Ecs Ets.
  destruct (encodable_utf8 (format_value (consumer_secret a) ++ [38]
                              ++ format_value (token_secret a)))
    as (key & Hkey & _).
  { apply Forall_app. split; [exact Ecs|]. apply Forall_app.
    split; [repeat constructor|exact Ets]. }
  destruct (encodable_utf8 bs Ebs) as (msg & Hmsg & _).
  destruct (encode_oauth_plain _ (b64encode_plain (hmac_sha256 key msg)))
    as (sig & _ & Hsig).
  exists sig. unfold generate_signature, mbind, read, lift, assign.
  cbv beta iota. rewrite Hbs. cbn [str_encode]. unfold encode.
  rewrite Hkey, Hmsg, Hsig. reflexivity.
Qed.

(** A signer that is ready signs every method and URL that can be
    encoded, whatever it draws. *)
Lemma generate_auth_header_returns e m u a :
  ready a -> encodable m -> encodable u ->
  exists headers, fst (generate_auth_header e m (PStr u) a) = Ok headers.
Proof.
  intros Hready Hm Hu.
  destruct (generate_base_string_returns e m u a Hready Hm Hu)
    as (np & eb & Hbase & Hnp & Heb).
  destruct Hready as ((r & Hr) & (ck & Hck & Eck) & (tk & Htk & Etk)
                      & Ecs & Ets & Esm).
  match type of Hbase with _ = (_, ?a') => set (a3 := a') in * end.
  destruct (generate_signature_returns a3 (m ++ [38] ++ eb ++ [38] ++ np))
    as (sig & Hsig); try reflexivity; try assumption.
  { apply Forall_app. split; [exact Hm|]. apply Forall_app.
    split; [repeat constructor|]. apply Forall_app.
    split; [now apply ascii_encodable|]. apply Forall_app.
    split; [repeat constructor|now apply ascii_encodable]. }
  unfold generate_auth_header, mbind. rewrite Hbase. cbv beta iota.
  rewrite Hsig. unfold read, lift, assign, ret. cbv beta iota.
  cbn [realm consumer_key token_key timestamp nonce signature a3
       set_signature set_base_string set_normalized_request_parameters
       set_timestamp set_nonce].
  rewrite Hr, Hck, Htk. cbn [concat_value]. cbv beta iota. cbn [fst].
  eexists. reflexivity.
Qed.

End SigningReturns.

(** ** The verb wrappers *)

Section VerbWrappers.

Import Auth Rest.

(** What a signing call returns is the default bundle of four headers. *)
Lemma generate_auth_header_bundle e m u a headers :
  fst (generate_auth_header e m u a) = Ok headers ->
  exists authorization,
    headers = [(str "Prefer", str "transient");
               (str "Content-Type", str "application/json");
               (str "Authorization", authorization);
               (str "cache-control", str "no-cache")].
Proof.
  unfold generate_auth_header, mbind, ret, assign, read, lift.
  repeat match goal with
  | |- context [match ?x with _ => _ end] => destruct x; cbn [fst]; try discriminate
  end.
  intros [= <-]. eexists. reflexivity.
Qed.

(** Headers supplied by the caller are kept, with [Authorization] set to
    the freshly generated value and no other default header added. *)
Lemma override_headers_caller (d : dict pyobj) (default_headers : dict pystr)
  (authorization : pystr) :
  d <> [] ->
  dict_get default_headers (str "Authorization") = Some authorization ->
  override_headers (PDict d) default_headers
  = Ok (PDict (dict_set d (str "Authorization") (PStr authorization))).
Proof.
  intros Hd Hget. unfold override_headers. rewrite Hget.
  destruct d; [contradiction|reflexivity].
Qed.

End VerbWrappers.

Section Wrappers.

Import Auth Rest.

(** Whatever the inputs, a wrapper that returns with headers supplied by
    the caller has sent those headers with [Authorization] set to the
    value generated for [signed_method], and no other header. *)
Lemma sign_and_send_caller e signed_method verb url body (d : dict pyobj) a call :
  d <> [] ->
  fst (sign_and_send e signed_method verb url body (PDict d) a) = Ok call ->
  exists default_headers authorization,
    fst (generate_auth_header e signed_method url a) = Ok default_headers
    /\ dict_get default_headers (str "Authorization") = Some authorization
    /\ call = {| wire := verb; call_url := url;
                 call_headers :=
                   PDict (dict_set d (str "Authorization") (PStr authorization));
                 call_data := body |}.
Proof.
  intros Hd. unfold sign_and_send.
  destruct (generate_auth_header e signed_method url a) as [[h|err] a'] eqn:Hg;
    [|discriminate].
  assert (Hb : fst (generate_auth_header e signed_method url a) = Ok h)
    by now rewrite Hg.
  destruct (generate_auth_header_bundle _ _ _ _ _ Hb) as (A & ->).
  assert (HA : dict_get [(str "Prefer", str "transient");
                         (str "Content-Type", str "application/json");
                         (str "Authorization", A);
                         (str "cache-control", str "no-cache")]
                        (str "Authorization") = Some A) by reflexivity.
  rewrite (override_headers_caller d _ A Hd HA). cbn [fst].
  intros [= <-]. eexists _, A. split; [reflexivity|]. split; [exact HA|reflexivity].
Qed.

Lemma put_caller_headers e url body (d : dict pyobj) a call :
  d <> [] -> fst (put e url body (PDict d) a) = Ok call ->
  exists default_headers authorization,
    fst (generate_auth_header e (str "PATCH") url a) = Ok default_headers
    /\ dict_get default_headers (str "Authorization") = Some authorization
    /\ call = {| wire := Put; call_url := url;
                 call_headers :=
                   PDict (dict_set d (str "Authorization") (PStr authorization));
                 call_data := Some body |}.
Proof.
  intros Hd. unfold put.
  destruct (bind (check_headers (PDict d)) (fun _ => check_body body));
    [|discriminate].
  now apply sign_and_send_caller.
Qed.

Lemma delete_caller_headers e url (d : dict pyobj) a call :
  d <> [] -> fst (delete e url (PDict d) a) = Ok call ->
  exists default_headers authorization,
    fst (generate_auth_header e (str "GET") url a) = Ok default_headers
    /\ dict_get default_headers (str "Authorization") = Some authorization
    /\ call = {| wire := Delete; call_url := url;
                 call_headers :=
                   PDict (dict_set d (str "Authorization") (PStr authorization));
                 call_data := None |}.
Proof.
  intros Hd. unfold delete.
  destruct (check_headers (PDict d)); [|discriminate].
  now apply sign_and_send_caller.
Qed.

End Wrappers.

Section VerbWrappersClaim.

Import Auth Rest.

(** C3 (the method that is signed). [put] sends a PUT whose
    [Authorization] is the one generated for PATCH, not the one for PUT;
    [delete] sends a DELETE signed for GET; [post] sends a POST signed for
    PATCH. In each case the header set is the caller's [X-Custom] header
    plus [Authorization] and nothing else. *)
Theorem C3_put_is_signed_for_PATCH :
  let url := PStr Fixture.url_bc in
  let sent verb authorization data :=
    Ok {| wire := verb; call_url := url;
          call_headers := PDict [(str "X-Custom", PStr (str "1"));
                                 (str "Authorization", PStr authorization)];
          call_data := data |} in
  (exists for_patch for_get,
     Fixture.authorization_for "PATCH" = Some for_patch
     /\ Fixture.authorization_for "GET" = Some for_get
     /\ fst (put Fixture.entropy0 url (PDict []) Fixture.custom_headers Fixture.signer)
        = sent Put for_patch (Some (PDict []))
     /\ fst (post Fixture.entropy0 url (PDict []) Fixture.custom_headers Fixture.signer)
        = sent Post for_patch (Some (PDict []))
     /\ fst (delete Fixture.entropy0 url Fixture.custom_headers Fixture.signer)
        = sent Delete for_get None
     /\ fst (get Fixture.entropy0 url Fixture.custom_headers Fixture.signer)
        = sent Get for_get None)
  /\ Fixture.authorization_for "PATCH" <> Fixture.authorization_for "PUT"
  /\ Fixture.authorization_for "PATCH" <> Fixture.authorization_for "POST"
  /\ Fixture.authorization_for "GET" <> Fixture.authorization_for "DELETE".
Proof.
  cbv zeta. split; [|split; [|split]].
  - exists (match Fixture.authorization_for "PATCH" with Some x => x | None => [] end),
           (match Fixture.authorization_for "GET" with Some x => x | None => [] end).
    split; [|split; [|split; [|split; [|split]]]]; vm_compute; reflexivity.
  - vm_compute. discriminate.
  - vm_compute. discriminate.
  - vm_compute. discriminate.
Qed.

End VerbWrappersClaim.

(** ** What the run descriptions mean on the replies *)

Section Replies.

Import Auth Requests SuiteQL Run.

Lemma write_write (l1 l2 : list line) (w : World) :
  write l2 (write l1 w) = write (l1 ++ l2) w.
Proof. unfold write. cbn [sent stdout stdout_raises]. now rewrite app_assoc. Qed.

(** Lines that the standard output takes are written one after the
    other. *)
Lemma print_all_accepted (lines : list line) (w : World) :
  accepts w lines -> print_all (List.map Ok lines) w = (Ok tt, write lines w).
Proof.
  revert w. induction lines as [|l lines IH]; intros w H.
  - cbn [List.map print_all]. unfold write. rewrite app_nil_r. now destruct w.
  - apply Forall_cons in H. destruct H as [Hl H].
    cbn [List.map print_all]. unfold print. rewrite Hl.
    rewrite (IH (write [l] w)) by exact H. now rewrite write_write.
Qed.

(** The error document of the service is read without an exception, and
    reported with six lines when the standard output takes them. *)
Lemma report_error_document (r : Response) (w : World) (d first : dict pyobj)
  (title type : pystr) (status detail : pyobj) (others : list pyobj) :
  json r = Some (PDict d) ->
  dict_get d (str "title") = Some (PStr title) ->
  dict_get d (str "type") = Some (PStr type) ->
  dict_get d (str "status") = Some status ->
  dict_get d (str "o:errorDetails") = Some (PList (PDict first :: others)) ->
  dict_get first (str "detail") = Some detail ->
  accepts w (error_report title type status detail) ->
  report_error r w = (Ok tt, write (error_report title type status detail) w).
Proof.
  intros Hj Ht Hty Hs Hd Hdet Hw. unfold report_error, read_error, response_json.
  rewrite Hj. cbn [bind Obj.getitem].
  rewrite Ht, Hty, Hs, Hd. cbn [bind Obj.getitem0 Obj.getitem].
  rewrite Hdet. cbn [bind].
  exact (print_all_accepted (error_report title type status detail) w Hw).
Qed.

(** Whatever the error report does, it sends nothing, leaves the stream as
    it is and withdraws no line. *)
Lemma print_all_world (statements : list (result line)) (w : World) :
  sent (snd (print_all statements w)) = sent w
  /\ stdout_raises (snd (print_all statements w)) = stdout_raises w
  /\ exists lines, stdout (snd (print_all statements w)) = stdout w ++ lines.
Proof.
  revert w. induction statements as [|[l|e] rest IH]; intros w; cbn [print_all].
  - cbn [snd]. repeat split. exists []. now rewrite app_nil_r.
  - unfold print. destruct (stdout_raises w l) as [e|] eqn:Hl.
    + cbn [snd]. repeat split. exists []. now rewrite app_nil_r.
    + destruct (IH (write [l] w)) as (Hs & Hr & lines & Ho).
      rewrite Hs, Hr, Ho. repeat split. exists (l :: lines).
      unfold write. cbn [stdout]. now rewrite <- app_assoc.
  - cbn [snd]. repeat split. exists []. now rewrite app_nil_r.
Qed.

Lemma report_error_world (r : Response) (w : World) :
  sent (snd (report_error r w)) = sent w
  /\ stdout_raises (snd (report_error r w)) = stdout_raises w
  /\ exists lines, stdout (snd (report_error r w)) = stdout w ++ lines.
Proof.
  unfold report_error. destruct (read_error r) as [f|e].
  - apply print_all_world.
  - cbn [snd]. repeat split. exists []. now rewrite app_nil_r.
Qed.

(** An OK reply with status 204 is a last page without items. *)
Lemma ends_no_content (x : Exchange) :
  ok (reply x) = true -> status_code (reply x) = 204%Z ->
  ends x = true /\ page_items x = [].
Proof.
  intros Hok Hs. unfold ends, page_items, page_of, parse_page.
  rewrite Hok, Hs. split; reflexivity.
Qed.

(** The page of an OK reply whose body has the six members of a query
    page, with a list of items. *)
Lemma page_of_json (x : Exchange) (d : dict pyobj) (ls its : list pyobj)
  (lks : list (pyobj * pyobj)) (cnt more off total : pyobj) :
  ok (reply x) = true -> status_code (reply x) <> 204%Z ->
  json (reply x) = Some (PDict d) ->
  dict_get d (str "links") = Some (PList ls) ->
  List.fold_left add_link ls (Ok []) = Ok lks ->
  dict_get d (str "count") = Some cnt ->
  dict_get d (str "hasMore") = Some more ->
  dict_get d (str "offset") = Some off ->
  dict_get d (str "totalResults") = Some total ->
  dict_get d (str "items") = Some (PList its) ->
  page_of x
  = Some ({| q_ok := true; q_status_code := status_code (reply x);
             links := lks; count := cnt; hasMore := more; offset := off;
             totalResults := total; q_items := PList its |}, its).
Proof.
  intros Hok Hs Hj Hl Hf Hc Hm Ho Ht Hi. unfold page_of, parse_page, response_json.
  rewrite Hok, Hj. apply Z.eqb_neq in Hs. rewrite Hs.
  cbn [bind Obj.getitem]. rewrite Hl. cbn [bind Obj.iterate]. rewrite Hf.
  cbn [bind]. rewrite Hc, Hm, Ho, Ht, Hi. reflexivity.
Qed.

End Replies.

(** ** The pagination loop *)

Section Pagination.

Import Auth Frame Requests SuiteQL Run.

Lemma signable_configuration a b x u :
  same_configuration a b -> signable a x u = signable b x u.
Proof.
  intros H. unfold signable.
  now rewrite (proj1 (generate_auth_header_configuration
                        (entropy x) (str "POST") u a b H)).
Qed.

Lemma all_signable_configuration a b u script :
  same_configuration a b -> all_signable a u script = all_signable b u script.
Proof.
  intros H. unfold all_signable.
  induction (List.combine script (u :: List.map next_of script)) as [|[x v] l IH];
    [reflexivity|].
  cbn [forallb fst snd]. rewrite IH. f_equal. now apply signable_configuration.
Qed.

Lemma all_signable_cons a u x script :
  all_signable a u (x :: script)
  = signable a x u && all_signable a (next_of x) script.
Proof. reflexivity. Qed.

Lemma same_configuration_sym a b :
  same_configuration a b -> same_configuration b a.
Proof. unfold same_configuration. intuition congruence. Qed.

(** A request that can be signed is sent, and its reply is taken. *)
Lemma query_signed x u q self w :
  signable (auth self) x u = true ->
  exists headers a',
    query x u q self w
    = (Ok (reply x), set_auth a' self,
       send {| req_url := u; req_headers := headers;
               req_data := str "{" ++ dq ++ str "q" ++ dq ++ str ": " ++ dq ++ q
                             ++ dq ++ str "}";
               req_cookies := [(str "NS_ROUTING_VERSION", str "LAGGING")] |} w)
    /\ same_configuration a' (auth self).
Proof.
  unfold signable, query. intros H.
  pose proof (keeps_generate_auth_header (entropy x) (str "POST") u (auth self))
    as Hk.
  destruct (generate_auth_header (entropy x) (str "POST") u (auth self))
    as [[headers|e] a']; [|discriminate].
  exists headers, a'. split; [reflexivity|exact Hk].
Qed.

Lemma parse_page_q_ok r page : parse_page r = Ok page -> q_ok page = ok r.
Proof.
  unfold parse_page. destruct (ok r) eqn:Hok.
  - destruct (status_code r =? 204)%Z; [now intros [= <-]|].
    unfold bind.
    repeat match goal with
    | |- context [match ?x with _ => _ end] => destruct x; try discriminate
    end.
    now intros [= <-].
  - now intros [= <-].
Qed.

Lemma page_of_Some x page its :
  page_of x = Some (page, its) ->
  ok (reply x) = true /\ parse_page (reply x) = Ok page
  /\ q_ok page = true /\ Obj.iterate (q_items page) = Ok its.
Proof.
  unfold page_of. destruct (ok (reply x)) eqn:Hok; [|discriminate].
  destruct (parse_page (reply x)) as [p|] eqn:Hp; [|discriminate].
  destruct (Obj.iterate (q_items p)) as [l|] eqn:Hi; [|discriminate].
  intros [= <- <-]. repeat split; auto.
  rewrite (parse_page_q_ok _ _ Hp). exact Hok.
Qed.

(** One iteration on a page that reports more: the items are appended and
    the loop goes on with the [next] link. *)
Lemma loop_continues x tail q u self w :
  continues x = true -> signable (auth self) x u = true ->
  exists self' w',
    suiteql_loop (x :: tail) q u self w = suiteql_loop tail q (next_of x) self' w'
    /\ response_body self' = response_body self ++ page_items x
    /\ same_configuration (auth self') (auth self)
    /\ url self' = url self
    /\ List.map req_url (sent w') = List.map req_url (sent w) ++ [u]
    /\ stdout w' = stdout w
    /\ stdout_raises w' = stdout_raises w.
Proof.
  intros Hc Hs. destruct (query_signed x u q self w Hs) as (h & a' & Hq & Ha).
  unfold continues in Hc. destruct (page_of x) as [[page its]|] eqn:Hp;
    [|discriminate].
  apply andb_true_iff in Hc. destruct Hc as [Hmore Hnext].
  destruct (links_get (links page) (str "next")) as [v|] eqn:Hl; [|discriminate].
  destruct (page_of_Some _ _ _ Hp) as (Hok & Hparse & Hqok & Hit).
  eexists _, _. cbn [suiteql_loop]. rewrite Hq. unfold make_QueryResponse.
  rewrite Hok, Hparse, Hqok, Hmore, Hl, Hit.
  unfold next_of, next_link, page_items. rewrite Hp, Hl.
  split; [reflexivity|]. split; [reflexivity|]. split; [exact Ha|].
  split; [reflexivity|]. split; [|split; reflexivity].
  cbn [sent send]. now rewrite List.map_app.
Qed.

(** One iteration on a page that reports no more: the call returns the
    accumulator. *)
Lemma loop_ends x tail q u self w :
  ends x = true -> signable (auth self) x u = true ->
  exists self' w',
    suiteql_loop (x :: tail) q u self w
    = (Returned (PList (response_body self ++ page_items x)), self', w')
    /\ response_body self' = response_body self ++ page_items x
    /\ same_configuration (auth self') (auth self)
    /\ url self' = url self
    /\ List.map req_url (sent w') = List.map req_url (sent w) ++ [u]
    /\ stdout w' = stdout w.
Proof.
  intros Hc Hs. destruct (query_signed x u q self w Hs) as (h & a' & Hq & Ha).
  unfold ends in Hc. destruct (page_of x) as [[page its]|] eqn:Hp;
    [|discriminate].
  apply negb_true_iff in Hc.
  destruct (page_of_Some _ _ _ Hp) as (Hok & Hparse & Hqok & Hit).
  eexists _, _. cbn [suiteql_loop]. rewrite Hq. unfold make_QueryResponse.
  rewrite Hok, Hparse, Hqok, Hc, Hit.
  unfold page_items. rewrite Hp.
  split; [reflexivity|]. split; [reflexivity|]. split; [exact Ha|].
  split; [reflexivity|]. split; [|reflexivity].
  cbn [sent send]. now rewrite List.map_app.
Qed.

(** One iteration on a reply that is not OK, with the error document of
    the service and a standard output that takes the report: the error is
    printed and the call returns an empty dictionary; the accumulator is
    left as it is. *)
Lemma loop_fails x tail q u self w (d first : dict pyobj)
  (title type : pystr) (status detail : pyobj) (others : list pyobj) :
  ok (reply x) = false ->
  json (reply x) = Some (PDict d) ->
  dict_get d (str "title") = Some (PStr title) ->
  dict_get d (str "type") = Some (PStr type) ->
  dict_get d (str "status") = Some status ->
  dict_get d (str "o:errorDetails") = Some (PList (PDict first :: others)) ->
  dict_get first (str "detail") = Some detail ->
  accepts w (error_report title type status detail) ->
  signable (auth self) x u = true ->
  exists self' w',
    suiteql_loop (x :: tail) q u self w = (Returned (PDict []), self', w')
    /\ response_body self' = response_body self
    /\ same_configuration (auth self') (auth self)
    /\ url self' = url self
    /\ List.map req_url (sent w') = List.map req_url (sent w) ++ [u]
    /\ stdout w' = stdout w ++ error_report title type status detail.
Proof.
  intros Hok Hj Ht Hty Hst Hd Hdet Hw Hs.
  destruct (query_signed x u q self w Hs) as (h & a' & Hq & Ha).
  eexists _, _. cbn [suiteql_loop]. rewrite Hq. unfold make_QueryResponse.
  rewrite Hok.
  rewrite (report_error_document (reply x) _ d first title type status detail
             others Hj Ht Hty Hst Hd Hdet) by exact Hw.
  unfold parse_page. rewrite Hok. cbn [q_ok].
  split; [reflexivity|]. split; [reflexivity|]. split; [exact Ha|].
  split; [reflexivity|]. split; [|reflexivity].
  cbn [sent send write]. now rewrite List.map_app.
Qed.

Lemma last_cons {A} (l : list A) (a d : A) :
  List.last (a :: l) d = List.last l a.
Proof.
  revert a d. induction l as [|b l IH]; intros a d; [reflexivity|].
  change (List.last (a :: b :: l) d) with (List.last (b :: l) d).
  now rewrite !IH.
Qed.

Lemma follow_cons u x script : follow u (x :: script) = follow (next_of x) script.
Proof. unfold follow. cbn [List.map]. apply last_cons. Qed.

Lemma request_urls_cons u x script :
  request_urls u (x :: script) = u :: request_urls (next_of x) script.
Proof. reflexivity. Qed.

(** The pages that report more are fetched one after the other, each from
    the [next] link of the one before; their items are accumulated in
    order. *)
Lemma loop_prefix pre tail q u self w :
  forallb continues pre = true -> all_signable (auth self) u pre = true ->
  exists self' w',
    suiteql_loop (pre ++ tail) q u self w
    = suiteql_loop tail q (follow u pre) self' w'
    /\ response_body self' = response_body self ++ run_items pre
    /\ same_configuration (auth self') (auth self)
    /\ url self' = url self
    /\ List.map req_url (sent w') = List.map req_url (sent w) ++ request_urls u pre
    /\ stdout w' = stdout w
    /\ stdout_raises w' = stdout_raises w.
Proof.
  revert u self w. induction pre as [|x pre IH]; intros u self w Hc Hs.
  - exists self, w. unfold run_items, request_urls, follow. cbn.
    rewrite !app_nil_r.
    split; [reflexivity|]. split; [reflexivity|].
    split; [apply same_configuration_refl|]. now repeat split.
  - cbn [forallb] in Hc. apply andb_true_iff in Hc. destruct Hc as [Hx Hpre].
    rewrite all_signable_cons in Hs. apply andb_true_iff in Hs.
    destruct Hs as [Hsx Hspre].
    destruct (loop_continues x (pre ++ tail) q u self w Hx Hsx)
      as (self1 & w1 & Hloop & Hbody & Hconf & Hurl & Hsent & Hout & Hstream).
    rewrite (all_signable_configuration _ (auth self1)) in Hspre
      by now apply same_configuration_sym.
    destruct (IH (next_of x) self1 w1 Hpre Hspre)
      as (self2 & w2 & Hloop2 & Hbody2 & Hconf2 & Hurl2 & Hsent2 & Hout2 & Hstream2).
    exists self2, w2. rewrite <- app_comm_cons, Hloop, Hloop2, follow_cons.
    split; [reflexivity|]. split; [|split; [|split; [|split; [|split]]]].
    + rewrite Hbody2, Hbody. unfold run_items. cbn [List.map List.concat].
      now rewrite app_assoc.
    + eapply same_configuration_trans; eassumption.
    + congruence.
    + rewrite Hsent2, Hsent, request_urls_cons, <- app_assoc. reflexivity.
    + congruence.
    + congruence.
Qed.

Lemma all_signable_app a u pre script :
  all_signable a u (pre ++ script)
  = all_signable a u pre && all_signable a (follow u pre) script.
Proof.
  revert u. induction pre as [|x pre IH]; intros u; [reflexivity|].
  rewrite <- app_comm_cons, !all_signable_cons, IH, follow_cons.
  now rewrite andb_assoc.
Qed.

Lemma request_urls_length u script :
  List.length (request_urls u script) = List.length script.
Proof.
  unfold request_urls. rewrite List.length_firstn. cbn [List.length].
  rewrite List.length_map. lia.
Qed.

Lemma request_urls_app u pre script :
  request_urls u (pre ++ script)
  = request_urls u pre ++ request_urls (follow u pre) script.
Proof.
  revert u. induction pre as [|x pre IH]; intros u; [reflexivity|].
  rewrite <- app_comm_cons, !request_urls_cons, IH, follow_cons. reflexivity.
Qed.

Lemma request_urls_follow u pre :
  request_urls u pre ++ [follow u pre] = u :: List.map next_of pre.
Proof.
  revert u. induction pre as [|x pre IH]; intros u; [reflexivity|].
  rewrite request_urls_cons, follow_cons, <- app_comm_cons, IH. reflexivity.
Qed.

Lemma request_urls_snoc u pre x :
  request_urls u (pre ++ [x]) = u :: List.map next_of pre.
Proof. rewrite request_urls_app. apply request_urls_follow. Qed.

(** A signer that is ready signs the request for every URL that is a
    string that can be encoded. *)
Lemma signable_ready a x (u : pystr) :
  ready a -> Closed.encodable u -> signable a x (PStr u) = true.
Proof.
  intros Ha Hu. unfold signable.
  destruct (generate_auth_header_returns (entropy x) (str "POST") u a Ha
              (str_encodable "POST") Hu) as (h & Hh).
  now rewrite Hh.
Qed.

(** So every request of a run can be signed when the signer is ready, the
    first URL can be encoded and so can the [next] link of every page that
    is followed. *)
Lemma all_signable_ready a (first : pystr) pre last :
  ready a -> Closed.encodable first ->
  Forall (fun x => exists u, next_of x = PStr u /\ Closed.encodable u) pre ->
  all_signable a (PStr first) (pre ++ [last]) = true.
Proof.
  intros Ha Hfirst Hpre. revert first Hfirst.
  induction Hpre as [|x pre (u & Hx & Hu) Hpre IH]; intros first Hfirst.
  - cbn [app]. rewrite all_signable_cons, signable_ready by assumption.
    reflexivity.
  - rewrite <- app_comm_cons, all_signable_cons, signable_ready by assumption.
    rewrite Hx. now apply IH.
Qed.

(** A paginator built with string credentials that can be encoded has a
    signer that is ready and a base URL that can be encoded. *)
Lemma init_ready (account_id ck cs tk ts : pystr) :
  Closed.encodable account_id -> Closed.encodable ck -> Closed.encodable cs ->
  Closed.encodable tk -> Closed.encodable ts ->
  let client := SuiteQL.init (VStr account_id) (VStr ck) (VStr cs) (VStr tk) (VStr ts) in
  ready (auth client) /\ Closed.encodable (url client).
Proof.
  intros Hid Hck Hcs Htk Hts. cbv zeta. split.
  - unfold ready. cbn. split; [now eexists|]. split; [now exists ck|].
    split; [now exists tk|]. split; [exact Hcs|]. split; [exact Hts|].
    apply (str_encodable "HMAC-SHA256").
  - cbn [url SuiteQL.init format_value]. apply Forall_app.
    split; [apply str_encodable|]. apply Forall_app.
    split; [exact Hid|apply str_encodable].
Qed.

(** A run whose pages are all OK: the pages of [pre] report more, the page
    [last] does not, and [rest] is never asked for. *)
Lemma suiteql_all_ok pre last rest q self w :
  forallb continues pre = true -> ends last = true ->
  all_signable (auth self) (PStr (url self)) (pre ++ [last]) = true ->
  exists self' w',
    suiteql (pre ++ last :: rest) q self w
    = (Returned (PList (response_body self ++ run_items (pre ++ [last]))),
       self', w')
    /\ response_body self' = response_body self ++ run_items (pre ++ [last])
    /\ same_configuration (auth self') (auth self)
    /\ url self' = url self
    /\ List.map req_url (sent w')
       = List.map req_url (sent w) ++ PStr (url self) :: List.map next_of pre
    /\ stdout w' = stdout w.
Proof.
  intros Hpre Hlast Hs. rewrite all_signable_app in Hs.
  apply andb_true_iff in Hs. destruct Hs as [Hspre Hslast].
  rewrite all_signable_cons in Hslast. apply andb_true_iff in Hslast.
  destruct Hslast as [Hslast _]. unfold suiteql.
  destruct (loop_prefix pre (last :: rest) q (PStr (url self)) self w Hpre Hspre)
    as (self1 & w1 & Hloop & Hbody & Hconf & Hurl & Hsent & Hout & _).
  rewrite (signable_configuration _ (auth self1)) in Hslast
    by now apply same_configuration_sym.
  destruct (loop_ends last rest q _ self1 w1 Hlast Hslast)
    as (self2 & w2 & Hloop2 & Hbody2 & Hconf2 & Hurl2 & Hsent2 & Hout2).
  exists self2, w2. rewrite Hloop, Hloop2.
  assert (Hitems : response_body self1 ++ page_items last
                   = response_body self ++ run_items (pre ++ [last])).
  { rewrite Hbody. unfold run_items. rewrite List.map_app, List.concat_app.
    cbn [List.map List.concat]. now rewrite app_nil_r, app_assoc. }
  split; [|split; [|split; [|split; [|split]]]].
  - now rewrite Hitems.
  - now rewrite Hbody2, Hitems.
  - eapply same_configuration_trans; eassumption.
  - congruence.
  - rewrite Hsent2, Hsent, <- app_assoc, <- request_urls_follow. reflexivity.
  - congruence.
Qed.

(** A run that meets a reply that is not OK after the pages of [pre]. *)
Lemma suiteql_not_ok pre bad rest q self w (d first : dict pyobj)
  (title type : pystr) (status detail : pyobj) (others : list pyobj) :
  forallb continues pre = true ->
  ok (reply bad) = false ->
  json (reply bad) = Some (PDict d) ->
  dict_get d (str "title") = Some (PStr title) ->
  dict_get d (str "type") = Some (PStr type) ->
  dict_get d (str "status") = Some status ->
  dict_get d (str "o:errorDetails") = Some (PList (PDict first :: others)) ->
  dict_get first (str "detail") = Some detail ->
  accepts w (error_report title type status detail) ->
  all_signable (auth self) (PStr (url self)) (pre ++ [bad]) = true ->
  exists self' w',
    suiteql (pre ++ bad :: rest) q self w = (Returned (PDict []), self', w')
    /\ response_body self' = response_body self ++ run_items pre
    /\ same_configuration (auth self') (auth self)
    /\ url self' = url self
    /\ List.map req_url (sent w')
       = List.map req_url (sent w) ++ PStr (url self) :: List.map next_of pre
    /\ stdout w' = stdout w ++ error_report title type status detail.
Proof.
  intros Hpre Hok Hj Ht Hty Hst Hd Hdet Hw Hs. rewrite all_signable_app in Hs.
  apply andb_true_iff in Hs. destruct Hs as [Hspre Hsbad].
  rewrite all_signable_cons in Hsbad. apply andb_true_iff in Hsbad.
  destruct Hsbad as [Hsbad _]. unfold suiteql.
  destruct (loop_prefix pre (bad :: rest) q (PStr (url self)) self w Hpre Hspre)
    as (self1 & w1 & Hloop & Hbody & Hconf & Hurl & Hsent & Hout & Hstream).
  rewrite (signable_configuration _ (auth self1)) in Hsbad
    by now apply same_configuration_sym.
  assert (Hw1 : accepts w1 (error_report title type status detail)).
  { unfold accepts in *. now rewrite Hstream. }
  destruct (loop_fails bad rest q _ self1 w1 d first title type status detail
              others Hok Hj Ht Hty Hst Hd Hdet Hw1 Hsbad)
    as (self2 & w2 & Hloop2 & Hbody2 & Hconf2 & Hurl2 & Hsent2 & Hout2).
  exists self2, w2. rewrite Hloop, Hloop2.
  split; [reflexivity|]. split; [|split; [|split; [|split]]].
  - congruence.
  - eapply same_configuration_trans; eassumption.
  - congruence.
  - rewrite Hsent2, Hsent, <- app_assoc, <- request_urls_follow. reflexivity.
  - congruence.
Qed.

End Pagination.

Section PaginationClaims.

Import Auth Frame Requests SuiteQL Run.

(** C7 (code bug). [suiteql] is documented to return all results for a
    SuiteQL query. On a fresh instance it does: a run of three OK pages
    issues exactly three requests, to the base query URL and then to the
    [next] link of each page, and returns the items of the three pages in
    fetch order. On an instance that has already answered a query it does
    not: a second call, whose only page carries the single item ["b"] and
    reports no more, returns the five items of the first call followed by
    ["b"], after one request. *)
Theorem C7_second_query_returns_earlier_items :
  let r1 := suiteql [Fixture.page1; Fixture.page2; Fixture.page3]
                    Fixture.select Fixture.client Fixture.world0 in
  let r2 := suiteql [Fixture.page_b] Fixture.select (snd (fst r1)) (snd r1) in
  fst (fst r1) = Returned (PList [PInt 1; PInt 2; PInt 3; PInt 4; PInt 5])
  /\ List.map req_url (sent (snd r1))
     = [PStr (str "https://123456.suitetalk.api.netsuite.com/services/rest/query/v1/suiteql");
        PStr (str "https://x.test/q?offset=2");
        PStr (str "https://x.test/q?offset=3")]
  /\ json (reply Fixture.page_b)
     = Some (PDict [(str "links", PList []);
                    (str "count", PInt 1);
                    (str "hasMore", PBool false);
                    (str "offset", PInt 0);
                    (str "totalResults", PInt 5);
                    (str "items", PList [PStr (str "b")])])
  /\ fst (fst r2)
     = Returned (PList [PInt 1; PInt 2; PInt 3; PInt 4; PInt 5; PStr (str "b")])
  /\ List.length (sent (snd r2)) = 4%nat.
Proof. cbv zeta. repeat split; vm_compute; reflexivity. Qed.

(** C2 (amended). When the pages of [pre] are OK, well formed, report more
    and carry a [next] link, every request can be signed, and the next
    reply is not OK with a body that is the error document of the service
    (a JSON object with [title] and [type] strings, a [status], and an
    [o:errorDetails] list whose first element is an object with a
    [detail]), and the standard output takes the six lines of the report:
    the call raises nothing and returns an empty dictionary; it has issued
    one request per page of [pre] and one for the failed page, and none for
    [rest]; the report is printed. The items of the earlier pages are not
    in the result, but they are not discarded: they stay in the
    accumulator of the instance. *)
Theorem C2_not_ok_page (pre : list Exchange) (bad : Exchange)
  (rest : list Exchange) (q : pystr) (self : NetSuiteQL) (w : World)
  (d first : dict pyobj) (title type : pystr) (status detail : pyobj)
  (others : list pyobj) :
  forallb continues pre = true ->
  ok (reply bad) = false ->
  json (reply bad) = Some (PDict d) ->
  dict_get d (str "title") = Some (PStr title) ->
  dict_get d (str "type") = Some (PStr type) ->
  dict_get d (str "status") = Some status ->
  dict_get d (str "o:errorDetails") = Some (PList (PDict first :: others)) ->
  dict_get first (str "detail") = Some detail ->
  accepts w (error_report title type status detail) ->
  all_signable (auth self) (PStr (url self)) (pre ++ [bad]) = true ->
  exists self' w',
    suiteql (pre ++ bad :: rest) q self w = (Returned (PDict []), self', w')
    /\ List.length (sent w') = (List.length (sent w) + List.length pre + 1)%nat
    /\ stdout w' = stdout w ++ error_report title type status detail
    /\ response_body self' = response_body self ++ run_items pre.
Proof.
  intros Hpre Hok Hj Ht Hty Hst Hd Hdet Hw Hs.
  destruct (suiteql_not_ok pre bad rest q self w d first title type status detail
              others Hpre Hok Hj Ht Hty Hst Hd Hdet Hw Hs)
    as (self' & w' & Hrun & Hbody & _ & _ & Hsent & Hout).
  exists self', w'. split; [exact Hrun|]. split; [|split; [exact Hout|exact Hbody]].
  apply (f_equal (@List.length pyobj)) in Hsent.
  rewrite List.length_app, !List.length_map in Hsent. cbn [List.length] in Hsent.
  rewrite List.length_map in Hsent. lia.
Qed.

(** Page 1 is OK with the items 1 and 2 and more results, page 2 is a 400
    with an error document: two requests, an empty dictionary, no request
    for the third exchange, six lines printed; the items 1 and 2 are in
    the accumulator. *)
Lemma C2_not_ok_page_witness :
  forallb continues [Fixture.page1] = true
  /\ ok (reply Fixture.error_reply) = false
  /\ accepts Fixture.world0
       (error_report (str "Bad Request") (str "https://www.rfc-editor.org/rfc/rfc9110")
                     (PInt 400) (PStr (str "Invalid search query.")))
  /\ all_signable (auth Fixture.client) (PStr (url Fixture.client))
       ([Fixture.page1] ++ [Fixture.error_reply]) = true
  /\ run_items [Fixture.page1] = [PInt 1; PInt 2]
  /\ exists self' w',
       suiteql ([Fixture.page1] ++ Fixture.error_reply :: [Fixture.page3])
               Fixture.select Fixture.client Fixture.world0
       = (Returned (PDict []), self', w')
       /\ List.length (sent w')
          = (List.length (sent Fixture.world0) + List.length [Fixture.page1] + 1)%nat
       /\ stdout w'
          = stdout Fixture.world0
              ++ [Text (str "ERROR");
                  Text (str "error_title: Bad Request");
                  Text (str "error_title: https://www.rfc-editor.org/rfc/rfc9110");
                  TextStr (str "error_status: ") (PInt 400);
                  TextStr (str "error_msg: ") (PStr (str "Invalid search query."));
                  Text []]
       /\ response_body self'
          = response_body Fixture.client ++ run_items [Fixture.page1].
Proof.
  assert (H1 : forallb continues [Fixture.page1] = true)
    by (vm_compute; reflexivity).
  assert (H2 : ok (reply Fixture.error_reply) = false) by reflexivity.
  assert (H3 : accepts Fixture.world0
                 (error_report (str "Bad Request")
                    (str "https://www.rfc-editor.org/rfc/rfc9110")
                    (PInt 400) (PStr (str "Invalid search query."))))
    by (repeat constructor).
  assert (H4 : all_signable (auth Fixture.client) (PStr (url Fixture.client))
                 ([Fixture.page1] ++ [Fixture.error_reply]) = true)
    by (vm_compute; reflexivity).
  assert (H5 : run_items [Fixture.page1] = [PInt 1; PInt 2])
    by (vm_compute; reflexivity).
  split; [exact H1|]. split; [exact H2|]. split; [exact H3|]. split; [exact H4|].
  split; [exact H5|].
  exact (C2_not_ok_page [Fixture.page1] Fixture.error_reply [Fixture.page3]
           Fixture.select Fixture.client Fixture.world0
           _ [(str "detail", PStr (str "Invalid search query."))]
           (str "Bad Request") (str "https://www.rfc-editor.org/rfc/rfc9110")
           (PInt 400) (PStr (str "Invalid search query.")) []
           H1 H2 eq_refl eq_refl eq_refl eq_refl eq_refl eq_refl H3 H4).
Defined.

(** C2 as stated fails in three ways. For a 502 reply whose body is not
    JSON, [response.json()] raises inside [NetSuiteResponse.__init__] and
    the exception leaves [suiteql]. For an error document whose title the
    standard output cannot encode, [print] raises after the first line of
    the report and the exception leaves [suiteql]. And when the call does
    return the empty dictionary, the items of the earlier pages are not
    discarded: the next call on the instance, whose only page carries the
    item ["b"], returns them before ["b"]. *)
Lemma C2_counterexample :
  (ok (reply Fixture.gateway_error) = false
   /\ fst (fst (suiteql [Fixture.page1; Fixture.gateway_error; Fixture.page3]
                        Fixture.select Fixture.client Fixture.world0))
      = Raised JSONDecodeError)
  /\ (let r := suiteql [Fixture.page1; Fixture.error_reply_accent; Fixture.page3]
                       Fixture.select Fixture.client Fixture.ascii_world in
      ok (reply Fixture.error_reply_accent) = false
      /\ fst (fst r) = Raised UnicodeEncodeError
      /\ stdout (snd r) = [Text (str "ERROR")])
  /\ (let r1 := suiteql [Fixture.page1; Fixture.error_reply; Fixture.page3]
                        Fixture.select Fixture.client Fixture.world0 in
      let r2 := suiteql [Fixture.page_b] Fixture.select (snd (fst r1)) (snd r1) in
      fst (fst r1) = Returned (PDict [])
      /\ fst (fst r2) = Returned (PList [PInt 1; PInt 2; PStr (str "b")])).
Proof. cbv zeta. repeat split; vm_compute; reflexivity. Qed.

(** C10. The accumulator is empty at construction and [suiteql] never
    resets it: of two calls on one instance whose pages are all OK, the
    second returns everything the first one returned followed by the items
    of its own pages. *)
Theorem C10_accumulator_is_never_reset
  (pre1 : list Exchange) (last1 : Exchange) (rest1 : list Exchange) (q1 : pystr)
  (pre2 : list Exchange) (last2 : Exchange) (rest2 : list Exchange) (q2 : pystr)
  (self : NetSuiteQL) (w : World) :
  forallb continues pre1 = true -> ends last1 = true ->
  all_signable (auth self) (PStr (url self)) (pre1 ++ [last1]) = true ->
  forallb continues pre2 = true -> ends last2 = true ->
  all_signable (auth self) (PStr (url self)) (pre2 ++ [last2]) = true ->
  (forall account_id consumer_key consumer_secret token_key token_secret,
     response_body (SuiteQL.init account_id consumer_key consumer_secret
                                 token_key token_secret) = [])
  /\ exists first self1 w1 self2 w2,
       first = response_body self ++ run_items (pre1 ++ [last1])
       /\ suiteql (pre1 ++ last1 :: rest1) q1 self w
          = (Returned (PList first), self1, w1)
       /\ suiteql (pre2 ++ last2 :: rest2) q2 self1 w1
          = (Returned (PList (first ++ run_items (pre2 ++ [last2]))), self2, w2).
Proof.
  intros Hpre1 Hlast1 Hs1 Hpre2 Hlast2 Hs2. split; [reflexivity|].
  destruct (suiteql_all_ok pre1 last1 rest1 q1 self w Hpre1 Hlast1 Hs1)
    as (self1 & w1 & Hrun1 & Hbody1 & Hconf1 & Hurl1 & _).
  rewrite <- Hurl1 in Hs2.
  rewrite (all_signable_configuration _ (auth self1)) in Hs2
    by now apply same_configuration_sym.
  destruct (suiteql_all_ok pre2 last2 rest2 q2 self1 w1 Hpre2 Hlast2 Hs2)
    as (self2 & w2 & Hrun2 & _).
  exists (response_body self ++ run_items (pre1 ++ [last1])), self1, w1, self2, w2.
  split; [reflexivity|]. split; [exact Hrun1|].
  rewrite Hrun2, Hbody1. reflexivity.
Qed.

(** A three-page query followed by a one-page query on the same fresh
    instance. *)
Lemma C10_accumulator_is_never_reset_witness :
  forallb continues [Fixture.page1; Fixture.page2] = true
  /\ ends Fixture.page3 = true
  /\ all_signable (auth Fixture.client) (PStr (url Fixture.client))
       ([Fixture.page1; Fixture.page2] ++ [Fixture.page3]) = true
  /\ forallb continues [] = true
  /\ ends Fixture.page_b = true
  /\ all_signable (auth Fixture.client) (PStr (url Fixture.client))
       ([] ++ [Fixture.page_b]) = true
  /\ exists first self1 w1 self2 w2,
       first = response_body Fixture.client
                 ++ run_items ([Fixture.page1; Fixture.page2] ++ [Fixture.page3])
       /\ suiteql ([Fixture.page1; Fixture.page2] ++ Fixture.page3 :: [])
                  Fixture.select Fixture.client Fixture.world0
          = (Returned (PList first), self1, w1)
       /\ suiteql ([] ++ Fixture.page_b :: []) Fixture.select self1 w1
          = (Returned (PList (first ++ run_items ([] ++ [Fixture.page_b]))),
             self2, w2).
Proof.
  assert (H1 : forallb continues [Fixture.page1; Fixture.page2] = true)
    by (vm_compute; reflexivity).
  assert (H2 : ends Fixture.page3 = true) by (vm_compute; reflexivity).
  assert (H3 : all_signable (auth Fixture.client) (PStr (url Fixture.client))
                 ([Fixture.page1; Fixture.page2] ++ [Fixture.page3]) = true)
    by (vm_compute; reflexivity).
  assert (H4 : forallb continues [] = true) by reflexivity.
  assert (H5 : ends Fixture.page_b = true) by (vm_compute; reflexivity).
  assert (H6 : all_signable (auth Fixture.client) (PStr (url Fixture.client))
                 ([] ++ [Fixture.page_b]) = true)
    by (vm_compute; reflexivity).
  split; [exact H1|]. split; [exact H2|]. split; [exact H3|].
  split; [exact H4|]. split; [exact H5|]. split; [exact H6|].
  exact (proj2 (C10_accumulator_is_never_reset
                  [Fixture.page1; Fixture.page2] Fixture.page3 [] Fixture.select
                  [] Fixture.page_b [] Fixture.select
                  Fixture.client Fixture.world0 H1 H2 H3 H4 H5 H6)).
Defined.

End PaginationClaims.

(** * Further properties of the code *)

(** ** UTF-8 and the splitting of strings *)

Section Utf8RoundTrip.

Import Urllib Closed.

Ltac cond c :=
  match c with
  | context [N.ltb ?a ?b] => destruct (N.ltb_spec a b)
  | context [N.leb ?a ?b] => destruct (N.leb_spec a b)
  | context [N.eqb ?a ?b] => destruct (N.eqb_spec a b)
  end.

Ltac conds :=
  repeat first
    [ progress cbn [andb negb orb]
    | match goal with
      | |- context [if ?c then _ else _] => cond c; try lia
      end ].

(** A character that has an encoding is a scalar value. *)
Lemma utf8_encode_char_Some (c : N) (ec : pybytes) :
  utf8_encode_char c = Some ec -> scalar c.
Proof.
  unfold utf8_encode_char, scalar.
  destruct (N.ltb_spec c 0x80); [lia|].
  destruct (N.ltb_spec c 0x800); [lia|].
  destruct (N.leb_spec 0xD800 c), (N.leb_spec c 0xDFFF); cbn [andb];
    try discriminate;
    (destruct (N.ltb_spec c 0x10000); [lia|]);
    (destruct (N.ltb_spec c 0x110000); [lia|discriminate]).
Qed.

Lemma utf8_encode_Some (s : pystr) (bs : pybytes) :
  utf8_encode s = Some bs -> encodable s.
Proof.
  revert bs. induction s as [|c s IH]; intros bs; [constructor|].
  cbn [utf8_encode]. destruct (utf8_encode_char c) as [ec|] eqn:Hc; [|discriminate].
  destruct (utf8_encode s) as [bs'|]; [|discriminate]. intros _.
  constructor; [now apply (utf8_encode_char_Some c ec)|now apply (IH bs')].
Qed.

(** Decoding the octets of one encoded character gives the character
    back. *)
Lemma utf8_decode_encode_char (c : N) (ec rest : pybytes) :
  utf8_encode_char c = Some ec ->
  utf8_decode_replace (ec ++ rest) = c :: utf8_decode_replace rest.
Proof.
  unfold utf8_encode_char.
  destruct (digits c) as (C0 & C1 & C2 & C3 & C4 & C5 & C6 & C7).
  rewrite C6, C7.
  set (c1 := c / 64) in *. set (c2 := c1 / 64) in *. set (c3 := c2 / 64) in *.
  set (c0 := c mod 64) in *. set (c10 := c1 mod 64) in *.
  set (c20 := c2 mod 64) in *.
  clearbody c0 c1 c10 c2 c20 c3.
  destruct (N.ltb_spec c 0x80) as [H1|H1].
  { intros [= <-]. cbn [app utf8_decode_replace].
    destruct (N.ltb_spec c 0x80); [reflexivity|lia]. }
  destruct (N.ltb_spec c 0x800) as [H2|H2].
  { intros [= <-]. cbn [app utf8_decode_replace]. unfold is_cont.
    conds; f_equal; lia. }
  destruct (N.leb_spec 0xD800 c) as [H3|H3], (N.leb_spec c 0xDFFF) as [H4|H4];
    cbn [andb]; try discriminate.
  - destruct (N.ltb_spec c 0x10000) as [H5|H5].
    { intros [= <-]. cbn [app utf8_decode_replace]. unfold is_cont.
      conds; f_equal; lia. }
    destruct (N.ltb_spec c 0x110000) as [H6|H6]; [|discriminate].
    intros [= <-]. cbn [app utf8_decode_replace]. unfold is_cont.
    conds; f_equal; lia.
  - destruct (N.ltb_spec c 0x10000) as [H5|H5]; [|lia].
    intros [= <-]. cbn [app utf8_decode_replace]. unfold is_cont.
    conds; f_equal; lia.
  - lia.
Qed.

(** Decoding inverts encoding: no replacement character appears. *)
Lemma utf8_decode_encode (s : pystr) (bs : pybytes) :
  utf8_encode s = Some bs -> utf8_decode_replace bs = s.
Proof.
  revert bs. induction s as [|c s IH]; intros bs.
  - intros [= <-]. reflexivity.
  - cbn [utf8_encode]. destruct (utf8_encode_char c) as [ec|] eqn:Hc; [|discriminate].
    destruct (utf8_encode s) as [bs'|]; [|discriminate]. intros [= <-].
    rewrite (utf8_decode_encode_char c ec bs' Hc). f_equal. now apply IH.
Qed.

End Utf8RoundTrip.

Section Splitting.

Lemma split_nonempty (sep : N) (s : pystr) : split sep s <> [].
Proof.
  destruct s as [|c s]; cbn [split]; [discriminate|].
  destruct (c =? sep); [discriminate|]. destruct (split sep s); discriminate.
Qed.

Lemma split_no_sep (sep : N) (s : pystr) :
  contains sep s = false -> split sep s = [s].
Proof.
  unfold contains. induction s as [|c s IH]; [reflexivity|].
  cbn [existsb split]. rewrite N.eqb_sym. destruct (c =? sep); [discriminate|].
  cbn [orb]. intros H. now rewrite (IH H).
Qed.

(** A separator after a piece that has none ends the first field. *)
Lemma split_first (sep : N) (p s : pystr) :
  contains sep p = false -> split sep (p ++ sep :: s) = p :: split sep s.
Proof.
  unfold contains. induction p as [|c p IH]; cbn [existsb app split].
  - now rewrite N.eqb_refl.
  - rewrite N.eqb_sym. destruct (c =? sep); [discriminate|]. cbn [orb].
    intros H. now rewrite (IH H).
Qed.

Lemma split1_first (sep : N) (p s : pystr) :
  contains sep p = false -> split1 sep (p ++ sep :: s) = [p; s].
Proof.
  unfold contains. induction p as [|c p IH]; cbn [existsb app split1].
  - now rewrite N.eqb_refl.
  - rewrite N.eqb_sym. destruct (c =? sep); [discriminate|]. cbn [orb].
    intros H. now rewrite (IH H).
Qed.

(** Splitting undoes joining when no part holds the separator. *)
Lemma split_join (sep : N) (parts : list pystr) :
  parts <> [] -> Forall (fun p => contains sep p = false) parts ->
  split sep (join [sep] parts) = parts.
Proof.
  intros Hne H. induction H as [|p ps Hp Hps IH]; [contradiction|].
  cbn [join]. destruct ps as [|q ps].
  - now apply split_no_sep.
  - cbn [app]. rewrite split_first by exact Hp. f_equal. now apply IH.
Qed.

Lemma contains_app (c : N) (s t : pystr) :
  contains c (s ++ t) = contains c s || contains c t.
Proof. unfold contains. apply existsb_app. Qed.

Lemma contains_Forall (c : N) (P : N -> Prop) (s : pystr) :
  Forall P s -> ~ P c -> contains c s = false.
Proof.
  intros H Hc. unfold contains. induction H as [|x s Hx Hs IH]; [reflexivity|].
  cbn [existsb]. rewrite IH, orb_false_r. apply N.eqb_neq. now intros <-.
Qed.

Lemma contains_join (c sep : N) (parts : list pystr) :
  c <> sep -> Forall (fun p => contains c p = false) parts ->
  contains c (join [sep] parts) = false.
Proof.
  intros Hc. induction 1 as [|p ps Hp Hps IH]; [reflexivity|].
  cbn [join]. destruct ps as [|q ps]; [exact Hp|].
  rewrite contains_app, Hp. cbn [app orb]. unfold contains in *. cbn [existsb].
  rewrite IH, orb_false_r. now apply N.eqb_neq.
Qed.

End Splitting.

Section EncodedText.

Import Auth Urllib Closed.

(** The characters [encode_oauth] writes: unreserved, percent or plus. *)
Lemma hexdigit_upper_unreserved (n : N) :
  n < 16 -> Spec.unreserved (hexdigit_upper n) = true.
Proof.
  intros H. unfold hexdigit_upper, Spec.unreserved.
  destruct (N.ltb_spec n 10).
  - replace ((48 <=? 48 + n) && (48 + n <=? 57)) with true; [now rewrite orb_true_r|].
    symmetry. apply andb_true_iff. split; apply N.leb_le; lia.
  - replace ((65 <=? 55 + n) && (55 + n <=? 90)) with true; [reflexivity|].
    symmetry. apply andb_true_iff. split; apply N.leb_le; lia.
Qed.

Lemma oauth_octet_alphabet (b : N) :
  b < 256 ->
  Forall (fun c => Spec.unreserved c = true \/ c = 37 \/ c = 43) (oauth_octet b).
Proof.
  intros Hb. unfold oauth_octet, Spec.percent_encode_octet.
  destruct (b =? 32); [apply Forall_cons; split; [tauto|constructor]|].
  destruct (Spec.unreserved b) eqn:Hu; [apply Forall_cons; split; [tauto|constructor]|].
  apply Forall_cons. split; [tauto|]. apply Forall_cons. split.
  { left. apply hexdigit_upper_unreserved. apply N.Div0.div_lt_upper_bound; lia. }
  apply Forall_cons. split; [|constructor].
  left. apply hexdigit_upper_unreserved. apply N.mod_lt. lia.
Qed.

Lemma encode_oauth_Ok (s t : pystr) :
  encode_oauth s = Ok t ->
  exists bs, utf8_encode s = Some bs /\ Forall (fun b => b < 256) bs
             /\ t = List.concat (List.map oauth_octet bs).
Proof.
  rewrite encode_oauth_octets. unfold encode.
  destruct (utf8_encode s) as [bs|] eqn:Hs; [|discriminate].
  cbn [bind]. intros [= <-]. exists bs. split; [reflexivity|]. split; [|reflexivity].
  destruct (encodable_utf8 s (utf8_encode_Some s bs Hs)) as (bs' & Hbs' & Hlt).
  congruence.
Qed.

Lemma encode_oauth_chars (s t : pystr) :
  encode_oauth s = Ok t ->
  Forall (fun c => Spec.unreserved c = true \/ c = 37 \/ c = 43) t.
Proof.
  intros H. destruct (encode_oauth_Ok s t H) as (bs & _ & Hlt & ->). clear H.
  induction Hlt as [|b bs Hb Hlt IH]; [constructor|].
  cbn [List.map List.concat]. apply Forall_app. split; [|exact IH].
  now apply oauth_octet_alphabet.
Qed.

(** So the encoded text holds none of the characters that delimit it. *)
Lemma encode_oauth_free (c : N) (s t : pystr) :
  Spec.unreserved c = false -> c <> 37 -> c <> 43 ->
  encode_oauth s = Ok t -> contains c t = false.
Proof.
  intros Hu H37 H43 H. apply (contains_Forall c _ t (encode_oauth_chars s t H)).
  intros [Hc|[Hc|Hc]]; congruence.
Qed.

Lemma hexval_hexdigit_upper (n : N) : n < 16 -> hexval (hexdigit_upper n) = Some n.
Proof.
  intros H. unfold hexval, hexdigit_upper.
  destruct (N.ltb_spec n 10).
  - replace ((48 <=? 48 + n) && (48 + n <=? 57)) with true.
    + f_equal. lia.
    + symmetry. apply andb_true_iff. split; apply N.leb_le; lia.
  - replace ((48 <=? 55 + n) && (55 + n <=? 57)) with false.
    + replace ((65 <=? 55 + n) && (55 + n <=? 70)) with true.
      * f_equal. lia.
      * symmetry. apply andb_true_iff. split; apply N.leb_le; lia.
    + symmetry. apply andb_false_iff. right. apply N.leb_gt. lia.
Qed.

Lemma hexdigit_upper_not_percent (n : N) : (hexdigit_upper n =? 37) = false.
Proof. unfold hexdigit_upper. destruct (n <? 10); apply N.eqb_neq; lia. Qed.

(** What [parse_qsl] sees of one encoded octet once the plus signs are
    spaces again. *)
Lemma replace_oauth_octet (b : N) :
  replace_char 43 32 (oauth_octet b)
  = if b =? 32 then [32] else Spec.percent_encode_octet b.
Proof.
  unfold oauth_octet. destruct (b =? 32); [reflexivity|].
  pose proof (percent_encode_octet_no_plus b) as H. unfold contains in H.
  unfold replace_char. induction (Spec.percent_encode_octet b) as [|c l IH];
    [reflexivity|].
  cbn [existsb] in H. apply orb_false_iff in H. destruct H as [Hc Hl].
  cbn [List.map]. rewrite N.eqb_sym, Hc. f_equal. now apply IH.
Qed.

Lemma replace_char_app (a b : N) (s t : pystr) :
  replace_char a b (s ++ t) = replace_char a b s ++ replace_char a b t.
Proof. unfold replace_char. apply List.map_app. Qed.

(** The pieces between percent signs, each unquoted, give the octets
    back. *)
Lemma unquote_pieces (bs : pybytes) :
  Forall (fun b => b < 256) bs ->
  let pieces := split 37 (replace_char 43 32 (List.concat (List.map oauth_octet bs))) in
  List.hd [] pieces ++ List.concat (List.map unquote_item (List.tl pieces)) = bs.
Proof.
  cbv zeta. induction 1 as [|b bs Hb Hbs IH]; [reflexivity|].
  cbn [List.map List.concat]. rewrite replace_char_app, replace_oauth_octet.
  set (r := replace_char 43 32 (List.concat (List.map oauth_octet bs))) in *.
  pose proof (split_nonempty 37 r) as Hne.
  destruct (N.eqb_spec b 32) as [->|H32].
  { cbn [app split]. change (32 =? 37) with false. cbv iota.
    destruct (split 37 r) as [|hd tl]; [contradiction|].
    cbn [List.hd List.tl] in *. cbn [app]. now rewrite IH. }
  unfold Spec.percent_encode_octet. destruct (Spec.unreserved b) eqn:Hu.
  { cbn [app split]. destruct (N.eqb_spec b 37) as [->|H37]; [discriminate Hu|].
    destruct (split 37 r) as [|hd tl]; [contradiction|].
    cbn [List.hd List.tl] in *. cbn [app]. now rewrite IH. }
  cbn [app split]. rewrite N.eqb_refl, !hexdigit_upper_not_percent.
  destruct (split 37 r) as [|hd tl]; [contradiction|].
  cbn [List.hd List.tl List.map List.concat app] in *.
  unfold unquote_item at 1.
  assert (Hq : b / 16 < 16) by (apply N.Div0.div_lt_upper_bound; lia).
  assert (Hr : b mod 16 < 16) by (apply N.mod_lt; lia).
  rewrite !hexval_hexdigit_upper by assumption.
  cbn [app]. rewrite IH. f_equal. symmetry. apply N.div_mod'.
Qed.

Lemma split_single (sep : N) (s p : pystr) : split sep s = [p] -> p = s.
Proof.
  revert p. induction s as [|c s IH]; intros p; cbn [split].
  - now intros [= <-].
  - pose proof (split_nonempty sep s) as Hne.
    destruct (c =? sep); [intros [= _ E]; contradiction|].
    destruct (split sep s) as [|w [|w' ws]] eqn:E; [contradiction| |discriminate].
    intros [= <-]. f_equal. now apply IH.
Qed.

Lemma unquote_to_bytes_pieces (s : pystr) :
  unquote_to_bytes s
  = List.hd [] (split 37 s) ++ List.concat (List.map unquote_item (List.tl (split 37 s))).
Proof.
  unfold unquote_to_bytes. pose proof (split_nonempty 37 s) as Hne.
  destruct (split 37 s) as [|hd [|x tl]] eqn:E; [contradiction| |reflexivity].
  cbn. rewrite app_nil_r. symmetry. now apply split_single in E.
Qed.

Lemma ascii_runs_ascii (s : pystr) :
  s <> [] -> Forall (fun c => c < 128) s -> ascii_runs s = [(true, s)].
Proof.
  intros Hne H. induction H as [|c s Hc Hs IH]; [contradiction|].
  cbn [ascii_runs]. apply N.ltb_lt in Hc. rewrite Hc.
  destruct s as [|d s]; [reflexivity|]. rewrite IH by discriminate. reflexivity.
Qed.

Lemma utf8_decode_ascii (bs : pybytes) :
  Forall (fun c => c < 128) bs -> utf8_decode_replace bs = bs.
Proof.
  induction 1 as [|b bs Hb Hbs IH]; [reflexivity|].
  cbn [utf8_decode_replace]. apply N.ltb_lt in Hb. rewrite Hb. now rewrite IH.
Qed.

Lemma replace_char_ascii (s : pystr) :
  Forall (fun c => c < 128) s -> Forall (fun c => c < 128) (replace_char 43 32 s).
Proof. intros H. apply replace_char_Forall; [lia|exact H]. Qed.

(** Unquoting as [parse_qsl] does it inverts [encode_oauth]. *)
Lemma unquote_encode_oauth (s t : pystr) :
  encode_oauth s = Ok t -> unquote (replace_char 43 32 t) = s.
Proof.
  intros H. destruct (encode_oauth_Ok s t H) as (bs & Hbs & Hlt & Ht).
  assert (Hascii : Forall (fun c => c < 128) (replace_char 43 32 t)).
  { apply replace_char_ascii.
    destruct (encode_oauth_encodable s (utf8_encode_Some s bs Hbs)) as (t' & Ht' & Ha).
    congruence. }
  assert (Hb : unquote_to_bytes (replace_char 43 32 t) = bs).
  { rewrite unquote_to_bytes_pieces, Ht. now apply unquote_pieces. }
  unfold unquote. destruct (contains 37 (replace_char 43 32 t)) eqn:Hp; cbn [negb].
  - rewrite ascii_runs_ascii; [|intros E; rewrite E in Hp; discriminate|exact Hascii].
    cbn [List.map List.concat fst snd]. rewrite app_nil_r, Hb.
    now apply utf8_decode_encode.
  - assert (Hsame : replace_char 43 32 t = bs).
    { rewrite <- Hb. unfold unquote_to_bytes. now rewrite split_no_sep. }
    rewrite Hsame in *. rewrite <- (utf8_decode_encode s bs Hbs).
    symmetry. now apply utf8_decode_ascii.
Qed.

End EncodedText.

(** ** Queries written with [encode_oauth] *)

Section QueryRoundTrip.

Import Auth Urllib Closed Shape.

Lemma encode_oauth_nonempty (s t : pystr) :
  s <> [] -> encode_oauth s = Ok t -> t <> [].
Proof.
  intros Hs H ->. apply Hs. rewrite <- (unquote_encode_oauth s [] H). reflexivity.
Qed.

Lemma encoded_field_free (c : N) kv field :
  Spec.unreserved c = false -> c <> 37 -> c <> 43 -> c <> 61 ->
  encoded_field kv field -> contains c field = false.
Proof.
  intros Hu H37 H43 H61 (ek & ev & Hk & Hv & ->).
  rewrite !contains_app, (encode_oauth_free c _ ek Hu H37 H43 Hk),
    (encode_oauth_free c _ ev Hu H37 H43 Hv).
  unfold contains. cbn [existsb orb]. rewrite !orb_false_r. now apply N.eqb_neq.
Qed.

Lemma parse_field_encoded kv field :
  snd kv <> [] -> encoded_field kv field -> parse_field field = [kv].
Proof.
  intros Hv (ek & ev & Hek & Hev & ->). destruct kv as [k v]. cbn [fst snd] in *.
  unfold parse_field.
  destruct (ek ++ [61] ++ ev) as [|c l] eqn:E.
  { apply app_eq_nil in E. destruct E as [_ E]. discriminate E. }
  rewrite <- E. cbn [app].
  rewrite split1_first by now apply (encode_oauth_free 61 k).
  pose proof (encode_oauth_nonempty v ev Hv Hev) as Hne.
  destruct ev as [|e ev]; [contradiction|].
  now rewrite (unquote_encode_oauth k ek Hek), (unquote_encode_oauth v _ Hev).
Qed.

Lemma parse_qsl_encoded (pairs : list (pystr * pystr)) (fields : list pystr) :
  Forall (fun kv => snd kv <> []) pairs ->
  Forall2 encoded_field pairs fields ->
  parse_qsl (join [38] fields) = pairs.
Proof.
  intros Hv H. unfold parse_qsl.
  destruct fields as [|f fields].
  { inversion H. reflexivity. }
  assert (Hfree : Forall (fun p => contains 38 p = false) (f :: fields)).
  { clear Hv. induction H as [|kv g pairs gs Hg H IH]; constructor.
    - now apply (encoded_field_free 38 kv).
    - destruct gs; [constructor|]. apply IH. }
  assert (Hq : join [38] (f :: fields) <> []).
  { inversion H as [|kv g ps gs (ek & ev & _ & _ & Hg) _]; subst.
    cbn [join]. destruct fields; intros E.
    - apply app_eq_nil in E. destruct E as [_ E]. discriminate E.
    - apply app_eq_nil in E. destruct E as [E _].
      apply app_eq_nil in E. destruct E as [_ E]. discriminate E. }
  destruct (join [38] (f :: fields)) as [|c l] eqn:E; [contradiction|].
  rewrite <- E, split_join by (auto; discriminate).
  clear E Hq Hfree c l. revert Hv.
  induction H as [|kv g pairs gs Hg H IH]; intros Hv; [reflexivity|].
  apply Forall_cons in Hv. destruct Hv as [Hkv Hv].
  cbn [List.flat_map]. rewrite (parse_field_encoded kv g Hkv Hg).
  cbn [app]. f_equal. now apply IH.
Qed.

Lemma split_at_first_app (base query : pystr) :
  contains 63 base = false ->
  Spec.split_at_first_question_mark (base ++ 63 :: query) = (base, Some query).
Proof.
  unfold contains. induction base as [|c base IH];
    cbn [existsb app Spec.split_at_first_question_mark]; [reflexivity|].
  rewrite N.eqb_sym. destruct (c =? 63); [discriminate|]. cbn [orb].
  intros H. now rewrite (IH H).
Qed.

End QueryRoundTrip.

(** ** The encoder and the URL parser *)

Section EncoderProperties.

Import Auth Urllib Closed Shape.

(** X1. What [encode_oauth] returns is written with unreserved
    characters, percent signs and plus signs only: it holds no space, no
    quotation mark, no ampersand, no comma, no equals sign and no question
    mark, whatever the input. *)
Theorem encode_oauth_alphabet (s t : pystr) :
  encode_oauth s = Ok t ->
  Forall oauth_char t
  /\ contains 32 t = false /\ contains 34 t = false /\ contains 38 t = false
  /\ contains 44 t = false /\ contains 61 t = false /\ contains 63 t = false.
Proof.
  intros H. split; [exact (encode_oauth_chars s t H)|].
  repeat split; apply (encode_oauth_free _ s t); (reflexivity || lia || exact H).
Qed.

Lemma encode_oauth_alphabet_witness :
  encode_oauth (str "a b&c=d?") = Ok (str "a+b%26c%3Dd%3F")
  /\ Forall oauth_char (str "a+b%26c%3Dd%3F")
  /\ contains 32 (str "a+b%26c%3Dd%3F") = false
  /\ contains 34 (str "a+b%26c%3Dd%3F") = false
  /\ contains 38 (str "a+b%26c%3Dd%3F") = false
  /\ contains 44 (str "a+b%26c%3Dd%3F") = false
  /\ contains 61 (str "a+b%26c%3Dd%3F") = false
  /\ contains 63 (str "a+b%26c%3Dd%3F") = false.
Proof.
  assert (H : encode_oauth (str "a b&c=d?") = Ok (str "a+b%26c%3Dd%3F"))
    by (vm_compute; reflexivity).
  split; [exact H|]. exact (encode_oauth_alphabet _ _ H).
Defined.

(** X2. Decoding as the query parser does it (plus signs to spaces, then
    [unquote]) gives back the string [encode_oauth] was given: nothing is
    lost and no replacement character appears. So [encode_oauth] is
    injective: no other string has the same encoding. *)
Theorem encode_oauth_round_trip (s t : pystr) :
  encode_oauth s = Ok t ->
  unquote (replace_char 43 32 t) = s
  /\ forall s', encode_oauth s' = Ok t -> s' = s.
Proof.
  intros H. split; [exact (unquote_encode_oauth s t H)|].
  intros s' H'. rewrite <- (unquote_encode_oauth s t H).
  now rewrite <- (unquote_encode_oauth s' t H').
Qed.

Lemma encode_oauth_round_trip_witness :
  encode_oauth [97; 32; 43; 233; 8364; 128512]
  = Ok (str "a+%2B%C3%A9%E2%82%AC%F0%9F%98%80")
  /\ unquote (replace_char 43 32 (str "a+%2B%C3%A9%E2%82%AC%F0%9F%98%80"))
     = [97; 32; 43; 233; 8364; 128512]
  /\ forall s', encode_oauth s' = Ok (str "a+%2B%C3%A9%E2%82%AC%F0%9F%98%80") ->
                s' = [97; 32; 43; 233; 8364; 128512].
Proof.
  assert (H : encode_oauth [97; 32; 43; 233; 8364; 128512]
              = Ok (str "a+%2B%C3%A9%E2%82%AC%F0%9F%98%80"))
    by (vm_compute; reflexivity).
  split; [exact H|]. exact (encode_oauth_round_trip _ _ H).
Defined.

Lemma utf8_encode_app (s t : pystr) (bs bt : pybytes) :
  utf8_encode s = Some bs -> utf8_encode t = Some bt ->
  utf8_encode (s ++ t) = Some (bs ++ bt).
Proof.
  revert bs. induction s as [|c s IH]; intros bs.
  - intros [= <-] Ht. exact Ht.
  - cbn [utf8_encode app]. destruct (utf8_encode_char c) as [ec|]; [|discriminate].
    destruct (utf8_encode s) as [bs'|]; [|discriminate].
    intros [= <-] Ht. rewrite (IH bs' eq_refl Ht). now rewrite app_assoc.
Qed.

(** X3. [encode_oauth] goes through concatenation: the encoding of [s + t]
    is the encoding of [s] followed by that of [t]. *)
Theorem encode_oauth_concatenation (s t es et : pystr) :
  encode_oauth s = Ok es -> encode_oauth t = Ok et ->
  encode_oauth (s ++ t) = Ok (es ++ et).
Proof.
  intros Hs Ht.
  destruct (encode_oauth_Ok s es Hs) as (bs & Hbs & _ & ->).
  destruct (encode_oauth_Ok t et Ht) as (bt & Hbt & _ & ->).
  rewrite encode_oauth_octets. unfold encode.
  rewrite (utf8_encode_app s t bs bt Hbs Hbt). cbn [bind].
  now rewrite List.map_app, List.concat_app.
Qed.

Lemma encode_oauth_concatenation_witness :
  encode_oauth (str "a b") = Ok (str "a+b")
  /\ encode_oauth (str "&c") = Ok (str "%26c")
  /\ encode_oauth (str "a b" ++ str "&c") = Ok (str "a+b" ++ str "%26c").
Proof.
  assert (H : encode_oauth (str "a b") = Ok (str "a+b")) by (vm_compute; reflexivity).
  assert (H' : encode_oauth (str "&c") = Ok (str "%26c")) by (vm_compute; reflexivity).
  split; [exact H|]. split; [exact H'|].
  exact (encode_oauth_concatenation _ _ _ _ H H').
Defined.

(** X4. [encode_oauth] raises on exactly the strings that hold a code
    point UTF-8 cannot encode (a lone surrogate), and what it raises then
    is [UnicodeEncodeError]; on every other string it returns. *)
Theorem encode_oauth_raises (s : pystr) :
  match encode_oauth s with
  | Ok _ => encodable s
  | Raise e => e = UnicodeEncodeError /\ ~ encodable s
  end.
Proof.
  rewrite encode_oauth_octets. unfold encode.
  destruct (utf8_encode s) as [bs|] eqn:Hs; cbn [bind].
  - now apply (utf8_encode_Some s bs).
  - split; [reflexivity|]. intros He.
    destruct (encodable_utf8 s He) as (bs & Hbs & _). congruence.
Qed.

End EncoderProperties.

Section UrlParsingProperties.

Import Auth Urllib Closed Shape.

Lemma add_first_fold_Forall (P : pystr * pystr -> Prop)
  (pairs : list (pystr * pystr)) (acc : dict pystr) :
  Forall P acc -> Forall P pairs -> Forall P (List.fold_left add_first pairs acc).
Proof.
  intros Hacc Hp. revert acc Hacc.
  induction Hp as [|[k v] pairs Hkv Hp IH]; intros acc Hacc; [exact Hacc|].
  cbn [List.fold_left]. apply IH. unfold add_first. cbn [fst snd].
  destruct (dict_get acc k); [exact Hacc|]. now apply dict_set_Forall.
Qed.

Lemma add_first_fold_NoDup (pairs : list (pystr * pystr)) (acc : dict pystr) :
  NoDup (dict_keys acc) -> NoDup (dict_keys (List.fold_left add_first pairs acc)).
Proof.
  revert acc. induction pairs as [|[k v] pairs IH]; intros acc Hacc; [exact Hacc|].
  cbn [List.fold_left]. apply IH. unfold add_first. cbn [fst snd].
  destruct (dict_get acc k); [exact Hacc|]. now apply dict_set_NoDup.
Qed.

Lemma utf8_decode_replace_nonempty (bs : pybytes) :
  bs <> [] -> utf8_decode_replace bs <> [].
Proof.
  destruct bs as [|b0 t]; [contradiction|]. intros _.
  cbn [utf8_decode_replace].
  repeat match goal with
  | |- (if ?c then _ else _) <> [] => destruct c
  | |- match ?l with [] => _ | _ :: _ => _ end <> [] => destruct l
  | |- _ :: _ <> [] => discriminate
  end.
Qed.

Lemma unquote_item_nonempty (item : pybytes) : unquote_item item <> [].
Proof.
  unfold unquote_item. destruct item as [|h [|l rest]]; try discriminate.
  destruct (hexval h), (hexval l); discriminate.
Qed.

Lemma unquote_to_bytes_nonempty (s : pystr) : s <> [] -> unquote_to_bytes s <> [].
Proof.
  intros Hs. unfold unquote_to_bytes.
  destruct (split 37 s) as [|bits0 [|item items]]; try exact Hs.
  cbn [List.map List.concat]. intros E. apply app_eq_nil in E. destruct E as [_ E].
  apply app_eq_nil in E. destruct E as [E _]. now apply unquote_item_nonempty in E.
Qed.

Lemma ascii_runs_head (s : pystr) :
  s <> [] -> exists a r rs, ascii_runs s = (a, r) :: rs /\ r <> [].
Proof.
  destruct s as [|c s]; [contradiction|]. intros _. cbn [ascii_runs].
  destruct (ascii_runs s) as [|[a' r] rs].
  - eexists _, _, _. split; [reflexivity|discriminate].
  - destruct (Bool.eqb (c <? 128) a'); eexists _, _, _; (split; [reflexivity|discriminate]).
Qed.

Lemma unquote_nonempty (s : pystr) : s <> [] -> unquote s <> [].
Proof.
  intros Hs. unfold unquote. destruct (negb (contains 37 s)); [exact Hs|].
  destruct (ascii_runs_head s Hs) as (a & r & rs & -> & Hr).
  cbn [List.map List.concat fst snd]. intros E. apply app_eq_nil in E.
  destruct E as [E _]. destruct a; [|contradiction].
  exact (utf8_decode_replace_nonempty _ (unquote_to_bytes_nonempty r Hr) E).
Qed.

Lemma replace_char_nonempty (a b : N) (s : pystr) : s <> [] -> replace_char a b s <> [].
Proof. destruct s; [contradiction|discriminate]. Qed.

Lemma parse_qsl_values (qs : pystr) :
  Forall (fun kv : pystr * pystr => snd kv <> []) (parse_qsl qs).
Proof.
  unfold parse_qsl.
  induction (match qs with [] => [] | _ => split 38 qs end) as [|f fs IH];
    [constructor|].
  cbn [List.flat_map]. apply Forall_app. split; [|exact IH].
  unfold parse_field. destruct f as [|c f]; [constructor|].
  destruct (split1 61 (c :: f)) as [|name [|value [|x xs]]]; try constructor.
  destruct value as [|v value]; [constructor|].
  constructor; [|constructor]. cbn [snd].
  apply unquote_nonempty, replace_char_nonempty. discriminate.
Qed.

Lemma split_at_first_spec (url : pystr) :
  let (base, query) := Spec.split_at_first_question_mark url in
  contains 63 base = false
  /\ match query with
     | None => url = base /\ contains 63 url = false
     | Some q => url = base ++ 63 :: q /\ contains 63 url = true
     end.
Proof.
  unfold contains. induction url as [|c url IH];
    cbn [Spec.split_at_first_question_mark existsb]; [now repeat split|].
  rewrite (N.eqb_sym 63 c). destruct (N.eqb_spec c 63) as [->|Hc].
  - now repeat split.
  - destruct (Spec.split_at_first_question_mark url) as [base [q|]];
      cbn [existsb orb]; rewrite (N.eqb_sym 63 c);
      (destruct (N.eqb_spec c 63); [contradiction|]);
      destruct IH as (Hb & -> & Hu); cbn [orb]; repeat split; auto.
Qed.

(** X5. On every [str], [parse_url_parameters] returns: the base URL is
    the text before the first question mark, and the parameters are
    [None] exactly when the URL has no question mark. Parameters that are
    a dictionary have pairwise distinct names and no empty value: a field
    whose value is empty is dropped. *)
Theorem parse_url_parameters_shape (url : pystr) :
  exists base_url parameters,
    parse_url_parameters (PStr url) = Ok (base_url, parameters)
    /\ contains 63 base_url = false
    /\ match parameters with
       | None => url = base_url
       | Some d =>
           (exists rest, url = base_url ++ [63] ++ rest)
           /\ NoDup (dict_keys d)
           /\ Forall (fun kv : pystr * pystr => snd kv <> []) d
       end.
Proof.
  rewrite parse_url_parameters_closed.
  pose proof (split_at_first_spec url) as H.
  destruct (Spec.split_at_first_question_mark url) as [base [query|]].
  - destruct H as (Hb & Hu & _). rewrite first_values_parse_qs. cbn [bind].
    eexists _, _. split; [reflexivity|]. split; [exact Hb|].
    split; [now exists query|]. split.
    + apply add_first_fold_NoDup. constructor.
    + apply add_first_fold_Forall; [constructor|apply parse_qsl_values].
  - destruct H as (Hb & Hu & _). eexists _, _. split; [reflexivity|].
    split; [exact Hb|exact Hu].
Qed.

Lemma first_occurrences_distinct (pairs : list (pystr * pystr)) :
  NoDup (List.map fst pairs) -> first_occurrences pairs = pairs.
Proof.
  unfold first_occurrences. intros H.
  enough (G : forall acc, (forall k, In k (List.map fst pairs) -> ~ In k (dict_keys acc)) ->
                          List.fold_left add_first pairs acc = acc ++ pairs)
    by (apply (G []); intros k _ []).
  induction pairs as [|[k v] pairs IH]; intros acc Hacc.
  - now rewrite app_nil_r.
  - cbn [List.map fst] in H. apply NoDup_cons in H. destruct H as [Hk H].
    cbn [List.fold_left]. unfold add_first at 2. cbn [fst snd].
    assert (Hget : dict_get acc k = None).
    { apply dict_get_None. apply Hacc. now left. }
    rewrite Hget, dict_set_fresh by (apply Hacc; now left).
    rewrite IH; [now rewrite <- app_assoc|exact H|].
    intros k' Hk'. unfold dict_keys. rewrite List.map_app, in_app_iff.
    intros [Hin|[<-|[]]].
    + apply (Hacc k'); [now right|exact Hin].
    + apply Hk. now apply list_elem_of_In.
Qed.

(** X6. A URL written with [encode_oauth] is read back by
    [parse_url_parameters]: for a base URL without a question mark and
    pairs with non-empty values, the query made of the fields
    [encode(name)=encode(value)] joined by ampersands parses to the base
    URL and the pairs themselves, each name with its first value (to the
    list of pairs as it is when the names are distinct). *)
Theorem parse_url_parameters_encoded_query (base_url : pystr)
  (pairs : list (pystr * pystr)) (fields : list pystr) :
  contains 63 base_url = false ->
  Forall (fun kv : pystr * pystr => snd kv <> []) pairs ->
  Forall2 encoded_field pairs fields ->
  parse_url_parameters (PStr (base_url ++ [63] ++ join [38] fields))
  = Ok (base_url, Some (first_occurrences pairs))
  /\ (NoDup (List.map fst pairs) -> first_occurrences pairs = pairs).
Proof.
  intros Hb Hv Hf. split; [|apply first_occurrences_distinct].
  rewrite parse_url_parameters_closed. cbn [app].
  rewrite split_at_first_app by exact Hb.
  assert (Hq : contains 63 (join [38] fields) = false).
  { apply contains_join; [lia|]. clear Hv.
    induction Hf as [|kv g ps gs Hg Hf IH]; constructor; [|exact IH].
    now apply (encoded_field_free 63 kv). }
  rewrite split_at_first_no_mark by exact Hq. cbn [fst].
  rewrite first_values_parse_qs, (parse_qsl_encoded pairs fields Hv Hf).
  reflexivity.
Qed.

Lemma parse_url_parameters_encoded_query_witness :
  contains 63 (str "https://x.test/a") = false
  /\ Forall (fun kv : pystr * pystr => snd kv <> [])
            [(str "q", str "a b&c"); ([233], str "1=2")]
  /\ Forall2 encoded_field [(str "q", str "a b&c"); ([233], str "1=2")]
                           [str "q=a+b%26c"; str "%C3%A9=1%3D2"]
  /\ parse_url_parameters
       (PStr (str "https://x.test/a" ++ [63]
                ++ join [38] [str "q=a+b%26c"; str "%C3%A9=1%3D2"]))
     = Ok (str "https://x.test/a",
           Some (first_occurrences [(str "q", str "a b&c"); ([233], str "1=2")]))
  /\ (NoDup (List.map fst [(str "q", str "a b&c"); ([233], str "1=2")]) ->
      first_occurrences [(str "q", str "a b&c"); ([233], str "1=2")]
      = [(str "q", str "a b&c"); ([233], str "1=2")]).
Proof.
  assert (H1 : contains 63 (str "https://x.test/a") = false) by reflexivity.
  assert (H2 : Forall (fun kv : pystr * pystr => snd kv <> [])
                      [(str "q", str "a b&c"); ([233], str "1=2")])
    by (repeat constructor; discriminate).
  assert (H3 : Forall2 encoded_field [(str "q", str "a b&c"); ([233], str "1=2")]
                                     [str "q=a+b%26c"; str "%C3%A9=1%3D2"]).
  { constructor; [|constructor; [|constructor]].
    - exists (str "q"), (str "a+b%26c"). repeat split; vm_compute; reflexivity.
    - exists (str "%C3%A9"), (str "1%3D2"). repeat split; vm_compute; reflexivity. }
  split; [exact H1|]. split; [exact H2|]. split; [exact H3|].
  exact (parse_url_parameters_encoded_query _ _ _ H1 H2 H3).
Defined.

End UrlParsingProperties.

(** ** The nonce and the timestamp *)

Section PlainText.

Import Auth Urllib Closed Shape.

(** Text made of unreserved characters is its own encoding. *)
Lemma encode_oauth_unreserved (s : pystr) :
  Forall (fun c => Spec.unreserved c = true) s -> encode_oauth s = Ok s.
Proof.
  intros H. rewrite encode_oauth_octets. unfold encode.
  rewrite utf8_encode_ascii.
  - cbn [bind]. f_equal. induction H as [|c s Hc Hs IH]; [reflexivity|].
    cbn [List.map List.concat]. rewrite IH. unfold oauth_octet, Spec.percent_encode_octet.
    rewrite Hc. destruct (N.eqb_spec c 32) as [->|]; [discriminate Hc|reflexivity].
  - eapply Forall_impl; [exact H|]. intros c Hc. now apply unreserved_below.
Qed.

Lemma encode_oauth_error (s : pystr) (e : exn) :
  encode_oauth s = Raise e -> e = UnicodeEncodeError.
Proof.
  rewrite encode_oauth_octets. unfold encode.
  destruct (utf8_encode s); cbn [bind]; [discriminate|]. now intros [= <-].
Qed.

Lemma hex_char_unreserved (c : N) : hex_char c -> Spec.unreserved c = true.
Proof.
  unfold hex_char, Spec.unreserved. intros [H|H].
  - replace ((48 <=? c) && (c <=? 57)) with true; [now rewrite orb_true_r|].
    symmetry. apply andb_true_iff. split; apply N.leb_le; lia.
  - replace ((97 <=? c) && (c <=? 122)) with true; [now rewrite orb_true_r|].
    symmetry. apply andb_true_iff. split; apply N.leb_le; lia.
Qed.

Lemma digit_char_unreserved (c : N) : digit_char c -> Spec.unreserved c = true.
Proof. intros H. apply hex_char_unreserved. now left. Qed.

Lemma hex_fixed_length (digits : nat) (n : N) : List.length (hex_fixed digits n) = digits.
Proof.
  revert n. induction digits as [|d IH]; intros n; [reflexivity|].
  cbn [hex_fixed]. rewrite List.length_app, IH. cbn. lia.
Qed.

Lemma hexdigit_lower_hex (n : N) : n < 16 -> hex_char (hexdigit_lower n).
Proof. intros H. unfold hex_char, hexdigit_lower. destruct (N.ltb_spec n 10); lia. Qed.

Lemma hex_fixed_hex (digits : nat) (n : N) : Forall hex_char (hex_fixed digits n).
Proof.
  revert n. induction digits as [|d IH]; intros n; [constructor|].
  cbn [hex_fixed]. apply Forall_app. split; [apply IH|].
  constructor; [|constructor]. apply hexdigit_lower_hex. apply N.mod_lt. lia.
Qed.

Lemma hexdigit_lower_inj (m n : N) :
  m < 16 -> n < 16 -> hexdigit_lower m = hexdigit_lower n -> m = n.
Proof.
  unfold hexdigit_lower. intros Hm Hn.
  destruct (N.ltb_spec m 10), (N.ltb_spec n 10); lia.
Qed.

(** Distinct numbers below [16 ^ digits] have distinct digits. *)
Lemma hex_fixed_inj (digits : nat) (m n : N) :
  m < 16 ^ N.of_nat digits -> n < 16 ^ N.of_nat digits ->
  hex_fixed digits m = hex_fixed digits n -> m = n.
Proof.
  revert m n. induction digits as [|d IH]; intros m n Hm Hn.
  - cbn in Hm, Hn. lia.
  - cbn [hex_fixed]. intros E. apply app_inj_tail in E. destruct E as [E1 E2].
    rewrite Nat2N.inj_succ, N.pow_succ_r' in Hm, Hn.
    apply hexdigit_lower_inj in E2; try (apply N.mod_lt; lia).
    apply IH in E1; try (apply N.Div0.div_lt_upper_bound; lia).
    rewrite (N.div_mod' m 16), (N.div_mod' n 16). congruence.
Qed.

End PlainText.

Section NonceAndTimestamp.

Import Auth Urllib Closed Shape.

(** X7. For UUIDs below [2 ^ 128], as all are, the nonce
    [generate_nonce] stores is a string of 64 lower-case hexadecimal
    digits, the 32 of the random UUID followed by the 32 of the time-based
    one; [encode_oauth] leaves it as it is, so the base string and the
    header carry the same nonce. *)
Theorem generate_nonce_digits (e : Entropy) (a : NetsuiteOAuth) :
  uuid4_int e < 2 ^ 128 -> uuid1_int e < 2 ^ 128 ->
  exists n,
    nonce (snd (generate_nonce e a)) = VStr n
    /\ List.length n = 64%nat
    /\ Forall hex_char n
    /\ encode_oauth n = Ok n.
Proof.
  intros _ _.
  exists (hex_fixed 32 (uuid4_int e) ++ hex_fixed 32 (uuid1_int e)).
  split; [reflexivity|]. split; [|split].
  - now rewrite List.length_app, !hex_fixed_length.
  - apply Forall_app. split; apply hex_fixed_hex.
  - apply encode_oauth_unreserved. apply Forall_app.
    split; (eapply Forall_impl; [apply hex_fixed_hex|apply hex_char_unreserved]).
Qed.

Lemma generate_nonce_digits_witness :
  uuid4_int Fixture.entropy0 < 2 ^ 128 /\ uuid1_int Fixture.entropy0 < 2 ^ 128
  /\ exists n,
       nonce (snd (generate_nonce Fixture.entropy0 Fixture.signer)) = VStr n
       /\ List.length n = 64%nat
       /\ Forall hex_char n
       /\ encode_oauth n = Ok n.
Proof.
  assert (H4 : uuid4_int Fixture.entropy0 < 2 ^ 128) by reflexivity.
  assert (H1 : uuid1_int Fixture.entropy0 < 2 ^ 128) by reflexivity.
  split; [exact H4|]. split; [exact H1|].
  exact (generate_nonce_digits Fixture.entropy0 Fixture.signer H4 H1).
Defined.

(** X8. Two nonces are equal only when both UUIDs are: as long as one of
    the two 128-bit UUIDs differs from one call to another, so does the
    nonce. *)
Theorem generate_nonce_injective (e e' : Entropy) (a a' : NetsuiteOAuth) :
  uuid4_int e < 2 ^ 128 -> uuid1_int e < 2 ^ 128 ->
  uuid4_int e' < 2 ^ 128 -> uuid1_int e' < 2 ^ 128 ->
  nonce (snd (generate_nonce e a)) = nonce (snd (generate_nonce e' a')) ->
  uuid4_int e = uuid4_int e' /\ uuid1_int e = uuid1_int e'.
Proof.
  intros H4 H1 H4' H1'. unfold generate_nonce, assign.
  cbn [snd set_nonce nonce]. intros E.
  assert (Hinj : forall x y : pystr, VStr x = VStr y -> x = y)
    by (intros x y H; now injection H).
  apply Hinj in E. apply app_inj_1 in E; [|now rewrite !hex_fixed_length].
  destruct E as [E4 E1].
  change (2 ^ 128) with (16 ^ N.of_nat 32) in *.
  split; now apply (hex_fixed_inj 32).
Qed.

Lemma generate_nonce_injective_witness :
  uuid4_int Fixture.entropy0 < 2 ^ 128 /\ uuid1_int Fixture.entropy0 < 2 ^ 128
  /\ nonce (snd (generate_nonce Fixture.entropy0 Fixture.signer))
     = nonce (snd (generate_nonce Fixture.entropy0 Fixture.stamped_signer))
  /\ uuid4_int Fixture.entropy0 = uuid4_int Fixture.entropy0
  /\ uuid1_int Fixture.entropy0 = uuid1_int Fixture.entropy0.
Proof.
  assert (H4 : uuid4_int Fixture.entropy0 < 2 ^ 128) by reflexivity.
  assert (H1 : uuid1_int Fixture.entropy0 < 2 ^ 128) by reflexivity.
  assert (E : nonce (snd (generate_nonce Fixture.entropy0 Fixture.signer))
              = nonce (snd (generate_nonce Fixture.entropy0 Fixture.stamped_signer)))
    by reflexivity.
  split; [exact H4|]. split; [exact H1|]. split; [exact E|].
  exact (generate_nonce_injective _ _ _ _ H4 H1 H4 H1 E).
Defined.

Lemma string_of_uint_digits (d : Decimal.uint) :
  Forall digit_char (str (NilEmpty.string_of_uint d)).
Proof.
  unfold str, digit_char.
  induction d; cbn [NilEmpty.string_of_uint list_ascii_of_string List.map];
    try constructor; try exact IHd; cbn; lia.
Qed.

Lemma str_of_int_digits (z : Z) :
  (0 <= z)%Z -> str_of_int z <> [] /\ Forall digit_char (str_of_int z).
Proof.
  intros Hz. unfold str_of_int. destruct z as [|p|p]; [| |lia].
  - cbn. split; [discriminate|]. repeat constructor; unfold digit_char; lia.
  - cbn [Z.to_int NilZero.string_of_int]. unfold NilZero.string_of_uint.
    pose proof (Unsigned.to_uint_nonnil p) as Hn.
    destruct (Pos.to_uint p) eqn:E; try contradiction;
      (split; [discriminate|rewrite <- E; apply string_of_uint_digits]).
Qed.

Lemma str_inj (s s' : string) : str s = str s' -> s = s'.
Proof.
  unfold str. revert s'. induction s as [|c s IH]; intros [|c' s']; try discriminate;
    [reflexivity|].
  cbn [list_ascii_of_string List.map]. intros [= Hc Hs].
  f_equal; [|now apply IH].
  rewrite <- (ascii_N_embedding c), <- (ascii_N_embedding c'). now rewrite Hc.
Qed.

Lemma str_of_int_inj (z z' : Z) : str_of_int z = str_of_int z' -> z = z'.
Proof.
  unfold str_of_int. intros E. apply str_inj in E.
  assert (Hisi : forall x, NilZero.int_of_string (NilZero.string_of_int (Z.to_int x))
                           = Some (Z.to_int x)).
  { intros x. apply NilZero.isi; destruct x; cbn [Z.to_int]; try discriminate;
      intros [= H]; now apply Unsigned.to_uint_nonnil in H. }
  pose proof (Hisi z) as H. rewrite E, Hisi in H. injection H as H.
  rewrite <- (DecimalZ.of_to z), <- (DecimalZ.of_to z'). now rewrite H.
Qed.

(** X9. With a clock that is not negative, the timestamp
    [generate_timestamp] stores is a non-empty string of decimal digits,
    which [encode_oauth] leaves as it is; the timestamps of two different
    seconds are different strings. *)
Theorem generate_timestamp_digits (e : Entropy) (a : NetsuiteOAuth) :
  (0 <= time_int e)%Z ->
  (exists t,
     timestamp (snd (generate_timestamp e a)) = VStr t
     /\ t <> [] /\ Forall digit_char t /\ encode_oauth t = Ok t)
  /\ forall e' a',
       timestamp (snd (generate_timestamp e' a')) = timestamp (snd (generate_timestamp e a)) ->
       time_int e' = time_int e.
Proof.
  intros Hz. destruct (str_of_int_digits _ Hz) as [Hne Hd]. split.
  - exists (str_of_int (time_int e)). split; [reflexivity|]. split; [exact Hne|].
    split; [exact Hd|]. apply encode_oauth_unreserved.
    eapply Forall_impl; [exact Hd|apply digit_char_unreserved].
  - intros e' a'. unfold generate_timestamp, assign.
    cbn [snd set_timestamp timestamp]. intros E.
    assert (Hinj : forall x y : pystr, VStr x = VStr y -> x = y)
      by (intros x y H; now injection H).
    apply Hinj in E. now apply str_of_int_inj.
Qed.

Lemma generate_timestamp_digits_witness :
  (0 <= time_int Fixture.entropy0)%Z
  /\ (exists t,
        timestamp (snd (generate_timestamp Fixture.entropy0 Fixture.signer)) = VStr t
        /\ t <> [] /\ Forall digit_char t /\ encode_oauth t = Ok t)
  /\ forall e' a',
       timestamp (snd (generate_timestamp e' a'))
       = timestamp (snd (generate_timestamp Fixture.entropy0 Fixture.signer)) ->
       time_int e' = time_int Fixture.entropy0.
Proof.
  assert (H : (0 <= time_int Fixture.entropy0)%Z) by (cbn; lia).
  split; [exact H|]. exact (generate_timestamp_digits Fixture.entropy0 Fixture.signer H).
Defined.

End NonceAndTimestamp.

(** ** The base string *)

Section BaseStringSteps.

Import Auth Urllib Closed Shape Frame.

Lemma parse_url_parameters_total (url : pystr) :
  exists base_url parameters, parse_url_parameters (PStr url) = Ok (base_url, parameters).
Proof.
  rewrite parse_url_parameters_closed.
  destruct (Spec.split_at_first_question_mark url) as [base [query|]].
  - rewrite first_values_parse_qs. cbn [bind]. now eexists _, _.
  - now eexists _, _.
Qed.

(** [generate_base_string] step by step: the stamps are written first,
    then the URL is parsed, the parameters are normalized and the base URL
    is encoded. *)
Lemma generate_base_string_steps e m (u : pystr) a base_url parameters :
  parse_url_parameters (PStr u) = Ok (base_url, parameters) ->
  let a2 := set_timestamp (VStr (str_of_int (time_int e)))
              (set_nonce (VStr (hex_fixed 32 (uuid4_int e)
                                  ++ hex_fixed 32 (uuid1_int e))) a) in
  generate_base_string e m (PStr u) a
  = match encode_oauth
            (join [38] (List.map name_value
                          (entries (add_query_parameters (protocol_parameters a2)
                                      parameters)))) with
    | Raise ex => (Raise ex, a2)
    | Ok normalized =>
        let a3 := set_normalized_request_parameters (VStr normalized) a2 in
        match encode_oauth base_url with
        | Raise ex => (Raise ex, a3)
        | Ok encoded_url =>
            (Ok tt,
             set_base_string
               (VStr (m ++ [38] ++ encoded_url ++ [38] ++ normalized)) a3)
        end
    end.
Proof.
  intros Hp a2. unfold generate_base_string, mbind, generate_nonce,
    generate_timestamp, assign, lift, read, reraise_KeyError.
  cbv beta iota. rewrite Hp. cbv beta iota. cbn [fst snd]. fold a2.
  rewrite normalize_request_parameters_closed.
  destruct (encode_oauth (join _ _)) as [normalized|ex] eqn:Hn.
  - cbv beta iota zeta. destruct (encode_oauth base_url) as [eu|ex]; [reflexivity|].
    reflexivity.
  - rewrite (encode_oauth_error _ _ Hn). reflexivity.
Qed.

End BaseStringSteps.

Section BaseStringProperties.

Import Auth Urllib Closed Shape Frame.

(** X10. For a URL that is a [str], [generate_base_string] returns or
    raises [UnicodeEncodeError], never [KeyError]: the handler that turns
    a [KeyError] of the normalization into the "Missing Key for parameter
    string" error cannot fire. For a URL that is [None], a [bool], an
    [int], a [float], a [list] or a [dict] the call raises
    [AttributeError]. *)
Theorem generate_base_string_raises (e : Entropy) (http_method : pystr)
  (url : pyobj) (a : NetsuiteOAuth) :
  match url with
  | PStr _ =>
      fst (generate_base_string e http_method url a) = Ok tt
      \/ fst (generate_base_string e http_method url a) = Raise UnicodeEncodeError
  | _ => fst (generate_base_string e http_method url a) = Raise AttributeError
  end.
Proof.
  destruct url as [| | | |u| |]; try reflexivity.
  destruct (parse_url_parameters_total u) as (base & params & Hp).
  rewrite (generate_base_string_steps e http_method u a base params Hp).
  cbv zeta. destruct (encode_oauth (join _ _)) as [normalized|ex] eqn:Hn.
  - destruct (encode_oauth base) as [eu|ex] eqn:Hb; cbn [fst].
    + now left.
    + right. now rewrite (encode_oauth_error _ _ Hb).
  - cbn [fst]. right. now rewrite (encode_oauth_error _ _ Hn).
Qed.

(** X11. The base string a successful call stores has three fields
    separated by ampersands: the method, the encoded base URL and the
    encoded parameter string. Neither encoded field holds an ampersand,
    so for a method without one, splitting the base string at the
    ampersands gives back exactly these three fields. *)
Theorem generate_base_string_fields (e : Entropy) (http_method u : pystr)
  (a : NetsuiteOAuth) :
  contains 38 http_method = false ->
  fst (generate_base_string e http_method (PStr u) a) = Ok tt ->
  exists base_url parameters encoded_url normalized text,
    parse_url_parameters (PStr u) = Ok (base_url, parameters)
    /\ encode_oauth base_url = Ok encoded_url
    /\ normalized_request_parameters
         (snd (generate_base_string e http_method (PStr u) a)) = VStr normalized
    /\ base_string (snd (generate_base_string e http_method (PStr u) a)) = VStr text
    /\ text = http_method ++ [38] ++ encoded_url ++ [38] ++ normalized
    /\ split 38 text = [http_method; encoded_url; normalized].
Proof.
  intros Hm. destruct (parse_url_parameters_total u) as (base & params & Hp).
  rewrite (generate_base_string_steps e http_method u a base params Hp).
  cbv zeta. destruct (encode_oauth (join _ _)) as [normalized|ex] eqn:Hn;
    [|discriminate].
  destruct (encode_oauth base) as [eu|ex] eqn:Hb; [|discriminate].
  intros _. cbn [snd].
  exists base, params, eu, normalized,
         (http_method ++ [38] ++ eu ++ [38] ++ normalized).
  split; [exact Hp|]. split; [exact Hb|]. split; [reflexivity|].
  split; [reflexivity|]. split; [reflexivity|].
  cbn [app]. rewrite split_first by exact Hm.
  rewrite split_first by now apply (encode_oauth_free 38 base).
  rewrite split_no_sep; [reflexivity|].
  eapply (encode_oauth_free 38); try exact Hn; (reflexivity || lia).
Qed.

Lemma generate_base_string_fields_witness :
  contains 38 (str "GET") = false
  /\ fst (generate_base_string Fixture.entropy0 (str "GET") (PStr Fixture.url_bc)
            Fixture.signer) = Ok tt
  /\ exists base_url parameters encoded_url normalized text,
       parse_url_parameters (PStr Fixture.url_bc) = Ok (base_url, parameters)
       /\ encode_oauth base_url = Ok encoded_url
       /\ normalized_request_parameters
            (snd (generate_base_string Fixture.entropy0 (str "GET")
                    (PStr Fixture.url_bc) Fixture.signer)) = VStr normalized
       /\ base_string
            (snd (generate_base_string Fixture.entropy0 (str "GET")
                    (PStr Fixture.url_bc) Fixture.signer)) = VStr text
       /\ text = str "GET" ++ [38] ++ encoded_url ++ [38] ++ normalized
       /\ split 38 text = [str "GET"; encoded_url; normalized].
Proof.
  assert (H1 : contains 38 (str "GET") = false) by reflexivity.
  assert (H2 : fst (generate_base_string Fixture.entropy0 (str "GET")
                      (PStr Fixture.url_bc) Fixture.signer) = Ok tt)
    by (vm_compute; reflexivity).
  split; [exact H1|]. split; [exact H2|].
  exact (generate_base_string_fields Fixture.entropy0 (str "GET") Fixture.url_bc
           Fixture.signer H1 H2).
Defined.

End BaseStringProperties.

(** ** The signature *)

Section SignatureSteps.

Import Auth Urllib Closed Shape Frame Hashlib.

(** [generate_signature] step by step. *)
Lemma generate_signature_steps (a : NetsuiteOAuth) :
  generate_signature a
  = match utf8_encode (format_value (consumer_secret a) ++ [38]
                         ++ format_value (token_secret a)) with
    | None => (Raise UnicodeEncodeError, a)
    | Some key =>
        match base_string a with
        | VNone => (Raise TypeError, a)
        | VStr text =>
            match utf8_encode text with
            | None => (Raise UnicodeEncodeError, a)
            | Some msg =>
                match encode_oauth (b64encode (hmac_sha256 key msg)) with
                | Ok sig => (Ok tt, set_signature (VStr sig) a)
                | Raise ex => (Raise ex, a)
                end
            end
        end
    end.
Proof.
  unfold generate_signature, mbind, read, lift, assign, encode, str_encode.
  cbv beta iota.
  destruct (utf8_encode (_ ++ _)) as [key|]; [|reflexivity].
  destruct (base_string a) as [|text]; [reflexivity|]. unfold encode.
  destruct (utf8_encode text) as [msg|]; [|reflexivity].
  destruct (encode_oauth _); reflexivity.
Qed.

Lemma compress_length (h : list N) (block : pybytes) :
  List.length h = 8%nat -> List.length (compress h block) = 8%nat.
Proof.
  intros H. unfold compress. rewrite List.length_map, List.length_combine, H.
  reflexivity.
Qed.

Lemma sha256_length (msg : pybytes) : List.length (sha256 msg) = 32%nat.
Proof.
  unfold sha256.
  assert (H : forall bl h, List.length h = 8%nat ->
                           List.length (List.fold_left compress bl h) = 8%nat).
  { induction bl as [|b bl IH]; intros h Hh; [exact Hh|].
    cbn [List.fold_left]. apply IH. now apply compress_length. }
  specialize (H (blocks (List.length (pad msg)) (pad msg)) H256 eq_refl).
  destruct (List.fold_left compress _ H256) as [|w0 [|w1 [|w2 [|w3 [|w4 [|w5 [|w6 [|w7 [|]]]]]]]]];
    try discriminate H.
  reflexivity.
Qed.

Lemma hmac_sha256_length (key msg : pybytes) :
  List.length (hmac_sha256 key msg) = 32%nat.
Proof. unfold hmac_sha256. apply sha256_length. Qed.

(** Base64 of [3 n + 2] octets: [4 n + 3] characters and one padding
    sign. *)
Lemma b64encode_padding (n : nat) (bs : pybytes) :
  List.length bs = (3 * n + 2)%nat ->
  exists l, b64encode bs = l ++ [61] /\ List.length l = (4 * n + 3)%nat.
Proof.
  revert bs. induction n as [|n IH]; intros bs Hl.
  - destruct bs as [|b0 [|b1 [|b2 bs]]]; try discriminate Hl.
    eexists [_; _; _]. split; reflexivity.
  - destruct bs as [|b0 [|b1 [|b2 bs]]]; try (cbn in Hl; lia).
    destruct (IH bs) as (l & Hb & Hlen); [cbn in Hl; lia|].
    cbn [b64encode]. rewrite Hb.
    eexists (_ :: _ :: _ :: _ :: l). split; [reflexivity|]. cbn [List.length]. lia.
Qed.

Lemma oauth_octet_length (b : N) :
  (1 <= List.length (oauth_octet b) <= 3)%nat.
Proof.
  unfold oauth_octet, Spec.percent_encode_octet.
  destruct (b =? 32); [cbn; lia|]. destruct (Spec.unreserved b); cbn; lia.
Qed.

Lemma oauth_octets_length (bs : pybytes) :
  (List.length bs <= List.length (List.concat (List.map oauth_octet bs))
   <= 3 * List.length bs)%nat.
Proof.
  induction bs as [|b bs IH]; [cbn; lia|].
  cbn [List.map List.concat List.length]. rewrite List.length_app.
  pose proof (oauth_octet_length b). lia.
Qed.

Lemma oauth_octets_plain (bs : pybytes) :
  Forall (fun c => c < 128 /\ c <> 32) bs ->
  Forall (fun c => Spec.unreserved c = true \/ c = 37)
         (List.concat (List.map oauth_octet bs)).
Proof.
  induction 1 as [|b bs [Hb H32] Hbs IH]; [constructor|].
  cbn [List.map List.concat]. apply Forall_app. split; [|exact IH].
  pose proof (oauth_octet_alphabet b ltac:(lia)) as Ha.
  unfold oauth_octet in *. destruct (N.eqb_spec b 32); [contradiction|].
  pose proof (percent_encode_octet_no_plus b) as Hp. unfold contains in Hp.
  induction Ha as [|c l Hc Hl IHl]; [constructor|].
  cbn [existsb] in Hp. apply orb_false_iff in Hp. destruct Hp as [Hc43 Hp].
  constructor; [|now apply IHl].
  destruct Hc as [Hc|[Hc|Hc]]; auto. subst c. discriminate Hc43.
Qed.

End SignatureSteps.

Section SignatureProperties.

Import Auth Urllib Closed Shape Frame Hashlib.

(** X12. [generate_signature] raises in two cases only, and then leaves
    the instance as it was: [UnicodeEncodeError] when the key
    [<consumer secret>&<token secret>] or the base string cannot be
    encoded, and [TypeError] when no base string has been generated yet
    (the attribute is still [None]). Otherwise it returns and writes the
    signature only. *)
Theorem generate_signature_outcome (a : NetsuiteOAuth) :
  let key := format_value (consumer_secret a) ++ [38]
               ++ format_value (token_secret a) in
  match fst (generate_signature a) with
  | Ok _ =>
      encodable key
      /\ (exists text, base_string a = VStr text /\ encodable text)
      /\ exists sig, snd (generate_signature a) = set_signature (VStr sig) a
  | Raise ex =>
      snd (generate_signature a) = a
      /\ ((ex = UnicodeEncodeError
           /\ (~ encodable key
               \/ exists text, base_string a = VStr text /\ ~ encodable text))
          \/ (ex = TypeError /\ encodable key /\ base_string a = VNone))
  end.
Proof.
  cbv zeta. rewrite generate_signature_steps.
  destruct (utf8_encode (_ ++ _)) as [key|] eqn:Hkey.
  - pose proof (utf8_encode_Some _ _ Hkey) as Ekey.
    destruct (base_string a) as [|text] eqn:Hbs.
    + cbn [fst snd]. split; [reflexivity|]. right. now repeat split.
    + destruct (utf8_encode text) as [msg|] eqn:Hmsg.
      * destruct (encode_oauth_plain _ (b64encode_plain (hmac_sha256 key msg)))
          as (sig & _ & Hsig).
        rewrite Hsig. cbn [fst snd]. split; [exact Ekey|]. split; [|now exists sig].
        exists text. split; [reflexivity|]. now apply (utf8_encode_Some text msg).
      * cbn [fst snd]. split; [reflexivity|]. left. split; [reflexivity|]. right.
        exists text. split; [reflexivity|]. intros He.
        destruct (encodable_utf8 text He) as (bs & Hbs' & _). congruence.
  - cbn [fst snd]. split; [reflexivity|]. left. split; [reflexivity|]. left.
    intros He. destruct (encodable_utf8 _ He) as (bs & Hbs' & _). congruence.
Qed.

(** X13. The signature a successful call stores is the encoding of 44
    Base64 characters, the last of which is the padding sign: it ends with
    [%3D], it is written with unreserved characters and percent signs
    only (no plus sign, no slash, no equals sign), and it has between 46
    and 132 characters. *)
Theorem generate_signature_shape (a : NetsuiteOAuth) :
  fst (generate_signature a) = Ok tt ->
  exists body,
    signature (snd (generate_signature a)) = VStr (body ++ str "%3D")
    /\ Forall (fun c => Spec.unreserved c = true \/ c = 37) body
    /\ (43 <= List.length body <= 129)%nat.
Proof.
  rewrite generate_signature_steps.
  destruct (utf8_encode (_ ++ _)) as [key|]; [|discriminate].
  destruct (base_string a) as [|text]; [discriminate|].
  destruct (utf8_encode text) as [msg|]; [|discriminate].
  pose proof (b64encode_plain (hmac_sha256 key msg)) as Hplain.
  destruct (b64encode_padding 10 (hmac_sha256 key msg) (hmac_sha256_length key msg))
    as (l & Hl & Hlen).
  rewrite encode_oauth_octets. unfold encode.
  rewrite utf8_encode_ascii
    by (eapply Forall_impl; [exact Hplain|]; intros c [Hc _]; exact Hc).
  cbn [bind fst snd]. intros _. cbn [signature set_signature].
  rewrite Hl in *. rewrite List.map_app, List.concat_app.
  exists (List.concat (List.map oauth_octet l)). split; [reflexivity|].
  apply Forall_app in Hplain. destruct Hplain as [Hplain _]. split.
  - now apply oauth_octets_plain.
  - pose proof (oauth_octets_length l). lia.
Qed.

Lemma generate_signature_shape_witness :
  fst (generate_signature Fixture.signer_with_base_string) = Ok tt
  /\ exists body,
       signature (snd (generate_signature Fixture.signer_with_base_string))
       = VStr (body ++ str "%3D")
       /\ Forall (fun c => Spec.unreserved c = true \/ c = 37) body
       /\ (43 <= List.length body <= 129)%nat.
Proof.
  assert (H : fst (generate_signature Fixture.signer_with_base_string) = Ok tt)
    by (vm_compute; reflexivity).
  split; [exact H|]. exact (generate_signature_shape _ H).
Defined.

End SignatureProperties.

(** ** The header *)

Section HeaderSteps.

Import Auth Urllib Closed Shape Frame Hashlib.

(** [generate_auth_header] step by step: the base string, the signature,
    then the header text, which needs six strings. *)
Lemma generate_auth_header_steps e m u a :
  generate_auth_header e m u a
  = match generate_base_string e m u a with
    | (Raise ex, a1) => (Raise ex, a1)
    | (Ok _, a1) =>
        match generate_signature a1 with
        | (Raise ex, a2) => (Raise ex, a2)
        | (Ok _, a2) =>
            match realm a2, consumer_key a2, token_key a2,
                  timestamp a2, nonce a2, signature a2 with
            | VStr r, VStr ck, VStr tk, VStr ts, VStr nn, VStr sig =>
                (Ok (default_headers (authorization r ck tk ts nn sig)),
                 set_headers (Some (default_headers (authorization r ck tk ts nn sig)))
                   (set_oauth_string (VStr (authorization r ck tk ts nn sig)) a2))
            | _, _, _, _, _, _ => (Raise TypeError, a2)
            end
        end
    end.
Proof.
  unfold generate_auth_header, mbind.
  destruct (generate_base_string e m u a) as [[[]|ex] a1]; [|reflexivity].
  destruct (generate_signature a1) as [[[]|ex] a2]; [|reflexivity].
  unfold read, lift, assign, ret. cbv beta iota.
  destruct (realm a2) as [|r]; [reflexivity|]. cbn [concat_value]. cbv beta iota.
  destruct (consumer_key a2) as [|ck]; [reflexivity|]. cbn [concat_value]. cbv beta iota.
  destruct (token_key a2) as [|tk]; [reflexivity|]. cbn [concat_value]. cbv beta iota.
  destruct (timestamp a2) as [|ts]; [reflexivity|]. cbn [concat_value]. cbv beta iota.
  destruct (nonce a2) as [|nn]; [reflexivity|]. cbn [concat_value]. cbv beta iota.
  destruct (signature a2) as [|sig]; [reflexivity|]. cbn [concat_value]. cbv beta iota.
  unfold default_headers, authorization. rewrite <- !app_assoc. reflexivity.
Qed.

(** What [generate_base_string] leaves when it returns. *)
Lemma generate_base_string_Ok e m u a :
  fst (generate_base_string e m u a) = Ok tt ->
  exists text normalized,
    snd (generate_base_string e m u a)
    = set_base_string (VStr text)
        (set_normalized_request_parameters (VStr normalized)
           (set_timestamp (VStr (str_of_int (time_int e)))
              (set_nonce (VStr (hex_fixed 32 (uuid4_int e)
                                  ++ hex_fixed 32 (uuid1_int e))) a))).
Proof.
  destruct u as [| | | |u| |]; try discriminate.
  destruct (parse_url_parameters_total u) as (base & params & Hp).
  rewrite (generate_base_string_steps e m u a base params Hp). cbv zeta.
  destruct (encode_oauth (join _ _)) as [normalized|ex]; [|discriminate].
  destruct (encode_oauth base) as [eu|ex]; [|discriminate].
  intros _. now eexists _, _.
Qed.

Lemma generate_signature_Ok a :
  fst (generate_signature a) = Ok tt ->
  exists text key msg sig,
    base_string a = VStr text
    /\ utf8_encode (format_value (consumer_secret a) ++ [38]
                      ++ format_value (token_secret a)) = Some key
    /\ utf8_encode text = Some msg
    /\ encode_oauth (b64encode (hmac_sha256 key msg)) = Ok sig
    /\ snd (generate_signature a) = set_signature (VStr sig) a.
Proof.
  rewrite generate_signature_steps.
  destruct (utf8_encode (_ ++ _)) as [key|]; [|discriminate].
  destruct (base_string a) as [|text]; [discriminate|].
  destruct (utf8_encode text) as [msg|] eqn:Hmsg; [|discriminate].
  destruct (encode_oauth _) as [sig|] eqn:Hsig; [|discriminate].
  intros _. exists text, key, msg, sig. now repeat split.
Qed.

End HeaderSteps.

Section HeaderProperties.

Import Auth Urllib Closed Shape Frame Hashlib.

(** X14. When [generate_auth_header] returns, the realm, the consumer
    key and the token key are strings, and what it returns is the bundle
    of four headers [Prefer], [Content-Type], [Authorization] and
    [cache-control], where [Authorization] is the text
    [OAuth realm="...",oauth_consumer_key="...",...,oauth_signature="..."]
    put together from the realm and the two keys as they are (not encoded)
    and from the timestamp, the nonce and the signature the call has just
    stored. The bundle and the text are also stored on the instance. *)
Theorem generate_auth_header_value (e : Entropy) (http_method : pystr)
  (url : pyobj) (a : NetsuiteOAuth) (returned : dict pystr) :
  fst (generate_auth_header e http_method url a) = Ok returned ->
  exists r ck tk sig text,
    realm a = VStr r /\ consumer_key a = VStr ck /\ token_key a = VStr tk
    /\ signature (snd (generate_auth_header e http_method url a)) = VStr sig
    /\ timestamp (snd (generate_auth_header e http_method url a))
       = VStr (str_of_int (time_int e))
    /\ nonce (snd (generate_auth_header e http_method url a))
       = VStr (hex_fixed 32 (uuid4_int e) ++ hex_fixed 32 (uuid1_int e))
    /\ text = authorization r ck tk (str_of_int (time_int e))
                (hex_fixed 32 (uuid4_int e) ++ hex_fixed 32 (uuid1_int e)) sig
    /\ returned = default_headers text
    /\ headers (snd (generate_auth_header e http_method url a)) = Some returned
    /\ oauth_string (snd (generate_auth_header e http_method url a)) = VStr text.
Proof.
  rewrite generate_auth_header_steps.
  destruct (generate_base_string e http_method url a) as [[[]|ex] a1] eqn:Hb;
    [|discriminate].
  assert (Hb1 : fst (generate_base_string e http_method url a) = Ok tt)
    by now rewrite Hb.
  destruct (generate_base_string_Ok _ _ _ _ Hb1) as (text & normalized & Ha1).
  rewrite Hb in Ha1. cbn [snd] in Ha1.
  destruct (generate_signature a1) as [[[]|ex] a2] eqn:Hs; [|discriminate].
  assert (Hs1 : fst (generate_signature a1) = Ok tt) by now rewrite Hs.
  destruct (generate_signature_Ok _ Hs1) as (_ & _ & _ & sig & _ & _ & _ & _ & Ha2).
  rewrite Hs in Ha2. cbn [snd] in Ha2. subst a2 a1.
  cbn [realm consumer_key token_key timestamp nonce signature set_signature
       set_base_string set_normalized_request_parameters set_timestamp set_nonce].
  destruct (realm a) as [|r]; [discriminate|].
  destruct (consumer_key a) as [|ck]; [discriminate|].
  destruct (token_key a) as [|tk]; [discriminate|].
  cbn [fst snd]. intros [= <-].
  exists r, ck, tk, sig,
         (authorization r ck tk (str_of_int (time_int e))
            (hex_fixed 32 (uuid4_int e) ++ hex_fixed 32 (uuid1_int e)) sig).
  repeat split.
Qed.

Lemma generate_auth_header_value_witness :
  let call := generate_auth_header Fixture.entropy0 (str "GET") (PStr Fixture.url_bc)
                Fixture.signer in
  let returned :=
    default_headers
      (authorization (str "123456") (str "ck") (str "tk") (str "1700000000")
         (str "0000000000000000000000000000000500000000000000000000000000000007")
         (str "BU%2F4ANts%2By43bPxuvWMgSWp5PPvJqJMhXHrY7AcNu88%3D")) in
  fst call = Ok returned
  /\ exists r ck tk sig text,
       realm Fixture.signer = VStr r /\ consumer_key Fixture.signer = VStr ck
       /\ token_key Fixture.signer = VStr tk
       /\ signature (snd call) = VStr sig
       /\ timestamp (snd call) = VStr (str_of_int (time_int Fixture.entropy0))
       /\ nonce (snd call)
          = VStr (hex_fixed 32 (uuid4_int Fixture.entropy0)
                    ++ hex_fixed 32 (uuid1_int Fixture.entropy0))
       /\ text = authorization r ck tk (str_of_int (time_int Fixture.entropy0))
                   (hex_fixed 32 (uuid4_int Fixture.entropy0)
                      ++ hex_fixed 32 (uuid1_int Fixture.entropy0)) sig
       /\ returned = default_headers text
       /\ headers (snd call) = Some returned
       /\ oauth_string (snd call) = VStr text.
Proof.
  cbv zeta.
  assert (H : fst (generate_auth_header Fixture.entropy0 (str "GET")
                     (PStr Fixture.url_bc) Fixture.signer)
              = Ok (default_headers
                      (authorization (str "123456") (str "ck") (str "tk")
                         (str "1700000000")
                         (str "0000000000000000000000000000000500000000000000000000000000000007")
                         (str "BU%2F4ANts%2By43bPxuvWMgSWp5PPvJqJMhXHrY7AcNu88%3D"))))
    by (vm_compute; reflexivity).
  split; [exact H|].
  exact (generate_auth_header_value _ _ _ _ _ H).
Defined.

(** X15. The signature of the header verifies against what the call
    leaves on the instance: when [generate_auth_header] returns, the
    stored signature is the encoded Base64 HMAC-SHA256 of the stored base
    string, keyed with [<consumer secret>&<token secret>] as configured
    ([None] for an absent secret). *)
Theorem generate_auth_header_verifies (e : Entropy) (http_method : pystr)
  (url : pyobj) (a : NetsuiteOAuth) (returned : dict pystr) :
  fst (generate_auth_header e http_method url a) = Ok returned ->
  exists text key msg sig,
    base_string (snd (generate_auth_header e http_method url a)) = VStr text
    /\ utf8_encode (format_value (consumer_secret a) ++ [38]
                      ++ format_value (token_secret a)) = Some key
    /\ utf8_encode text = Some msg
    /\ encode_oauth (b64encode (hmac_sha256 key msg)) = Ok sig
    /\ signature (snd (generate_auth_header e http_method url a)) = VStr sig.
Proof.
  rewrite generate_auth_header_steps.
  pose proof (keeps_generate_base_string e http_method url a) as Hk.
  destruct (generate_base_string e http_method url a) as [[[]|ex] a1] eqn:Hb;
    [|discriminate].
  cbn [snd] in Hk. destruct Hk as (_ & _ & Hcs & _ & Hts & _).
  destruct (generate_signature a1) as [[[]|ex] a2] eqn:Hs; [|discriminate].
  assert (Hs1 : fst (generate_signature a1) = Ok tt) by now rewrite Hs.
  destruct (generate_signature_Ok _ Hs1)
    as (text & key & msg & sig & Htext & Hkey & Hmsg & Hsig & Ha2).
  rewrite Hs in Ha2. cbn [snd] in Ha2. subst a2.
  cbn [realm consumer_key token_key timestamp nonce signature set_signature].
  destruct (realm a1); [discriminate|]. destruct (consumer_key a1); [discriminate|].
  destruct (token_key a1); [discriminate|]. destruct (timestamp a1); [discriminate|].
  destruct (nonce a1); [discriminate|]. cbn [fst snd]. intros _.
  exists text, key, msg, sig. rewrite <- Hcs, <- Hts. now repeat split.
Qed.

Lemma generate_auth_header_verifies_witness :
  let call := generate_auth_header Fixture.entropy0 (str "GET") (PStr Fixture.url_bc)
                Fixture.signer in
  let returned :=
    default_headers
      (authorization (str "123456") (str "ck") (str "tk") (str "1700000000")
         (str "0000000000000000000000000000000500000000000000000000000000000007")
         (str "BU%2F4ANts%2By43bPxuvWMgSWp5PPvJqJMhXHrY7AcNu88%3D")) in
  fst call = Ok returned
  /\ exists text key msg sig,
       base_string (snd call) = VStr text
       /\ utf8_encode (format_value (consumer_secret Fixture.signer) ++ [38]
                         ++ format_value (token_secret Fixture.signer)) = Some key
       /\ utf8_encode text = Some msg
       /\ encode_oauth (b64encode (hmac_sha256 key msg)) = Ok sig
       /\ signature (snd call) = VStr sig.
Proof.
  cbv zeta.
  assert (H : fst (generate_auth_header Fixture.entropy0 (str "GET")
                     (PStr Fixture.url_bc) Fixture.signer)
              = Ok (default_headers
                      (authorization (str "123456") (str "ck") (str "tk")
                         (str "1700000000")
                         (str "0000000000000000000000000000000500000000000000000000000000000007")
                         (str "BU%2F4ANts%2By43bPxuvWMgSWp5PPvJqJMhXHrY7AcNu88%3D"))))
    by (vm_compute; reflexivity).
  split; [exact H|].
  exact (generate_auth_header_verifies _ _ _ _ _ H).
Defined.

Lemma protocol_parameters_formatted a :
  encodable (format_value (consumer_key a)) ->
  encodable (format_value (token_key a)) ->
  encodable (signature_method a) ->
  encodable (format_value (timestamp a)) ->
  encodable (format_value (nonce a)) ->
  Forall encodable_entry (protocol_parameters a).
Proof.
  intros Hck Htk Hsm Hts Hnn. unfold protocol_parameters.
  repeat (apply Forall_cons; split;
          [split; cbn [fst snd format_value]; auto using str_encodable|]).
  constructor.
Qed.

Lemma generate_base_string_formatted e m u a :
  encodable_credentials a -> encodable m -> encodable u ->
  exists text normalized,
    generate_base_string e m (PStr u) a
    = (Ok tt,
       set_base_string (VStr text)
         (set_normalized_request_parameters (VStr normalized)
            (set_timestamp (VStr (str_of_int (time_int e)))
               (set_nonce (VStr (hex_fixed 32 (uuid4_int e)
                                   ++ hex_fixed 32 (uuid1_int e))) a))))
    /\ encodable text.
Proof.
  intros (Hck & Htk & _ & _ & Hsm) Hm Hu.
  destruct (parse_url_parameters_encodable u Hu)
    as (base & params & Hparse & Hbase & Hparams).
  rewrite (generate_base_string_steps e m u a base params Hparse). cbv zeta.
  rewrite add_query_parameters_set_all.
  match goal with
  | |- context [encode_oauth (join ?sep ?l)] =>
      destruct (encode_oauth_encodable (join sep l)) as (np & Hnp & Hascii)
  end.
  { apply join_encodable; [repeat constructor; left; lia|].
    apply entries_encodable. apply set_all_encodable; [|exact Hparams].
    apply protocol_parameters_formatted; auto.
    - apply str_encodable.
    - apply Forall_app. split; apply hex_fixed_encodable. }
  rewrite Hnp.
  destruct (encode_oauth_encodable base Hbase) as (eb & Heb & Hascii').
  rewrite Heb. eexists _, _. split; [reflexivity|].
  apply Forall_app. split; [exact Hm|]. apply Forall_app.
  split; [repeat constructor; left; lia|]. apply Forall_app.
  split; [now apply ascii_encodable|]. apply Forall_app.
  split; [repeat constructor; left; lia|now apply ascii_encodable].
Qed.

(** X16. A signer without realm, consumer key or token key ([None])
    fails late: with a method, a URL and formatted credentials that can be
    encoded, [generate_auth_header] raises a bare [TypeError] when the
    header text is put together, after the base string and the signature
    have been computed and stored; the header text and the headers of the
    instance are left as they were. *)
Theorem generate_auth_header_missing_key (e : Entropy) (http_method u : pystr)
  (a : NetsuiteOAuth) :
  realm a = VNone \/ consumer_key a = VNone \/ token_key a = VNone ->
  encodable_credentials a -> encodable http_method -> encodable u ->
  fst (generate_auth_header e http_method (PStr u) a) = Raise TypeError
  /\ (exists text,
        base_string (snd (generate_auth_header e http_method (PStr u) a)) = VStr text)
  /\ (exists sig,
        signature (snd (generate_auth_header e http_method (PStr u) a)) = VStr sig)
  /\ oauth_string (snd (generate_auth_header e http_method (PStr u) a)) = oauth_string a
  /\ headers (snd (generate_auth_header e http_method (PStr u) a)) = headers a.
Proof.
  intros Hnone Hcred Hm Hu.
  destruct (generate_base_string_formatted e http_method u a Hcred Hm Hu)
    as (text & normalized & Hb & Etext).
  rewrite generate_auth_header_steps, Hb.
  match type of Hb with _ = (_, ?x) => set (a1 := x) in * end.
  destruct Hcred as (_ & _ & Hcs & Hts & _).
  destruct (generate_signature_returns a1 text eq_refl Etext Hcs Hts) as (sig & Hs).
  rewrite Hs.
  cbn [realm consumer_key token_key timestamp nonce signature a1 set_signature
       set_base_string set_normalized_request_parameters set_timestamp set_nonce].
  assert (G : forall (r : result (dict pystr) * NetsuiteOAuth),
            r = (Raise TypeError, set_signature (VStr sig) a1) ->
            fst r = Raise TypeError
            /\ (exists text, base_string (snd r) = VStr text)
            /\ (exists sig, signature (snd r) = VStr sig)
            /\ oauth_string (snd r) = oauth_string a /\ headers (snd r) = headers a).
  { intros r ->. cbn. split; [reflexivity|]. split; [now exists text|].
    split; [now exists sig|]. now split. }
  apply G. destruct Hnone as [H|[H|H]]; rewrite H;
    repeat match goal with
    | |- context [match ?v with VNone => _ | VStr _ => _ end] => destruct v
    end; reflexivity.
Qed.

Lemma generate_auth_header_missing_key_witness :
  let a := Fixture.signer_without_consumer_key in
  let call := generate_auth_header Fixture.entropy0 (str "GET") (PStr Fixture.url_bc) a in
  (realm a = VNone \/ consumer_key a = VNone \/ token_key a = VNone)
  /\ encodable_credentials a /\ encodable (str "GET") /\ encodable Fixture.url_bc
  /\ fst call = Raise TypeError
  /\ (exists text, base_string (snd call) = VStr text)
  /\ (exists sig, signature (snd call) = VStr sig)
  /\ oauth_string (snd call) = oauth_string a
  /\ headers (snd call) = headers a.
Proof.
  cbv zeta.
  assert (H1 : realm Fixture.signer_without_consumer_key = VNone
               \/ consumer_key Fixture.signer_without_consumer_key = VNone
               \/ token_key Fixture.signer_without_consumer_key = VNone)
    by (right; left; reflexivity).
  assert (H2 : encodable_credentials Fixture.signer_without_consumer_key)
    by (repeat split; apply (str_encodable _)).
  assert (H3 : encodable (str "GET")) by apply str_encodable.
  assert (H4 : encodable Fixture.url_bc) by apply str_encodable.
  split; [exact H1|]. split; [exact H2|]. split; [exact H3|]. split; [exact H4|].
  exact (generate_auth_header_missing_key Fixture.entropy0 (str "GET") Fixture.url_bc
           Fixture.signer_without_consumer_key H1 H2 H3 H4).
Defined.

End HeaderProperties.

(** ** The order of the query parameters *)

Section QueryOrder.

Import Auth Urllib Closed Shape Frame Hashlib.

Lemma parse_url_parameters_NoDup (u base : pystr) (q : dict pystr) :
  parse_url_parameters (PStr u) = Ok (base, Some q) -> NoDup (dict_keys q).
Proof.
  rewrite parse_url_parameters_closed.
  destruct (Spec.split_at_first_question_mark u) as [b [query|]]; [|discriminate].
  rewrite first_values_parse_qs. cbn [bind]. intros [= _ <-].
  apply add_first_fold_NoDup. constructor.
Qed.

(** X17. The order of the parameters in the query of the URL does not
    matter to the signature: two URLs with the same base URL whose
    queries hold the same parameters in another order give, for the same
    method and the same nonce and timestamp, the same outcome and the
    same instance afterwards, hence the same base string, signature and
    header. *)
Theorem generate_auth_header_query_order (e : Entropy) (http_method : pystr)
  (u1 u2 base_url : pystr) (q1 q2 : dict pystr) (a : NetsuiteOAuth) :
  parse_url_parameters (PStr u1) = Ok (base_url, Some q1) ->
  parse_url_parameters (PStr u2) = Ok (base_url, Some q2) ->
  q1 ≡ₚ q2 ->
  generate_auth_header e http_method (PStr u1) a
  = generate_auth_header e http_method (PStr u2) a.
Proof.
  intros H1 H2 Hp. rewrite !generate_auth_header_steps.
  rewrite (generate_base_string_steps e http_method u1 a base_url (Some q1) H1).
  rewrite (generate_base_string_steps e http_method u2 a base_url (Some q2) H2).
  cbv zeta. rewrite !add_query_parameters_set_all.
  rewrite (entries_Permutation _ q1 q2); [reflexivity| | |exact Hp].
  - apply protocol_parameters_NoDup.
  - exact (parse_url_parameters_NoDup u1 base_url q1 H1).
Qed.

Lemma generate_auth_header_query_order_witness :
  parse_url_parameters (PStr (str "https://x.test/a?b=1&c=2"))
  = Ok (str "https://x.test/a", Some Fixture.query_bc)
  /\ parse_url_parameters (PStr (str "https://x.test/a?c=2&b=1"))
     = Ok (str "https://x.test/a", Some Fixture.query_cb)
  /\ Fixture.query_bc ≡ₚ Fixture.query_cb
  /\ generate_auth_header Fixture.entropy0 (str "GET")
       (PStr (str "https://x.test/a?b=1&c=2")) Fixture.signer
     = generate_auth_header Fixture.entropy0 (str "GET")
         (PStr (str "https://x.test/a?c=2&b=1")) Fixture.signer.
Proof.
  assert (H1 : parse_url_parameters (PStr (str "https://x.test/a?b=1&c=2"))
               = Ok (str "https://x.test/a", Some Fixture.query_bc))
    by (vm_compute; reflexivity).
  assert (H2 : parse_url_parameters (PStr (str "https://x.test/a?c=2&b=1"))
               = Ok (str "https://x.test/a", Some Fixture.query_cb))
    by (vm_compute; reflexivity).
  assert (H3 : Fixture.query_bc ≡ₚ Fixture.query_cb) by apply Permutation_swap.
  split; [exact H1|]. split; [exact H2|]. split; [exact H3|].
  exact (generate_auth_header_query_order Fixture.entropy0 (str "GET") _ _ _ _ _
           Fixture.signer H1 H2 H3).
Defined.

End QueryOrder.

(** ** One-time passwords *)

Section OneTimePasswords.

Import Hashlib Otp Shape.

Lemma bytes_of_word_length (w : N) : List.length (bytes_of_word w) = 4%nat.
Proof. reflexivity. Qed.

Lemma sha1_length (msg : pybytes) : List.length (sha1 msg) = 20%nat.
Proof. unfold sha1. now rewrite !List.length_app, !bytes_of_word_length. Qed.

Lemma hmac_sha1_length (key msg : pybytes) : List.length (hmac_sha1 key msg) = 20%nat.
Proof. unfold hmac_sha1. apply sha1_length. Qed.

(** The dynamic truncation stays inside the digest: the offset is at most
    15 and the digest has 20 octets. *)
Lemma truncation_in_range (h : pybytes) :
  List.length h = 20%nat ->
  exists last word,
    index h 19 = Return last
    /\ unpack_I (List.firstn 4 (List.skipn (N.to_nat (N.land last 15)) h))
       = Return word.
Proof.
  intros Hh. unfold index.
  destruct (List.nth_error h 19) as [last|] eqn:Hn.
  - exists last.
    assert (Ho : (N.to_nat (N.land last 15) <= 15)%nat).
    { change 15 with (N.ones 4). rewrite N.land_ones.
      pose proof (N.mod_lt last (2 ^ 4)). cbn in *. lia. }
    set (o := N.to_nat (N.land last 15)) in *.
    assert (Hl : List.length (List.firstn 4 (List.skipn o h)) = 4%nat).
    { rewrite List.length_firstn, List.length_skipn. lia. }
    destruct (List.firstn 4 (List.skipn o h)) as [|b0 [|b1 [|b2 [|b3 [|]]]]];
      try discriminate Hl.
    eexists. split; reflexivity.
  - apply List.nth_error_None in Hn. lia.
Qed.

(** X18. What [generateHOTP] does for every secret and counter. A secret
    that [b32decode] rejects makes the call raise that error, whatever the
    counter. With a secret that decodes, a counter outside [0, 2 ^ 64)
    raises [struct.error], and every counter inside it gives a password
    below one million: the dynamic truncation never reads outside the
    digest. *)
Theorem generateHOTP_outcome (secret : pystr) (intervals_no : Z) :
  match b32decode secret with
  | Throw e => generateHOTP secret intervals_no = Throw e
  | Return _ =>
      if ((0 <=? intervals_no) && (intervals_no <? 2 ^ 64))%Z
      then exists code,
             generateHOTP secret intervals_no = Return code /\ code < 1000000
      else generateHOTP secret intervals_no = Throw struct_error
  end.
Proof.
  unfold generateHOTP. destruct (b32decode secret) as [key|e]; [|reflexivity].
  cbn [and_then]. unfold pack_Q.
  destruct ((0 <=? intervals_no) && (intervals_no <? 2 ^ 64))%Z; [|reflexivity].
  cbn [and_then].
  match goal with
  | |- context [hmac_sha1 key ?m] =>
      destruct (truncation_in_range (hmac_sha1 key m) (hmac_sha1_length key m))
        as (last & word & Hi & Hw)
  end.
  rewrite Hi. cbn [and_then]. rewrite Hw. cbn [and_then].
  eexists. split; [reflexivity|]. apply N.mod_lt. lia.
Qed.

Lemma upper_octet_idempotent (b : N) : upper_octet (upper_octet b) = upper_octet b.
Proof.
  unfold upper_octet.
  destruct (N.leb_spec 97 b), (N.leb_spec b 122); cbn [andb]; try reflexivity;
    try (destruct (N.leb_spec 97 b), (N.leb_spec b 122); cbn [andb]; lia || reflexivity).
  destruct (N.leb_spec 97 (b - 32)), (N.leb_spec (b - 32) 122); cbn [andb];
    lia || reflexivity.
Qed.

Lemma upper_octet_ascii (b : N) : (upper_octet b <? 128) = (b <? 128).
Proof.
  unfold upper_octet.
  destruct (N.leb_spec 97 b), (N.leb_spec b 122); cbn [andb]; try reflexivity.
  destruct (N.ltb_spec (b - 32) 128), (N.ltb_spec b 128); lia || reflexivity.
Qed.

Lemma bytes_upper_ascii (s : pybytes) :
  forallb (fun c => c <? 128) (bytes_upper s) = forallb (fun c => c <? 128) s.
Proof.
  unfold bytes_upper. induction s as [|c s IH]; [reflexivity|].
  cbn [List.map forallb]. now rewrite IH, upper_octet_ascii.
Qed.

Lemma bytes_upper_idempotent (s : pybytes) :
  bytes_upper (bytes_upper s) = bytes_upper s.
Proof.
  unfold bytes_upper. rewrite List.map_map. apply List.map_ext.
  apply upper_octet_idempotent.
Qed.

Lemma b32decode_upper (secret : pystr) :
  b32decode (bytes_upper secret) = b32decode secret.
Proof.
  unfold b32decode.
  rewrite bytes_upper_ascii, bytes_upper_idempotent.
  unfold bytes_upper at 1. now rewrite List.length_map.
Qed.

(** X19. The case of the secret does not matter: a secret and its
    upper-case form give the same outcome for every counter, the same
    password or the same error. *)
Theorem generateHOTP_case (secret : pystr) (intervals_no : Z) :
  generateHOTP (bytes_upper secret) intervals_no = generateHOTP secret intervals_no.
Proof. unfold generateHOTP. now rewrite b32decode_upper. Qed.

(** X20. [generateTOTP] gives the same outcome all through a window of
    30 seconds: at every second of the window that starts at [30 * k] it
    is what [generateHOTP] gives for the counter [k]. *)
Theorem generateTOTP_window (secret : pystr) (now k : Z) :
  (30 * k <= now < 30 * k + 30)%Z ->
  generateTOTP secret now = generateHOTP secret k.
Proof.
  intros H. unfold generateTOTP. f_equal. symmetry.
  apply (Z.div_unique now 30 k (now - 30 * k)); lia.
Qed.

Lemma generateTOTP_window_witness :
  (30 * 56666666 <= 1700000000 < 30 * 56666666 + 30)%Z
  /\ generateTOTP (str "JBSWY3DPEHPK3PXP") 1700000000
     = generateHOTP (str "JBSWY3DPEHPK3PXP") 56666666.
Proof.
  assert (H : (30 * 56666666 <= 1700000000 < 30 * 56666666 + 30)%Z) by lia.
  split; [exact H|]. exact (generateTOTP_window _ _ _ H).
Defined.

Lemma accumulate_from (q : pybytes) (a : N) :
  Forall (fun c => exists v, b32rev c = Some v) q ->
  exists x,
    List.fold_left
      (fun (acc : answer N) (c : N) =>
         and_then acc (fun a =>
           match b32rev c with
           | Some v => Return (a * 32 + v)
           | None => Throw Non_base32_digit
           end))
      q (Return a) = Return x
    /\ x < (a + 1) * 32 ^ N.of_nat (List.length q).
Proof.
  intros H. revert a. induction H as [|c q (v & Hv) Hq IH]; intros a.
  - exists a. split; [reflexivity|]. cbn. lia.
  - cbn [List.fold_left and_then]. rewrite Hv.
    destruct (IH (a * 32 + v)) as (x & Hx & Hlt). exists x. split; [exact Hx|].
    assert (Hv32 : v < 32).
    { unfold b32rev in Hv.
      destruct (N.leb_spec 65 c), (N.leb_spec c 90); cbn [andb] in Hv;
        try (injection Hv as <-; lia);
        destruct (N.leb_spec 50 c), (N.leb_spec c 55); cbn [andb] in Hv;
        try discriminate; injection Hv as <-; lia. }
    cbn [List.length]. rewrite Nat2N.inj_succ, N.pow_succ_r'. nia.
Qed.

Lemma decode_quanta_digits (k : nat) :
  forall (fuel : nat) (s decoded : pybytes) (acc : N),
    Forall (fun c => exists v, b32rev c = Some v) s ->
    List.length s = (8 * k)%nat -> (List.length s <= fuel)%nat ->
    exists d last,
      decode_quanta fuel s decoded acc = Return (decoded ++ d, last)
      /\ List.length d = (5 * k)%nat.
Proof.
  induction k as [|k IH]; intros fuel s decoded acc Hs Hl Hf.
  - destruct s; [|discriminate]. exists [], acc. rewrite app_nil_r.
    split; [now destruct fuel|reflexivity].
  - destruct fuel as [|fuel]; [lia|].
    destruct s as [|c s]; [discriminate|].
    set (t := c :: s) in *. cbn [decode_quanta]. unfold accumulate.
    assert (Hq : Forall (fun c => exists v, b32rev c = Some v) (List.firstn 8 t))
      by now apply Forall_take.
    destruct (accumulate_from (List.firstn 8 t) 0 Hq) as (x & Hx & Hlt).
    fold t. rewrite Hx. cbn [and_then]. unfold to_bytes5.
    assert (Hlen : List.length (List.firstn 8 t) = 8%nat)
      by (rewrite List.length_firstn; lia).
    rewrite Hlen in Hlt. change ((0 + 1) * 32 ^ N.of_nat 8) with (2 ^ 40) in Hlt.
    apply N.ltb_lt in Hlt. rewrite Hlt. cbn [and_then].
    destruct (IH fuel (List.skipn 8 t)
                (decoded ++ [x / 2 ^ 32; (x / 2 ^ 24) mod 256; (x / 2 ^ 16) mod 256;
                             (x / 2 ^ 8) mod 256; x mod 256]) x)
      as (d & last & Hd & Hdl).
    + now apply Forall_drop.
    + rewrite List.length_skipn. lia.
    + rewrite List.length_skipn. lia.
    + rewrite Hd. eexists (_ :: _ :: _ :: _ :: _ :: d), last.
      rewrite <- app_assoc. split; [reflexivity|]. cbn [List.length]. lia.
Qed.

Lemma lstrip_other (c : N) (s : pybytes) :
  Forall (fun x => x <> c) s -> lstrip c s = s.
Proof.
  destruct 1 as [|x s Hx Hs]; [reflexivity|]. cbn [lstrip].
  destruct (N.eqb_spec x c); [contradiction|reflexivity].
Qed.

Lemma rstrip_other (c : N) (s : pybytes) :
  Forall (fun x => x <> c) s -> rstrip c s = s.
Proof.
  intros H. unfold rstrip. rewrite lstrip_other; [apply List.rev_involutive|].
  apply Forall_forall. intros x Hx. rewrite Forall_forall in H. apply H.
  apply list_elem_of_In. apply list_elem_of_In in Hx. now apply List.in_rev.
Qed.

Lemma b32_char_facts (c : N) :
  b32_char c -> c < 128 /\ upper_octet c <> 61
                /\ exists v, b32rev (upper_octet c) = Some v.
Proof.
  intros (v & Hv). split; [|split; [|now exists v]].
  - unfold b32rev, upper_octet in Hv.
    destruct (N.leb_spec 97 c), (N.leb_spec c 122); cbn [andb] in Hv; try lia;
      destruct (N.leb_spec 65 c), (N.leb_spec c 90); cbn [andb] in Hv; try lia;
      destruct (N.leb_spec 50 c), (N.leb_spec c 55); cbn [andb] in Hv;
      try lia; discriminate.
  - intros E. rewrite E in Hv. discriminate Hv.
Qed.

(** X21. Which secrets are accepted. A string of Base32 digits
    ([A-Z], [2-7], in either case) whose length is [8 k] decodes to a key
    of [5 k] octets, so [generateHOTP] returns a password for it at every
    counter in range; this includes the empty secret, which gives the
    empty key. A string of ASCII characters whose length is not a multiple
    of eight is rejected with [binascii.Error] (incorrect padding). *)
Theorem generateHOTP_secret (secret : pystr) (k : nat) (intervals_no : Z) :
  Forall b32_char secret -> List.length secret = (8 * k)%nat ->
  (0 <= intervals_no < 2 ^ 64)%Z ->
  (exists key, b32decode secret = Return key /\ List.length key = (5 * k)%nat)
  /\ (exists code, generateHOTP secret intervals_no = Return code /\ code < 1000000)
  /\ forall longer : pystr,
       Forall (fun c => c < 128) longer ->
       (List.length longer mod 8 <> 0)%nat ->
       generateHOTP longer intervals_no = Throw Incorrect_padding.
Proof.
  intros Hs Hl Hn.
  assert (Hkey : exists key, b32decode secret = Return key
                             /\ List.length key = (5 * k)%nat).
  { unfold b32decode.
    assert (Hascii : forallb (fun c => c <? 128) secret = true).
    { apply forallb_forall. intros c Hc. apply N.ltb_lt.
      rewrite Forall_forall in Hs. apply list_elem_of_In in Hc.
      now apply (b32_char_facts c (Hs c Hc)). }
    rewrite Hascii. cbn [negb].
    assert (Hmod : (N.of_nat (List.length secret) mod 8 =? 0) = true).
    { apply N.eqb_eq. rewrite Hl, Nat2N.inj_mul. cbn [N.of_nat].
      rewrite N.mul_comm. apply N.Div0.mod_mul. }
    rewrite Hmod. cbn [negb].
    assert (Hstrip : rstrip 61 (bytes_upper secret) = bytes_upper secret).
    { apply rstrip_other. unfold bytes_upper. apply Forall_forall. intros x Hx.
      apply list_elem_of_In, in_map_iff in Hx. destruct Hx as (c & <- & Hc).
      rewrite Forall_forall in Hs. apply list_elem_of_In in Hc.
      now apply (b32_char_facts c (Hs c Hc)). }
    rewrite Hstrip, Nat.sub_diag.
    destruct (decode_quanta_digits k (List.length (bytes_upper secret))
                (bytes_upper secret) [] 0) as (d & last & Hd & Hdl).
    - unfold bytes_upper. apply Forall_forall. intros x Hx.
      apply list_elem_of_In, in_map_iff in Hx. destruct Hx as (c & <- & Hc).
      rewrite Forall_forall in Hs. apply list_elem_of_In in Hc.
      now apply (b32_char_facts c (Hs c Hc)).
    - unfold bytes_upper. now rewrite List.length_map.
    - lia.
    - rewrite Hd. cbn [and_then app N.of_nat existsb N.eqb orb negb].
      exists d. split; [reflexivity|exact Hdl]. }
  split; [exact Hkey|]. split.
  - destruct Hkey as (key & Hkey & _). unfold generateHOTP. rewrite Hkey.
    cbn [and_then]. unfold pack_Q.
    assert (Hr : ((0 <=? intervals_no) && (intervals_no <? 2 ^ 64))%Z = true).
    { apply andb_true_iff. split; [apply Z.leb_le|apply Z.ltb_lt]; lia. }
    rewrite Hr. cbn [and_then].
    match goal with
    | |- context [hmac_sha1 key ?m] =>
        destruct (truncation_in_range (hmac_sha1 key m) (hmac_sha1_length key m))
          as (last & word & Hi & Hw)
    end.
    rewrite Hi. cbn [and_then]. rewrite Hw. cbn [and_then].
    eexists. split; [reflexivity|]. apply N.mod_lt. lia.
  - intros longer Hascii Hmod. unfold generateHOTP, b32decode.
    assert (Ha : forallb (fun c => c <? 128) longer = true).
    { apply forallb_forall. intros c Hc. apply N.ltb_lt.
      rewrite Forall_forall in Hascii. apply Hascii. now apply list_elem_of_In. }
    rewrite Ha. cbn [negb].
    assert (Hm : (N.of_nat (List.length longer) mod 8 =? 0) = false).
    { apply N.eqb_neq. intros E. apply Hmod.
      apply (f_equal N.to_nat) in E. rewrite N2Nat.inj_mod, Nat2N.id in E.
      exact E. }
    rewrite Hm. reflexivity.
Qed.

Lemma generateHOTP_secret_witness :
  Forall b32_char (str "JBSWY3DPehpk3pxp")
  /\ List.length (str "JBSWY3DPehpk3pxp") = (8 * 2)%nat
  /\ (0 <= 1 < 2 ^ 64)%Z
  /\ (exists key, b32decode (str "JBSWY3DPehpk3pxp") = Return key
                  /\ List.length key = (5 * 2)%nat)
  /\ (exists code, generateHOTP (str "JBSWY3DPehpk3pxp") 1 = Return code
                   /\ code < 1000000)
  /\ forall longer : pystr,
       Forall (fun c => c < 128) longer ->
       (List.length longer mod 8 <> 0)%nat ->
       generateHOTP longer 1 = Throw Incorrect_padding.
Proof.
  assert (H1 : Forall b32_char (str "JBSWY3DPehpk3pxp"))
    by (repeat constructor; eexists; vm_compute; reflexivity).
  assert (H2 : List.length (str "JBSWY3DPehpk3pxp") = (8 * 2)%nat) by reflexivity.
  assert (H3 : (0 <= 1 < 2 ^ 64)%Z) by (split; [lia|reflexivity]).
  split; [exact H1|]. split; [exact H2|]. split; [exact H3|].
  exact (generateHOTP_secret _ _ _ H1 H2 H3).
Defined.

(** Known answers for [generateHOTP]: the first passwords of the test
    secret of RFC 4226. *)
Lemma generateHOTP_known_answers :
  List.map (generateHOTP (str "GEZDGNBVGY3TQOJQGEZDGNBVGY3TQOJQ")) [0; 1; 2]%Z
  = [Return 755224; Return 287082; Return 359152].
Proof. vm_compute. reflexivity. Qed.

End OneTimePasswords.

(** ** What a call of the paginator changes *)

Section Growth.

Import Auth Frame Requests SuiteQL Run Shape Pages.

Lemma extends_refl q (s : NetSuiteQL * World) : extends q 0 s s.
Proof.
  unfold extends. split; [reflexivity|]. split; [reflexivity|].
  split; [apply same_configuration_refl|].
  split; [exists []; now rewrite app_nil_r|].
  split; [|exists []; now rewrite app_nil_r].
  exists []. rewrite app_nil_r. split; [reflexivity|]. split; [cbn; lia|constructor].
Qed.

Lemma extends_trans q m n (a b c : NetSuiteQL * World) :
  extends q m a b -> extends q n b c -> extends q (m + n) a c.
Proof.
  intros (U1 & I1 & C1 & (more1 & B1) & (new1 & S1 & L1 & F1) & (l1 & O1))
         (U2 & I2 & C2 & (more2 & B2) & (new2 & S2 & L2 & F2) & (l2 & O2)).
  unfold extends. split; [congruence|]. split; [congruence|].
  split; [eapply same_configuration_trans; eassumption|].
  split; [exists (more1 ++ more2); rewrite B2, B1; now rewrite app_assoc|].
  split; [|exists (l1 ++ l2); rewrite O2, O1; now rewrite app_assoc].
  exists (new1 ++ new2). rewrite S2, S1, app_assoc. split; [reflexivity|].
  split; [rewrite List.length_app; lia|]. now apply Forall_app.
Qed.

Lemma extends_weaken q m n (a b : NetSuiteQL * World) :
  (m <= n)%nat -> extends q m a b -> extends q n a b.
Proof.
  intros Hmn (U & I & C & B & (new & S & L & F) & O).
  unfold extends. repeat (split; [assumption|]). split; [|exact O].
  exists new. split; [exact S|]. split; [lia|exact F].
Qed.

(** One call of [query]: at most one request, nothing else. *)
Lemma query_extends x u q self w :
  extends q 1 (self, w) (snd (fst (query x u q self w)), snd (query x u q self w))
  /\ response_body (snd (fst (query x u q self w))) = response_body self
  /\ stdout (snd (query x u q self w)) = stdout w.
Proof.
  unfold query.
  pose proof (keeps_generate_auth_header (entropy x) (str "POST") u (auth self)) as Hk.
  destruct (generate_auth_header (entropy x) (str "POST") u (auth self))
    as [[hs|e] a'] eqn:Hg; cbn [fst snd] in *.
  - assert (Hb : fst (generate_auth_header (entropy x) (str "POST") u (auth self))
                 = Ok hs) by now rewrite Hg.
    destruct (generate_auth_header_bundle _ _ _ _ _ Hb) as (A & ->).
    split; [|split; reflexivity].
    unfold extends. cbn [fst snd url items auth response_body set_auth sent stdout send].
    split; [reflexivity|]. split; [reflexivity|]. split; [exact Hk|].
    split; [exists []; now rewrite app_nil_r|].
    split; [|exists []; now rewrite app_nil_r].
    eexists [_]. split; [reflexivity|]. split; [cbn; lia|].
    constructor; [|constructor]. split; [reflexivity|]. split; [reflexivity|].
    now exists A.
  - split; [|split; reflexivity].
    unfold extends. cbn [fst snd url items auth response_body set_auth sent stdout].
    split; [reflexivity|]. split; [reflexivity|]. split; [exact Hk|].
    split; [exists []; now rewrite app_nil_r|].
    split; [|exists []; now rewrite app_nil_r].
    exists []. rewrite app_nil_r. split; [reflexivity|]. split; [cbn; lia|constructor].
Qed.

Lemma make_QueryResponse_world (r : Response) (w : World) :
  sent (snd (make_QueryResponse r w)) = sent w
  /\ exists lines, stdout (snd (make_QueryResponse r w)) = stdout w ++ lines.
Proof.
  unfold make_QueryResponse. destruct (ok r).
  - cbn [snd]. split; [reflexivity|]. exists []. now rewrite app_nil_r.
  - destruct (report_error_world r w) as (Hs & _ & lines & Ho).
    destruct (report_error r w) as [[[]|e] w1]; cbn [snd] in *;
      (split; [exact Hs|now exists lines]).
Qed.

Lemma extends_local q (self self' : NetSuiteQL) (w w' : World) more lines :
  url self' = url self -> items self' = items self -> auth self' = auth self ->
  response_body self' = response_body self ++ more ->
  sent w' = sent w -> stdout w' = stdout w ++ lines ->
  extends q 0 (self, w) (self', w').
Proof.
  intros U I A B S O. unfold extends. cbn [fst snd].
  split; [exact U|]. split; [exact I|].
  split; [rewrite A; apply same_configuration_refl|].
  split; [now exists more|]. split; [|now exists lines].
  exists []. rewrite app_nil_r. split; [exact S|]. split; [cbn; lia|constructor].
Qed.

(** The loop, whatever the script and however it ends. *)
Lemma suiteql_loop_extends (script : list Exchange) :
  forall q u self w,
    extends q (List.length script) (self, w)
      (snd (fst (suiteql_loop script q u self w)),
       snd (suiteql_loop script q u self w)).
Proof.
  induction script as [|x script IH]; intros q u self w.
  - apply extends_refl.
  - cbn [suiteql_loop List.length].
    destruct (query_extends x u q self w) as (Hq & _ & _).
    destruct (query x u q self w) as [[[results|e] self1] w1]; cbn [fst snd] in Hq;
      [|cbn [fst snd]; apply (extends_weaken q 1); [lia|exact Hq]].
    destruct (make_QueryResponse_world results w1) as (Hs & lines & Ho).
    destruct (make_QueryResponse results w1) as [[response|e] w2];
      cbn [fst snd] in *.
    2:{ apply (extends_trans q 1 (List.length script) _ (self1, w1)); [exact Hq|].
        apply (extends_weaken q 0); [lia|].
        apply (extends_local q self1 self1 w1 w2 [] lines); auto.
        now rewrite app_nil_r. }
    assert (Hstay : extends q (List.length script) (self1, w1) (self1, w2)).
    { apply (extends_weaken q 0); [lia|].
      apply (extends_local q self1 self1 w1 w2 [] lines); auto.
      now rewrite app_nil_r. }
    destruct (q_ok response);
      [|cbn [fst snd]; apply (extends_trans q 1 _ _ (self1, w1)); assumption].
    destruct (if truthy (hasMore response)
              then match links_get (links response) (str "next") with
                   | Some u0 => Ok u0
                   | None => Raise KeyError
                   end
              else Ok u) as [next_url|e];
      [|cbn [fst snd]; apply (extends_trans q 1 _ _ (self1, w1)); assumption].
    destruct (Obj.iterate (q_items response)) as [new_items|e];
      [|cbn [fst snd]; apply (extends_trans q 1 _ _ (self1, w1)); assumption].
    set (self2 := set_response_body (response_body self1 ++ new_items) self1).
    assert (Hadd : extends q 0 (self1, w1) (self2, w2)).
    { apply (extends_local q self1 self2 w1 w2 new_items lines); auto. }
    destruct (truthy (hasMore response)).
    + apply (extends_trans q 1 (List.length script) _ (self1, w1)); [exact Hq|].
      apply (extends_trans q 0 (List.length script) _ (self2, w2)); [exact Hadd|].
      apply IH.
    + cbn [fst snd].
      apply (extends_trans q 1 (List.length script) _ (self1, w1)); [exact Hq|].
      apply (extends_weaken q 0); [lia|exact Hadd].
Qed.

End Growth.

Section PaginatorProperties.

Import Auth Frame Requests SuiteQL Run Shape Pages.

(** X22. Whatever the replies and however the call ends (a result, an
    empty dictionary, an exception), [suiteql] only adds: the URL,
    [items] and the credentials of the instance are unchanged, the
    accumulator is the old one with items appended, nothing printed is
    withdrawn, and at most one request per reply has been sent, each with
    the body [{"q": "<query>"}], the cookie [NS_ROUTING_VERSION=LAGGING]
    and the four signed headers. *)
Theorem suiteql_only_adds (script : list Exchange) (q : pystr)
  (self : NetSuiteQL) (w : World) :
  extends q (List.length script) (self, w)
    (snd (fst (suiteql script q self w)), snd (suiteql script q self w)).
Proof. unfold suiteql. apply suiteql_loop_extends. Qed.

End PaginatorProperties.

(** ** How a run of the paginator ends *)

Section LoopEnds.

Import Auth Frame Requests SuiteQL Run Shape Pages.

(** One iteration on a page that reports more and has no [next] link. *)
Lemma loop_dangles x tail q u self w :
  dangles x = true -> signable (auth self) x u = true ->
  exists self' w',
    suiteql_loop (x :: tail) q u self w = (Raised KeyError, self', w')
    /\ response_body self' = response_body self
    /\ List.map req_url (sent w') = List.map req_url (sent w) ++ [u]
    /\ stdout w' = stdout w.
Proof.
  intros Hc Hs. destruct (query_signed x u q self w Hs) as (h & a' & Hq & Ha).
  unfold dangles in Hc. destruct (page_of x) as [[page its]|] eqn:Hp;
    [|discriminate].
  apply andb_true_iff in Hc. destruct Hc as [Hmore Hnext].
  destruct (links_get (links page) (str "next")) as [v|] eqn:Hl; [discriminate|].
  destruct (page_of_Some _ _ _ Hp) as (Hok & Hparse & Hqok & Hit).
  eexists _, _. cbn [suiteql_loop]. rewrite Hq. unfold make_QueryResponse.
  rewrite Hok, Hparse, Hqok, Hmore, Hl.
  split; [reflexivity|]. split; [reflexivity|]. split; [|reflexivity].
  cbn [sent send]. now rewrite List.map_app.
Qed.

(** One iteration on an OK reply that does not parse to a page. *)
Lemma loop_page_raises x tail q u self w e :
  ok (reply x) = true -> parse_page (reply x) = Raise e ->
  signable (auth self) x u = true ->
  exists self' w',
    suiteql_loop (x :: tail) q u self w = (Raised e, self', w')
    /\ response_body self' = response_body self
    /\ List.map req_url (sent w') = List.map req_url (sent w) ++ [u]
    /\ stdout w' = stdout w.
Proof.
  intros Hok Hparse Hs. destruct (query_signed x u q self w Hs) as (h & a' & Hq & Ha).
  eexists _, _. cbn [suiteql_loop]. rewrite Hq. unfold make_QueryResponse.
  rewrite Hok, Hparse.
  split; [reflexivity|]. split; [reflexivity|]. split; [|reflexivity].
  cbn [sent send]. now rewrite List.map_app.
Qed.

(** One iteration on a reply that is not OK and whose error document
    cannot be read. *)
Lemma loop_report_raises x tail q u self w e :
  ok (reply x) = false -> read_error (reply x) = Raise e ->
  signable (auth self) x u = true ->
  exists self' w',
    suiteql_loop (x :: tail) q u self w = (Raised e, self', w')
    /\ response_body self' = response_body self
    /\ List.map req_url (sent w') = List.map req_url (sent w) ++ [u]
    /\ stdout w' = stdout w ++ [].
Proof.
  intros Hok Hrep Hs. destruct (query_signed x u q self w Hs) as (h & a' & Hq & Ha).
  eexists _, _. cbn [suiteql_loop]. rewrite Hq. unfold make_QueryResponse, report_error.
  rewrite Hok, Hrep.
  split; [reflexivity|]. split; [reflexivity|]. split; [|now rewrite app_nil_r].
  cbn [sent send]. now rewrite List.map_app.
Qed.

(** A run whose last step is described by [step]: the pages of [pre] are
    followed, then the step decides. *)
Lemma suiteql_after_prefix pre x rest q self w o (printed : list line) :
  forallb continues pre = true ->
  all_signable (auth self) (PStr (url self)) (pre ++ [x]) = true ->
  (forall u self1 w1,
     signable (auth self1) x u = true ->
     exists self' w',
       suiteql_loop (x :: rest) q u self1 w1 = (o, self', w')
       /\ response_body self' = response_body self1
       /\ List.map req_url (sent w') = List.map req_url (sent w1) ++ [u]
       /\ stdout w' = stdout w1 ++ printed) ->
  exists self' w',
    suiteql (pre ++ x :: rest) q self w = (o, self', w')
    /\ response_body self' = response_body self ++ run_items pre
    /\ List.length (sent w') = (List.length (sent w) + List.length pre + 1)%nat
    /\ stdout w' = stdout w ++ printed.
Proof.
  intros Hpre Hs Hstep. rewrite all_signable_app in Hs.
  apply andb_true_iff in Hs. destruct Hs as [Hspre Hsx].
  rewrite all_signable_cons in Hsx. apply andb_true_iff in Hsx.
  destruct Hsx as [Hsx _]. unfold suiteql.
  destruct (loop_prefix pre (x :: rest) q (PStr (url self)) self w Hpre Hspre)
    as (self1 & w1 & Hloop & Hbody & Hconf & Hurl & Hsent & Hout & _).
  rewrite (signable_configuration _ (auth self1)) in Hsx
    by now apply same_configuration_sym.
  destruct (Hstep _ self1 w1 Hsx) as (self2 & w2 & Hloop2 & Hbody2 & Hsent2 & Hout2).
  exists self2, w2. rewrite Hloop, Hloop2.
  split; [reflexivity|]. split; [congruence|]. split; [|congruence].
  apply (f_equal (@List.length pyobj)) in Hsent2.
  apply (f_equal (@List.length pyobj)) in Hsent.
  rewrite List.length_app, !List.length_map in Hsent, Hsent2.
  rewrite request_urls_length in Hsent. cbn [List.length] in Hsent2. lia.
Qed.

Lemma parse_page_incomplete (r : Response) (d : dict pyobj) (k : pystr) :
  ok r = true -> status_code r <> 204%Z -> json r = Some (PDict d) ->
  In k page_members -> dict_get d k = None ->
  exists e, (e = KeyError \/ e = TypeError) /\ parse_page r = Raise e.
Proof.
  intros Hok Hs Hj Hk Hget. unfold parse_page, response_json.
  rewrite Hok, Hj. apply Z.eqb_neq in Hs. rewrite Hs. cbn [bind Obj.getitem].
  assert (Hlinks : forall ls acc,
            match List.fold_left add_link ls acc with
            | Ok _ => True
            | Raise e => (e = KeyError \/ e = TypeError)
                         \/ acc = Raise e
            end).
  { induction ls as [|l ls IHl]; intros acc; cbn [List.fold_left].
    - destruct acc; [exact I|now right].
    - specialize (IHl (add_link acc l)).
      destruct (List.fold_left add_link ls (add_link acc l)) as [|e]; [exact I|].
      destruct IHl as [IHl|IHl]; [now left|].
      unfold add_link in IHl. destruct acc as [links|e']; cbn [bind] in IHl.
      + left. unfold Obj.getitem in IHl.
        destruct l; try (injection IHl as <-; now right).
        destruct (dict_get d0 (str "href")); cbn [bind] in IHl;
          [|injection IHl as <-; now left].
        destruct (dict_get d0 (str "rel")); cbn [bind] in IHl;
          [|injection IHl as <-; now left].
        destruct (Obj.hashable p0); [discriminate|]. injection IHl as <-. now right.
      + right. exact IHl. }
  unfold page_members in Hk. cbn [In] in Hk.
  destruct (dict_get d (str "links")) as [json_links|] eqn:E1;
    [|eexists; split; [left; reflexivity|reflexivity]].
  cbn [bind]. destruct (Obj.iterate json_links) as [link_list|e] eqn:E2.
  2:{ exists e. split; [|reflexivity]. destruct json_links; try discriminate E2;
        injection E2 as <-; now right. }
  cbn [bind]. specialize (Hlinks link_list (Ok [])).
  destruct (List.fold_left add_link link_list (Ok [])) as [links|e].
  2:{ exists e. split; [|reflexivity]. destruct Hlinks as [H|H]; [exact H|discriminate]. }
  cbn [bind].
  destruct (dict_get d (str "count")) eqn:E3;
    [|eexists; split; [left; reflexivity|reflexivity]]. cbn [bind].
  destruct (dict_get d (str "hasMore")) eqn:E4;
    [|eexists; split; [left; reflexivity|reflexivity]]. cbn [bind].
  destruct (dict_get d (str "offset")) eqn:E5;
    [|eexists; split; [left; reflexivity|reflexivity]]. cbn [bind].
  destruct (dict_get d (str "totalResults")) eqn:E6;
    [|eexists; split; [left; reflexivity|reflexivity]]. cbn [bind].
  destruct (dict_get d (str "items")) eqn:E7;
    [|eexists; split; [left; reflexivity|reflexivity]].
  exfalso. destruct Hk as [<-|[<-|[<-|[<-|[<-|[<-|[]]]]]]]; congruence.
Qed.

End LoopEnds.

Section PaginatorEnds.

Import Auth Frame Requests SuiteQL Run Shape Pages.

(** X23. A page that reports more results without a [next] link makes
    [suiteql] raise [KeyError]: after the pages of [pre], such a page is
    requested, none of its items is added to the accumulator, nothing is
    printed and no further request is sent. *)
Theorem suiteql_missing_next_link (pre : list Exchange) (x : Exchange)
  (rest : list Exchange) (q : pystr) (self : NetSuiteQL) (w : World) :
  forallb continues pre = true ->
  dangles x = true ->
  all_signable (auth self) (PStr (url self)) (pre ++ [x]) = true ->
  exists self' w',
    suiteql (pre ++ x :: rest) q self w = (Raised KeyError, self', w')
    /\ response_body self' = response_body self ++ run_items pre
    /\ List.length (sent w') = (List.length (sent w) + List.length pre + 1)%nat
    /\ stdout w' = stdout w.
Proof.
  intros Hpre Hx Hs.
  destruct (suiteql_after_prefix pre x rest q self w (Raised KeyError) [] Hpre Hs)
    as (self' & w' & H1 & H2 & H3 & H4).
  - intros u self1 w1 Hsig.
    destruct (loop_dangles x rest q u self1 w1 Hx Hsig) as (s & v & A & B & C & D).
    exists s, v. rewrite app_nil_r. auto.
  - exists self', w'. rewrite app_nil_r in H4. auto.
Qed.

Lemma suiteql_missing_next_link_witness :
  forallb continues [] = true
  /\ dangles Samples.page_without_next = true
  /\ all_signable (auth Fixture.client) (PStr (url Fixture.client))
       ([] ++ [Samples.page_without_next]) = true
  /\ exists self' w',
       suiteql ([] ++ Samples.page_without_next :: [Fixture.page3])
               Fixture.select Fixture.client Fixture.world0
       = (Raised KeyError, self', w')
       /\ response_body self' = response_body Fixture.client ++ run_items []
       /\ List.length (sent w')
          = (List.length (sent Fixture.world0) + List.length (@nil Exchange) + 1)%nat
       /\ stdout w' = stdout Fixture.world0.
Proof.
  assert (H1 : forallb continues [] = true) by reflexivity.
  assert (H2 : dangles Samples.page_without_next = true) by (vm_compute; reflexivity).
  assert (H3 : all_signable (auth Fixture.client) (PStr (url Fixture.client))
                 ([] ++ [Samples.page_without_next]) = true)
    by (vm_compute; reflexivity).
  split; [exact H1|]. split; [exact H2|]. split; [exact H3|].
  exact (suiteql_missing_next_link [] Samples.page_without_next [Fixture.page3]
           Fixture.select Fixture.client Fixture.world0 H1 H2 H3).
Defined.

(** X24. A reply with status 204 ends the run: its body is not read (it
    need not be JSON), it adds no item, and the call returns the
    accumulator as the pages before it left it. *)
Theorem suiteql_no_content (pre : list Exchange) (x : Exchange)
  (rest : list Exchange) (q : pystr) (self : NetSuiteQL) (w : World) :
  forallb continues pre = true ->
  ok (reply x) = true -> status_code (reply x) = 204%Z ->
  all_signable (auth self) (PStr (url self)) (pre ++ [x]) = true ->
  exists self' w',
    suiteql (pre ++ x :: rest) q self w
    = (Returned (PList (response_body self ++ run_items pre)), self', w')
    /\ response_body self' = response_body self ++ run_items pre
    /\ List.length (sent w') = (List.length (sent w) + List.length pre + 1)%nat
    /\ stdout w' = stdout w.
Proof.
  intros Hpre Hok H204 Hs.
  destruct (ends_no_content x Hok H204) as [Hends Hitems].
  destruct (suiteql_all_ok pre x rest q self w Hpre Hends Hs)
    as (self' & w' & Hrun & Hbody & _ & _ & Hsent & Hout).
  assert (Hsame : run_items (pre ++ [x]) = run_items pre).
  { unfold run_items. rewrite List.map_app, List.concat_app. cbn [List.map List.concat].
    now rewrite Hitems, !app_nil_r. }
  rewrite Hsame in *. exists self', w'.
  split; [exact Hrun|]. split; [exact Hbody|]. split; [|exact Hout].
  apply (f_equal (@List.length pyobj)) in Hsent.
  rewrite List.length_app, !List.length_map in Hsent. cbn [List.length] in Hsent.
  rewrite List.length_map in Hsent. lia.
Qed.

Lemma suiteql_no_content_witness :
  forallb continues [Fixture.page1] = true
  /\ ok (reply Samples.no_content) = true
  /\ status_code (reply Samples.no_content) = 204%Z
  /\ all_signable (auth Fixture.client) (PStr (url Fixture.client))
       ([Fixture.page1] ++ [Samples.no_content]) = true
  /\ exists self' w',
       suiteql ([Fixture.page1] ++ Samples.no_content :: [])
               Fixture.select Fixture.client Fixture.world0
       = (Returned (PList (response_body Fixture.client ++ run_items [Fixture.page1])),
          self', w')
       /\ response_body self'
          = response_body Fixture.client ++ run_items [Fixture.page1]
       /\ List.length (sent w')
          = (List.length (sent Fixture.world0) + List.length [Fixture.page1] + 1)%nat
       /\ stdout w' = stdout Fixture.world0.
Proof.
  assert (H1 : forallb continues [Fixture.page1] = true) by (vm_compute; reflexivity).
  assert (H2 : ok (reply Samples.no_content) = true) by reflexivity.
  assert (H3 : status_code (reply Samples.no_content) = 204%Z) by reflexivity.
  assert (H4 : all_signable (auth Fixture.client) (PStr (url Fixture.client))
                 ([Fixture.page1] ++ [Samples.no_content]) = true)
    by (vm_compute; reflexivity).
  split; [exact H1|]. split; [exact H2|]. split; [exact H3|]. split; [exact H4|].
  exact (suiteql_no_content [Fixture.page1] Samples.no_content []
           Fixture.select Fixture.client Fixture.world0 H1 H2 H3 H4).
Defined.

(** X25. A reply that is not OK and whose body is not JSON makes
    [suiteql] raise [JSONDecodeError] out of the constructor of the
    response: nothing is printed, the empty dictionary is not returned,
    and the accumulator keeps the items of the pages before. *)
Theorem suiteql_error_without_json (pre : list Exchange) (x : Exchange)
  (rest : list Exchange) (q : pystr) (self : NetSuiteQL) (w : World) :
  forallb continues pre = true ->
  ok (reply x) = false -> json (reply x) = None ->
  all_signable (auth self) (PStr (url self)) (pre ++ [x]) = true ->
  exists self' w',
    suiteql (pre ++ x :: rest) q self w = (Raised JSONDecodeError, self', w')
    /\ response_body self' = response_body self ++ run_items pre
    /\ List.length (sent w') = (List.length (sent w) + List.length pre + 1)%nat
    /\ stdout w' = stdout w.
Proof.
  intros Hpre Hok Hj Hs.
  assert (Hrep : read_error (reply x) = Raise JSONDecodeError).
  { unfold read_error, response_json. now rewrite Hj. }
  destruct (suiteql_after_prefix pre x rest q self w (Raised JSONDecodeError) []
              Hpre Hs) as (self' & w' & H1 & H2 & H3 & H4).
  - intros u self1 w1 Hsig.
    exact (loop_report_raises x rest q u self1 w1 _ Hok Hrep Hsig).
  - exists self', w'. rewrite app_nil_r in H4. auto.
Qed.

Lemma suiteql_error_without_json_witness :
  forallb continues [] = true
  /\ ok (reply Fixture.gateway_error) = false
  /\ json (reply Fixture.gateway_error) = None
  /\ all_signable (auth Fixture.client) (PStr (url Fixture.client))
       ([] ++ [Fixture.gateway_error]) = true
  /\ exists self' w',
       suiteql ([] ++ Fixture.gateway_error :: []) Fixture.select
               Fixture.client Fixture.world0
       = (Raised JSONDecodeError, self', w')
       /\ response_body self' = response_body Fixture.client ++ run_items []
       /\ List.length (sent w')
          = (List.length (sent Fixture.world0) + List.length (@nil Exchange) + 1)%nat
       /\ stdout w' = stdout Fixture.world0.
Proof.
  assert (H1 : forallb continues [] = true) by reflexivity.
  assert (H2 : ok (reply Fixture.gateway_error) = false) by reflexivity.
  assert (H3 : json (reply Fixture.gateway_error) = None) by reflexivity.
  assert (H4 : all_signable (auth Fixture.client) (PStr (url Fixture.client))
                 ([] ++ [Fixture.gateway_error]) = true)
    by (vm_compute; reflexivity).
  split; [exact H1|]. split; [exact H2|]. split; [exact H3|]. split; [exact H4|].
  exact (suiteql_error_without_json [] Fixture.gateway_error []
           Fixture.select Fixture.client Fixture.world0 H1 H2 H3 H4).
Defined.

(** X26. An OK page must carry all six members [links], [count],
    [hasMore], [offset], [totalResults] and [items], also those the loop
    never uses: when the JSON object of an OK reply (not a 204) lacks one
    of them, [suiteql] raises ([KeyError], or [TypeError] when the links
    are malformed as well) and none of the page's items is added. *)
Theorem suiteql_incomplete_page (pre : list Exchange) (x : Exchange)
  (rest : list Exchange) (q : pystr) (self : NetSuiteQL) (w : World)
  (d : dict pyobj) (k : pystr) :
  forallb continues pre = true ->
  ok (reply x) = true -> status_code (reply x) <> 204%Z ->
  json (reply x) = Some (PDict d) ->
  In k page_members -> dict_get d k = None ->
  all_signable (auth self) (PStr (url self)) (pre ++ [x]) = true ->
  exists e self' w',
    (e = KeyError \/ e = TypeError)
    /\ suiteql (pre ++ x :: rest) q self w = (Raised e, self', w')
    /\ response_body self' = response_body self ++ run_items pre
    /\ List.length (sent w') = (List.length (sent w) + List.length pre + 1)%nat.
Proof.
  intros Hpre Hok H204 Hj Hk Hget Hs.
  destruct (parse_page_incomplete (reply x) d k Hok H204 Hj Hk Hget) as (e & He & Hp).
  destruct (suiteql_after_prefix pre x rest q self w (Raised e) [] Hpre Hs)
    as (self' & w' & H1 & H2 & H3 & H4).
  - intros u self1 w1 Hsig.
    destruct (loop_page_raises x rest q u self1 w1 e Hok Hp Hsig)
      as (s & v & A & B & C & D).
    exists s, v. rewrite app_nil_r. auto.
  - exists e, self', w'. auto.
Qed.

Lemma suiteql_incomplete_page_witness :
  forallb continues [] = true
  /\ ok (reply Samples.page_without_count) = true
  /\ status_code (reply Samples.page_without_count) <> 204%Z
  /\ json (reply Samples.page_without_count)
     = Some (PDict [(str "links", PList []);
                    (str "hasMore", PBool false);
                    (str "offset", PInt 0);
                    (str "totalResults", PInt 1);
                    (str "items", PList [PInt 1])])
  /\ In (str "count") page_members
  /\ dict_get [(str "links", PList []);
               (str "hasMore", PBool false);
               (str "offset", PInt 0);
               (str "totalResults", PInt 1);
               (str "items", PList [PInt 1])] (str "count") = None
  /\ all_signable (auth Fixture.client) (PStr (url Fixture.client))
       ([] ++ [Samples.page_without_count]) = true
  /\ exists e self' w',
       (e = KeyError \/ e = TypeError)
       /\ suiteql ([] ++ Samples.page_without_count :: []) Fixture.select
                  Fixture.client Fixture.world0
          = (Raised e, self', w')
       /\ response_body self' = response_body Fixture.client ++ run_items []
       /\ List.length (sent w')
          = (List.length (sent Fixture.world0) + List.length (@nil Exchange) + 1)%nat.
Proof.
  assert (H1 : forallb continues [] = true) by reflexivity.
  assert (H2 : ok (reply Samples.page_without_count) = true) by reflexivity.
  assert (H3 : status_code (reply Samples.page_without_count) <> 204%Z)
    by discriminate.
  assert (H4 : json (reply Samples.page_without_count)
               = Some (PDict [(str "links", PList []);
                              (str "hasMore", PBool false);
                              (str "offset", PInt 0);
                              (str "totalResults", PInt 1);
                              (str "items", PList [PInt 1])])) by reflexivity.
  assert (H5 : In (str "count") page_members) by (right; left; reflexivity).
  assert (H6 : dict_get [(str "links", PList []);
                         (str "hasMore", PBool false);
                         (str "offset", PInt 0);
                         (str "totalResults", PInt 1);
                         (str "items", PList [PInt 1])] (str "count") = None)
    by (vm_compute; reflexivity).
  assert (H7 : all_signable (auth Fixture.client) (PStr (url Fixture.client))
                 ([] ++ [Samples.page_without_count]) = true)
    by (vm_compute; reflexivity).
  split; [exact H1|]. split; [exact H2|]. split; [exact H3|]. split; [exact H4|].
  split; [exact H5|]. split; [exact H6|]. split; [exact H7|].
  exact (suiteql_incomplete_page [] Samples.page_without_count [] Fixture.select
           Fixture.client Fixture.world0 _ _ H1 H2 H3 H4 H5 H6 H7).
Defined.

End PaginatorEnds.

(** ** The verb wrappers, all five *)

Section WrapperProperties.

Import Auth Frame Rest Shape Wrappers.

(** X27. The wrappers check their arguments before anything is signed.
    Headers that are given and are not a dictionary (a non-empty list or
    string, a number other than zero) make every wrapper raise
    [TypeError]; so does, for [post], [put] and [patch], a body that is
    not a dictionary, [None] included. The signer then draws no nonce and
    is left exactly as it was, and no request is made. *)
Theorem wrappers_reject_arguments (v : verb) (e : Entropy)
  (url body headers : pyobj) (a : NetsuiteOAuth) :
  (truthy headers = true /\ is_dict headers = false)
  \/ (takes_body v = true /\ is_dict body = false) ->
  call v e url body headers a = (Raise TypeError, a).
Proof.
  intros [[Ht Hd]|[Hv Hb]].
  - assert (Hc : check_headers headers = Raise TypeError)
      by (unfold check_headers; now rewrite Ht, Hd).
    destruct v; unfold call, get, post, put, delete, patch; rewrite Hc; reflexivity.
  - assert (Hc : bind (check_headers headers) (fun _ => check_body body)
                 = Raise TypeError).
    { unfold check_headers, check_body. rewrite Hb.
      destruct (truthy headers && negb (is_dict headers)); reflexivity. }
    destruct v; try discriminate Hv; unfold call, post, put, patch; rewrite Hc;
      reflexivity.
Qed.

Lemma wrappers_reject_arguments_witness :
  ((truthy PNone = true /\ is_dict PNone = false)
   \/ (takes_body Post = true /\ is_dict PNone = false))
  /\ call Post Fixture.entropy0 (PStr Fixture.url_bc) PNone PNone Fixture.signer
     = (Raise TypeError, Fixture.signer).
Proof.
  assert (H : (truthy PNone = true /\ is_dict PNone = false)
              \/ (takes_body Post = true /\ is_dict PNone = false))
    by (right; split; reflexivity).
  split; [exact H|].
  exact (wrappers_reject_arguments Post Fixture.entropy0 (PStr Fixture.url_bc)
           PNone PNone Fixture.signer H).
Defined.

Lemma call_sign_and_send (v : verb) e url body headers a :
  check_headers headers = Ok tt ->
  (takes_body v = true -> is_dict body = true) ->
  call v e url body headers a
  = sign_and_send e (signed_method v) v url
      (if takes_body v then Some body else None) headers a.
Proof.
  intros Hh Hb.
  assert (Hc : takes_body v = true ->
               bind (check_headers headers) (fun _ => check_body body) = Ok tt).
  { intros Hv. rewrite Hh. cbn [bind]. unfold check_body. now rewrite (Hb Hv). }
  destruct v; unfold call, get, post, put, delete, patch, signed_method, takes_body;
    try rewrite (Hc eq_refl); try rewrite Hh; reflexivity.
Qed.

(** X28. What a wrapper sends when its arguments pass the checks and the
    signer returns: the function of [requests] of the wrapper's own verb
    is called with the URL as given, the body for [post], [put] and
    [patch], and headers that are the caller's dictionary with
    [Authorization] set when the caller gave a non-empty one, and the four
    default headers otherwise (no headers, or an empty dictionary). The
    [Authorization] is the one generated for [GET] by [get] and [delete]
    and for [PATCH] by [post], [put] and [patch]. *)
Theorem wrappers_send (v : verb) (e : Entropy) (url body headers : pyobj)
  (a : NetsuiteOAuth) (signed : dict pystr) :
  truthy headers = false \/ is_dict headers = true ->
  (takes_body v = true -> is_dict body = true) ->
  fst (generate_auth_header e (signed_method v) url a) = Ok signed ->
  exists text,
    signed = default_headers text
    /\ call v e url body headers a
       = (Ok {| wire := v; call_url := url;
                call_headers :=
                  match headers with
                  | PDict ((_ :: _) as d) =>
                      PDict (dict_set d (str "Authorization") (PStr text))
                  | _ => as_object (default_headers text)
                  end;
                call_data := if takes_body v then Some body else None |},
          snd (generate_auth_header e (signed_method v) url a)).
Proof.
  intros Hh Hb Hs.
  destruct (generate_auth_header_bundle _ _ _ _ _ Hs) as (text & ->).
  exists text. split; [reflexivity|].
  rewrite call_sign_and_send; [|unfold check_headers|exact Hb].
  2:{ destruct Hh as [Hh|Hh]; rewrite Hh; [reflexivity|].
      cbn [negb]. now rewrite andb_false_r. }
  unfold sign_and_send.
  destruct (generate_auth_header e (signed_method v) url a) as [[hs|ex] a'];
    cbn [fst snd] in *; [|discriminate].
  injection Hs as ->. unfold override_headers.
  destruct Hh as [Hh|Hh].
  - rewrite Hh. destruct headers as [| | | | | |[|kv d]]; try reflexivity.
    discriminate Hh.
  - destruct headers as [| | | | | |[|kv d]]; try discriminate Hh; reflexivity.
Qed.

Lemma wrappers_send_witness :
  let signed :=
    default_headers
      (authorization (str "123456") (str "ck") (str "tk") (str "1700000000")
         (str "0000000000000000000000000000000500000000000000000000000000000007")
         (str "BU%2F4ANts%2By43bPxuvWMgSWp5PPvJqJMhXHrY7AcNu88%3D")) in
  (truthy PNone = false \/ is_dict PNone = true)
  /\ (takes_body Delete = true -> is_dict PNone = true)
  /\ fst (generate_auth_header Fixture.entropy0 (signed_method Delete)
            (PStr Fixture.url_bc) Fixture.signer) = Ok signed
  /\ exists text,
       signed = default_headers text
       /\ call Delete Fixture.entropy0 (PStr Fixture.url_bc) PNone PNone Fixture.signer
          = (Ok {| wire := Delete; call_url := PStr Fixture.url_bc;
                   call_headers := as_object (default_headers text);
                   call_data := None |},
             snd (generate_auth_header Fixture.entropy0 (signed_method Delete)
                    (PStr Fixture.url_bc) Fixture.signer)).
Proof.
  cbv zeta.
  assert (H1 : truthy PNone = false \/ is_dict PNone = true) by (left; reflexivity).
  assert (H2 : takes_body Delete = true -> is_dict PNone = true) by discriminate.
  assert (H3 : fst (generate_auth_header Fixture.entropy0 (signed_method Delete)
                      (PStr Fixture.url_bc) Fixture.signer)
               = Ok (default_headers
                       (authorization (str "123456") (str "ck") (str "tk")
                          (str "1700000000")
                          (str "0000000000000000000000000000000500000000000000000000000000000007")
                          (str "BU%2F4ANts%2By43bPxuvWMgSWp5PPvJqJMhXHrY7AcNu88%3D"))))
    by (vm_compute; reflexivity).
  split; [exact H1|]. split; [exact H2|]. split; [exact H3|].
  exact (wrappers_send Delete Fixture.entropy0 (PStr Fixture.url_bc) PNone PNone
           Fixture.signer _ H1 H2 H3).
Defined.

(** X29. Headers given by the caller reach the request: when a wrapper
    returns for a non-empty dictionary of headers, the headers it sends
    answer every name other than [Authorization] as the caller's
    dictionary does, and answer [Authorization] with the freshly generated
    value, which replaces one the caller may have given. *)
Theorem wrappers_keep_caller_headers (v : verb) (e : Entropy) (url body : pyobj)
  (d : dict pyobj) (a : NetsuiteOAuth) (sent : Call) :
  d <> [] ->
  fst (call v e url body (PDict d) a) = Ok sent ->
  exists h text,
    call_headers sent = PDict h
    /\ fst (generate_auth_header e (signed_method v) url a) = Ok (default_headers text)
    /\ dict_get h (str "Authorization") = Some (PStr text)
    /\ (forall k, k <> str "Authorization" -> dict_get h k = dict_get d k)
    /\ (forall k, In k (dict_keys d) -> In k (dict_keys h)).
Proof.
  intros Hd Hcall.
  assert (Hs : fst (sign_and_send e (signed_method v) v url
                      (if takes_body v then Some body else None) (PDict d) a)
               = Ok sent).
  { revert Hcall. destruct v; unfold call, get, post, put, delete, patch;
      cbn [signed_method takes_body];
      repeat match goal with
      | |- context [match ?c with Ok _ => _ | Raise _ => _ end] =>
          destruct c; cbn [fst]; try discriminate
      end; auto. }
  destruct (sign_and_send_caller _ _ _ _ _ d a sent Hd Hs)
    as (hs & text & Hg & Hget & ->).
  destruct (generate_auth_header_bundle _ _ _ _ _ Hg) as (text' & ->).
  change (Some text' = Some text) in Hget. injection Hget as ->.
  exists (dict_set d (str "Authorization") (PStr text)), text.
  split; [reflexivity|]. split; [exact Hg|]. split; [apply dict_get_set_eq|].
  split.
  - intros k Hk. apply dict_get_set_ne. congruence.
  - intros k Hk. apply dict_keys_set_In. now left.
Qed.

Lemma wrappers_keep_caller_headers_witness :
  let d := [(str "Authorization", PStr (str "mine")); (str "X-Custom", PStr (str "1"))] in
  let sent :=
    {| wire := Get; call_url := PStr Fixture.url_bc;
       call_headers :=
         PDict [(str "Authorization",
                 PStr (authorization (str "123456") (str "ck") (str "tk")
                         (str "1700000000")
                         (str "0000000000000000000000000000000500000000000000000000000000000007")
                         (str "BU%2F4ANts%2By43bPxuvWMgSWp5PPvJqJMhXHrY7AcNu88%3D")));
                (str "X-Custom", PStr (str "1"))];
       call_data := None |} in
  d <> []
  /\ fst (call Get Fixture.entropy0 (PStr Fixture.url_bc) PNone (PDict d) Fixture.signer)
     = Ok sent
  /\ exists h text,
       call_headers sent = PDict h
       /\ fst (generate_auth_header Fixture.entropy0 (signed_method Get)
                 (PStr Fixture.url_bc) Fixture.signer) = Ok (default_headers text)
       /\ dict_get h (str "Authorization") = Some (PStr text)
       /\ (forall k, k <> str "Authorization" -> dict_get h k = dict_get d k)
       /\ (forall k, In k (dict_keys d) -> In k (dict_keys h)).
Proof.
  cbv zeta.
  assert (H1 : [(str "Authorization", PStr (str "mine"));
                (str "X-Custom", PStr (str "1"))] <> []) by discriminate.
  assert (H2 : fst (call Get Fixture.entropy0 (PStr Fixture.url_bc) PNone
                      (PDict [(str "Authorization", PStr (str "mine"));
                              (str "X-Custom", PStr (str "1"))]) Fixture.signer)
               = Ok {| wire := Get; call_url := PStr Fixture.url_bc;
                       call_headers :=
                         PDict [(str "Authorization",
                                 PStr (authorization (str "123456") (str "ck") (str "tk")
                                         (str "1700000000")
                                         (str "0000000000000000000000000000000500000000000000000000000000000007")
                                         (str "BU%2F4ANts%2By43bPxuvWMgSWp5PPvJqJMhXHrY7AcNu88%3D")));
                                (str "X-Custom", PStr (str "1"))];
                       call_data := None |})
    by (vm_compute; reflexivity).
  split; [exact H1|]. split; [exact H2|].
  exact (wrappers_keep_caller_headers Get Fixture.entropy0 (PStr Fixture.url_bc) PNone
           _ Fixture.signer _ H1 H2).
Defined.

End WrapperProperties.

